(** * The protocol engine of the Xpra client (src/app/xpra_client)

    A shallow embedding of the bencode decoder (bencode_decode.h,
    bencode_decode.cc), the string view (string_view.h), the message
    dispatcher (protocol_map.h, util.h), the growable buffer (util.h) and the
    frame assembler and draw handler (client.cc), followed by the properties
    of the design document that were checked against them.

    Conventions.  A [size_t] or [unsigned long] is a [Z] reduced by [wrap64];
    a [long] is obtained by [to_long]; a byte is a [Z] in [0, 256).  Memory is
    a list of allocations; a pointer names an allocation and an offset in it,
    so that pointer arithmetic stays inside one allocation and a reallocation
    yields a different pointer.  A byte read outside the initialised part of
    an allocation yields [0], the terminator that the decoder expects after
    its input. *)

From Stdlib Require Import ZArith List Bool Lia String Ascii.
Import ListNotations.
Local Open Scope Z_scope.

(** ** Machine integers *)

Definition wrap64 (x : Z) : Z := x mod 2 ^ 64.
Definition wrap32 (x : Z) : Z := x mod 2 ^ 32.

Definition to_long (x : Z) : Z :=
  let u := wrap64 x in if u <? 2 ^ 63 then u else u - 2 ^ 64.

Definition to_int (x : Z) : Z :=
  let u := wrap32 x in if u <? 2 ^ 31 then u else u - 2 ^ 32.

Definition INT_MAX : Z := 2 ^ 31 - 1.

(** ** Memory *)

Record ptr := mkptr { blk : nat; off : Z }.

Definition memory := list (list Z).

Definition block_of (m : memory) (b : nat) : list Z := nth b m [].

(** The bytes of the allocation from a pointer onwards. *)
Definition from (m : memory) (p : ptr) : list Z :=
  if off p <? 0 then [] else skipn (Z.to_nat (off p)) (block_of m (blk p)).

Definition load (m : memory) (p : ptr) : Z := hd 0 (from m p).

Definition padd (p : ptr) (n : Z) : ptr := mkptr (blk p) (off p + n).

Definition pdiff (p q : ptr) : Z := off p - off q.

Definition ptr_eqb (p q : ptr) : bool :=
  Nat.eqb (blk p) (blk q) && (off p =? off q).

(** The [n] bytes at [p]. *)
Definition bytes_at (m : memory) (p : ptr) (n : Z) : list Z :=
  map (fun i => load m (padd p (Z.of_nat i))) (seq 0 (Z.to_nat n)).

Definition bytes_of_string (s : string) : list Z :=
  map (fun c => Z.of_N (N_of_ascii c)) (list_ascii_of_string s).

(** Writing [data] into one allocation at index [o]; bytes between the end
    of the initialised part and [o] are filled with [0]. *)
Definition store_block (b : list Z) (o : nat) (data : list Z) : list Z :=
  firstn o b ++ repeat 0 (o - List.length b) ++ data
  ++ skipn (o + List.length data) b.

Fixpoint set_block (m : memory) (b : nat) (l : list Z) : memory :=
  match m, b with
  | [], _ => []
  | _ :: m', O => l :: m'
  | x :: m', S b' => x :: set_block m' b' l
  end.

(** Writing [data] at [p]. *)
Definition store (m : memory) (p : ptr) (data : list Z) : memory :=
  set_block m (blk p)
    (store_block (block_of m (blk p)) (Z.to_nat (off p)) data).

(** A new allocation, and the release of one: a released allocation keeps
    no content. *)
Definition alloc (m : memory) : ptr * memory :=
  (mkptr (List.length m) 0, m ++ [[]]).

Definition free (m : memory) (p : ptr) : memory := set_block m (blk p) [].

(** ** The parts of Genode's util/string.h and util/misc_math.h that the
    client calls.  They belong to the Genode framework, not to this
    repository, and are transcribed here from that framework. *)

Module Genode.

Definition min (v1 v2 : Z) : Z := if v1 <? v2 then v1 else v2.

(** [digit(c, hex)]: the value of a digit character, or -1. *)
Definition digit (c : Z) (hex : bool) : Z :=
  if (48 <=? c) && (c <=? 57) then c - 48
  else if hex && (97 <=? c) && (c <=? 102) then c - 97 + 10
  else if hex && (65 <=? c) && (c <=? 70) then c - 65 + 10
  else -1.

(** The digit loop of [ascii_to_unsigned]: [value = value*base + d] in a
    64-bit unsigned accumulator, until a character that is no digit. *)
Fixpoint read_digits (hex : bool) (base : Z) (s : list Z) (value i : Z)
  : Z * Z :=
  match s with
  | [] => (i, value)
  | c :: s' =>
      let d := digit c hex in
      if d <? 0 then (i, value)
      else read_digits hex base s' (wrap64 (value * base + d)) (i + 1)
  end.

(** [ascii_to_unsigned(s, result, 0)]: returns the number of characters
    consumed and the new content of [result]. *)
Definition ascii_to_unsigned (s : list Z) (result : Z) : Z * Z :=
  match s with
  | [] => (0, result)
  | c :: s1 =>
      if c =? 0 then (0, result)
      else if (c =? 48) && ((hd 0 s1 =? 120) || (hd 0 s1 =? 88))
      then read_digits true 16 (tl s1) 0 2
      else read_digits false 10 s 0 0
  end.

(** [ascii_to(s, long& result)]: an optional sign, then an unsigned number;
    [result = sign*value] is computed in [unsigned long] and stored in a
    [long]. *)
Definition ascii_to_long (s : list Z) (result : Z) : Z * Z :=
  let c := hd 0 s in
  let sign := if c =? 45 then -1 else 1 in
  let signed := (c =? 45) || (c =? 43) in
  let s' := if signed then tl s else s in
  let i := if signed then 1 else 0 in
  let '(j, value) := ascii_to_unsigned s' 0 in
  if j =? 0 then (i, result)
  else (i + j, to_long (wrap64 (sign * value))).

(** [memcmp(p0, p1, size)]: the difference of the first differing bytes. *)
Fixpoint memcmp_loop (m : memory) (c0 c1 : ptr) (size : nat) : Z :=
  match size with
  | O => 0
  | S n =>
      let a := load m c0 in
      let b := load m c1 in
      if a =? b then memcmp_loop m (padd c0 1) (padd c1 1) n else a - b
  end.

Definition memcmp (m : memory) (p0 p1 : ptr) (size : Z) : Z :=
  memcmp_loop m p0 p1 (Z.to_nat size).

End Genode.

(** ** string_view.h *)

Module Strview.

Record strview := mkstrview { start : ptr; length : Z }.

(** [strview::cmp]: [memcmp] over the shorter of the two lengths. *)
Definition cmp (m : memory) (this rhs : strview) : Z :=
  Genode.memcmp m (start this) (start rhs)
    (Genode.min (length this) (length rhs)).

(** [operator!=]: [rhs.start != start && cmp(rhs)]. *)
Definition ne (m : memory) (this rhs : strview) : bool :=
  negb (ptr_eqb (start rhs) (start this)) && negb (cmp m this rhs =? 0).

Definition eq (m : memory) (this rhs : strview) : bool := negb (ne m this rhs).

Definition lt (m : memory) (this rhs : strview) : bool := cmp m this rhs <? 0.

Definition content (m : memory) (s : strview) : list Z :=
  bytes_at m (start s) (length s).

End Strview.

Abbreviation strview := Strview.strview.

(** ** bencode_defs.h, bencode_decode.h, bencode_decode.cc *)

Module bencode.

(** [enum kind]: the enumerators are character codes, and [type()] casts the
    byte at the cursor to [kind], so a kind is kept as that code. *)
Definition kind := Z.
Definition END : kind := 0.
Definition REC_END : kind := 101.
Definition STRING : kind := 58.
Definition INTEGER : kind := 105.
Definition LIST : kind := 108.
Definition DICT : kind := 100.
Definition RAW : kind := 82.

(** The exceptions of the decoder (all derive from [parse_exception]), and
    the two exceptions of other origin that reach the dispatcher. *)
Inductive exception :=
| not_natural_number
| reached_end
| invalid_buffer
| unexpected_type
| Unknown_id
| Out_of_ram.

Definition is_parse_exception (e : exception) : bool :=
  match e with
  | not_natural_number | reached_end | invalid_buffer | unexpected_type => true
  | Unknown_id | Out_of_ram => false
  end.

Inductive result (A : Type) :=
| Ok (a : A)
| Throw (e : exception).
Arguments Ok {A} a.
Arguments Throw {A} e.

Definition bind {A B : Type} (r : result A) (k : A -> result B) : result B :=
  match r with
  | Ok a => k a
  | Throw e => Throw e
  end.

Notation "x <- r ;; k" := (bind r (fun x => k))
  (at level 61, r at next level, right associativity).

(** [class object]: [_len] is the cached length, [_pos] the cursor and
    [_last] the limit. *)
Record object := mkobject { _len : Z; _pos : ptr; _last : ptr }.

(** [object(const char* fst, const char* lst)]: the decimal length that
    precedes a string is parsed into [_len], the cursor is moved past it but
    not beyond [lst - 1], and a non-zero [_len] is incremented for the
    colon. *)
Definition object_at (m : memory) (fst lst : ptr) : object :=
  let '(n, len) := Genode.ascii_to_unsigned (from m fst) 0 in
  {| _len := if len =? 0 then 0 else wrap64 (len + 1);
     _pos := padd fst (Genode.min n (wrap64 (pdiff lst fst - 1)));
     _last := lst |}.

(** [object(const char* fst, size_t len)]. *)
Definition object_of (m : memory) (fst : ptr) (len : Z) : object :=
  object_at m fst (padd fst len).

Definition rem (o : object) : Z := wrap64 (pdiff (_last o) (_pos o)).

Definition type (m : memory) (o : object) : kind := load m (_pos o).

Definition object_end (o : object) : ptr := padd (_pos o) (_len o).

(** The valid kinds of the [switch] in [validate_type]; [RAW] is not a real
    type and falls through to [invalid_buffer], as does every other byte. *)
Definition valid_kind (k : kind) : bool :=
  (k =? DICT) || (k =? STRING) || (k =? LIST) || (k =? INTEGER)
  || (k =? END) || (k =? REC_END).

Definition validate_type (m : memory) (o : object) (expected : kind)
  : result unit :=
  if type m o =? expected then Ok tt
  else if valid_kind (type m o) then Throw unexpected_type
  else Throw invalid_buffer.

Definition validate_len (o : object) (len : Z) : result unit :=
  if rem o <? len then Throw invalid_buffer else Ok tt.

(** [object::string()]. *)
Definition object_string (m : memory) (o : object) : result strview :=
  _ <- validate_type m o STRING ;;
  _ <- validate_len o (_len o) ;;
  Ok {| Strview.start := padd (_pos o) 1;
        Strview.length := if _len o =? 0 then 0 else _len o - 1 |}.

(** [object::integer()]: returns the number and the object with its length
    cached, [_len = ascii_to(_pos+1, retval) + 2]. *)
Definition object_integer (m : memory) (o : object) : result (Z * object) :=
  _ <- validate_type m o INTEGER ;;
  let '(n, retval) := Genode.ascii_to_long (from m (padd (_pos o) 1)) 0 in
  Ok (retval, {| _len := wrap64 (n + 2); _pos := _pos o; _last := _last o |}).

(** [object::natural()]. *)
Definition object_natural (m : memory) (o : object) : result Z :=
  r <- object_integer m o ;;
  let num := Datatypes.fst r in
  if num <? 0 then Throw not_natural_number else Ok (wrap64 num).

(** [object::list()]: the list object one byte past the ['l']. *)
Definition object_list (m : memory) (o : object) : result object :=
  _ <- validate_type m o LIST ;;
  Ok (object_at m (padd (_pos o) 1) (_last o)).

(** [class dict]: the node sits on the value, [_key] on the key before it. *)
Record bdict := mkdict { dict_object : object; _key : object }.

(** [dict::create(pos, last)]. *)
Definition dict_create (m : memory) (pos last : ptr) : bdict :=
  let key_obj := object_at m pos last in
  {| dict_object := object_at m (object_end key_obj) last; _key := key_obj |}.

(** [object::dict()]. *)
Definition object_dict (m : memory) (o : object) : result bdict :=
  _ <- validate_type m o DICT ;;
  Ok (dict_create m (padd (_pos o) 1) (_last o)).

(** [dict::key()]. *)
Definition dict_key (m : memory) (d : bdict) : result strview :=
  object_string m (_key d).

(** [object::is(const Genode::String<SZ>& str)]: [str] holds an encoded value
    of [len] bytes at [lit]; the encoded bytes are compared over the shorter
    of the two remainders. *)
Definition object_is (m : memory) (o : object) (lit : ptr) (len : Z) : bool :=
  let other := object_of m lit len in
  Genode.memcmp m (_pos other) (_pos o) (Genode.min (rem other) (rem o)) =? 0.

(** The outcome of a run: it returns, or it exhausts the call stack or the
    iteration budget that the model is given, or it divides by zero. *)
Inductive outcome (A : Type) :=
| Done (a : A)
| Stack_exhausted
| Out_of_fuel
| Division_by_zero.
Arguments Done {A} a.
Arguments Stack_exhausted {A}.
Arguments Out_of_fuel {A}.
Arguments Division_by_zero {A}.

(** Sequencing of runs that may throw. *)
Definition and_then {A B : Type} (o : outcome (result A))
    (k : A -> outcome (result B)) : outcome (result B) :=
  match o with
  | Done (Ok a) => k a
  | Done (Throw e) => Done (Throw e)
  | Stack_exhausted => Stack_exhausted
  | Out_of_fuel => Out_of_fuel
  | Division_by_zero => Division_by_zero
  end.

(** [template <typename T> class node]: [T] is [list] or [dict]; what the
    template uses of [T] is its constructor from a position and a limit and
    its [object] base. *)
Class Node (T : Type) := {
  construct : memory -> ptr -> ptr -> T;
  base : T -> object
}.

#[global] Instance Node_list : Node object := {
  construct := object_at;
  base := fun o => o
}.

#[global] Instance Node_dict : Node bdict := {
  construct := dict_create;
  base := dict_object
}.

Section node.

Context {T : Type} {node_T : Node T}.
Variable m : memory.

(** The loop of [skipall], [while (obj->type() != REC_END)
    obj.construct(obj->next())], over the [next] of the callee's frame. *)
Fixpoint skipall_loop (next : T -> outcome (result T)) (n : nat) (obj : T)
  : outcome (result ptr) :=
  match n with
  | O => Out_of_fuel
  | S n' =>
      if type m (base obj) =? REC_END
      then Done (Ok (padd (_pos (base obj)) 1))
      else and_then (next obj) (fun obj' => skipall_loop next n' obj')
  end.

(** [node::next()] and [node::skipall()], which call each other.  [stack]
    bounds the number of nested activations of the two functions, [fuel] the
    iterations of the loop of one [skipall]. *)
Fixpoint next (stack fuel : nat) (this : T) {struct stack}
  : outcome (result T) :=
  match stack with
  | O => Stack_exhausted
  | S stack' =>
      let o := base this in
      if _len o =? 0 then
        let k := type m o in
        if k =? END then Done (Throw invalid_buffer)
        else if k =? REC_END then Done (Throw reached_end)
        else if k =? INTEGER then
          match object_integer m o with
          | Ok (_, o') => Done (Ok (construct m (object_end o') (_last o)))
          | Throw e => Done (Throw e)
          end
        else if (k =? LIST) || (k =? DICT) then
          and_then
            (skipall stack' fuel (construct m (padd (_pos o) 1) (_last o)))
            (fun e =>
               let len := wrap64 (pdiff e (_pos o)) in
               Done (Ok (construct m (padd (_pos o) len) (_last o))))
        else if k =? STRING then
          Done (Ok (construct m (padd (_pos o) 1) (_last o)))
        else Done (Throw invalid_buffer)
      else Done (Ok (construct m (object_end o) (_last o)))
  end
with skipall (stack fuel : nat) (this : T) {struct stack}
  : outcome (result ptr) :=
  match stack with
  | O => Stack_exhausted
  | S stack' => skipall_loop (next stack' fuel) fuel this
  end.

(** [node::next(unsigned n)]: [n + 1] steps. *)
Fixpoint next_n (stack fuel : nat) (n : nat) (this : T)
  : outcome (result T) :=
  and_then (next stack fuel this)
    (fun t => match n with
              | O => Done (Ok t)
              | S n' => next_n stack fuel n' t
              end).

End node.

(** [dict::lookup(strview key)]: the first entry from the head whose key
    equals [key], or the dict on its [REC_END]. *)
Fixpoint lookup_loop (m : memory) (stack fuel : nat) (n : nat) (iter : bdict)
    (key : strview) : outcome (result bdict) :=
  match n with
  | O => Out_of_fuel
  | S n' =>
      if type m (dict_object iter) =? REC_END then Done (Ok iter)
      else
        match dict_key m iter with
        | Throw e => Done (Throw e)
        | Ok k =>
            if Strview.eq m k key then Done (Ok iter)
            else and_then (next m stack fuel iter)
                   (fun iter' => lookup_loop m stack fuel n' iter' key)
        end
  end.

Definition dict_lookup (m : memory) (stack fuel : nat) (d : bdict)
    (key : strview) : outcome (result bdict) :=
  lookup_loop m stack fuel fuel d key.

(** [dict::lookup(strview key, const Genode::String<SZ>& str)]: [str] holds
    [len] bytes at [lit]. *)
Definition dict_lookup_default (m : memory) (stack fuel : nat) (d : bdict)
    (key : strview) (lit : ptr) (len : Z) : outcome (result bdict) :=
  and_then (dict_lookup m stack fuel d key)
    (fun obj =>
       if type m (dict_object obj) =? REC_END
       then Done (Ok (dict_create m lit (padd lit len)))
       else Done (Ok obj)).

End bencode.

(** ** util.h: [Mapping], and protocol_map.h *)

Module Mapping.

(** A [Mapping<strview, Stored>] is a node of Genode's [Avl_tree]; what the
    client's [search] uses of the tree is [child(side)], with [side] false
    for the left and true for the right child.  The tree is kept as the
    binary tree of its nodes, of whatever shape the insertions gave it. *)
Inductive tree (Stored : Type) :=
| Leaf
| Node (left : tree Stored) (key : strview) (value : Stored)
       (right : tree Stored).
Arguments Leaf {Stored}.
Arguments Node {Stored} left key value right.

(** [Mapping::higher(const Comparable& other)]: [this->key < other]. *)
Definition higher (m : memory) (key other : strview) : bool :=
  Strview.lt m key other.

(** [Mapping::search]: [while (ref && ref->key != search_key)
    ref = ref->child(ref->higher(search_key))]. *)
Fixpoint search {Stored : Type} (m : memory) (ref : tree Stored)
    (search_key : strview) : option (strview * Stored) :=
  match ref with
  | Leaf => None
  | Node l key value r =>
      if Strview.ne m key search_key
      then search m (if higher m key search_key then r else l) search_key
      else Some (key, value)
  end.

End Mapping.

Module Proto_Map.

Section proto_map.

(** [Target], the registered callbacks, and the state [St] that a callback
    acts on. *)
Variables Target St : Type.

(** The call that [dispatch(name, ent)] makes: a registered callback with
    the rest of the list, or the default callback with the name too. *)
Inductive invocation :=
| To_target (t : Target) (ent : bencode.object)
| To_default (name : strview) (ent : bencode.object).

(** The execution of a callback: the new state, and whether it threw. *)
Variable call : invocation -> St -> bencode.outcome (St * bencode.result unit).

(** [dispatch(strview name, bencode::list ent)]. *)
Definition dispatch_name (m : memory) (_str_tab : Mapping.tree Target)
    (name : strview) (ent : bencode.object) : invocation :=
  match Mapping.search m _str_tab name with
  | Some (_, value) => To_target value ent
  | None => To_default name ent
  end.

(** [dispatch(strview raw_string)]: false for an empty string, for a parse
    exception and for any other exception of the callback.  The language
    leaves open which of [lst.string()] and [lst.next()] is evaluated first;
    an exception of either gives false.  Here [lst.string()] is first;
    [dispatch_next_first] below is the other order. *)
Definition dispatch (m : memory) (stack fuel : nat)
    (_str_tab : Mapping.tree Target) (raw_string : strview) (st : St)
  : bencode.outcome (bool * St) :=
  if Strview.length raw_string =? 0 then bencode.Done (false, st)
  else
    let obj := bencode.object_of m (Strview.start raw_string)
                 (Strview.length raw_string - 1) in
    match bencode.object_list m obj with
    | bencode.Throw _ => bencode.Done (false, st)
    | bencode.Ok lst =>
        match bencode.object_string m lst with
        | bencode.Throw _ => bencode.Done (false, st)
        | bencode.Ok name =>
            match bencode.next m stack fuel lst with
            | bencode.Done (bencode.Ok ent) =>
                match call (dispatch_name m _str_tab name ent) st with
                | bencode.Done (st', bencode.Ok _) => bencode.Done (true, st')
                | bencode.Done (st', bencode.Throw _) =>
                    bencode.Done (false, st')
                | bencode.Stack_exhausted => bencode.Stack_exhausted
                | bencode.Out_of_fuel => bencode.Out_of_fuel
                | bencode.Division_by_zero => bencode.Division_by_zero
                end
            | bencode.Done (bencode.Throw _) => bencode.Done (false, st)
            | bencode.Stack_exhausted => bencode.Stack_exhausted
            | bencode.Out_of_fuel => bencode.Out_of_fuel
            | bencode.Division_by_zero => bencode.Division_by_zero
            end
        end
    end.

(** [dispatch(strview raw_string)] when [lst.next()] is evaluated before
    [lst.string()], the other order that the language allows for the
    arguments of [this->dispatch(lst.string(), lst.next())].  [next()] caches
    a length in the list only when the list is on an integer, a list or a
    dict, where [string()] throws at the tag whatever the length is, so
    [string()] reads the list as [next()] found it. *)
Definition dispatch_next_first (m : memory) (stack fuel : nat)
    (_str_tab : Mapping.tree Target) (raw_string : strview) (st : St)
  : bencode.outcome (bool * St) :=
  if Strview.length raw_string =? 0 then bencode.Done (false, st)
  else
    let obj := bencode.object_of m (Strview.start raw_string)
                 (Strview.length raw_string - 1) in
    match bencode.object_list m obj with
    | bencode.Throw _ => bencode.Done (false, st)
    | bencode.Ok lst =>
        match bencode.next m stack fuel lst with
        | bencode.Done (bencode.Ok ent) =>
            match bencode.object_string m lst with
            | bencode.Throw _ => bencode.Done (false, st)
            | bencode.Ok name =>
                match call (dispatch_name m _str_tab name ent) st with
                | bencode.Done (st', bencode.Ok _) => bencode.Done (true, st')
                | bencode.Done (st', bencode.Throw _) =>
                    bencode.Done (false, st')
                | bencode.Stack_exhausted => bencode.Stack_exhausted
                | bencode.Out_of_fuel => bencode.Out_of_fuel
                | bencode.Division_by_zero => bencode.Division_by_zero
                end
            end
        | bencode.Done (bencode.Throw _) => bencode.Done (false, st)
        | bencode.Stack_exhausted => bencode.Stack_exhausted
        | bencode.Out_of_fuel => bencode.Out_of_fuel
        | bencode.Division_by_zero => bencode.Division_by_zero
        end
    end.

End proto_map.

Arguments To_target {Target} t ent.
Arguments To_default {Target} name ent.

End Proto_Map.

(** ** util.h: [Strechy_Buffer] and [idxview] *)

Module Strechy_Buffer.

Record t := mk {
  _capacity : Z;
  _length : Z;
  _buffer : ptr;
  _consecutive_small_requests : Z
}.

Section strechy_buffer.

(** [Genode::Allocator::alloc(size, &ptr)] reports whether it could serve
    the request; which requests it serves is left to the allocator. *)
Variable alloc_ok : Z -> bool.

(** [Strechy_Buffer(src, start)]. *)
Definition make (m : memory) (start : Z) : t * memory :=
  let '(buf, m') := alloc m in
  ({| _capacity := start; _length := 0; _buffer := buf;
      _consecutive_small_requests := 0 |}, m').

(** [_resize(newcap)]: nothing happens unless [newcap] exceeds the
    capacity; otherwise [_length] bytes move to a new allocation and the old
    one is released. *)
Definition _resize (b : t) (m : memory) (newcap : Z)
  : bencode.result (ptr * t * memory) :=
  if newcap <=? _capacity b then bencode.Ok (_buffer b, b, m)
  else if alloc_ok newcap then
    let '(newbuf, m1) := alloc m in
    let m2 := store m1 newbuf (bytes_at m (_buffer b) (_length b)) in
    let m3 := free m2 (_buffer b) in
    bencode.Ok (newbuf,
                {| _capacity := newcap; _length := _length b;
                   _buffer := newbuf;
                   _consecutive_small_requests :=
                     _consecutive_small_requests b |},
                m3)
  else bencode.Throw bencode.Out_of_ram.

(** [while (newcap < request) newcap *= 2] on a 64-bit [newcap]. *)
Fixpoint double_until (fuel : nat) (newcap request : Z) : option Z :=
  match fuel with
  | O => None
  | S fuel' =>
      if newcap <? request
      then double_until fuel' (wrap64 (newcap * 2)) request
      else Some newcap
  end.

(** After 64 doublings a 64-bit number is zero and stays zero, so the loop
    ends within 65 tests or not at all. *)
Definition doublings : nat := 65.

(** [calculate_reservation(request)]: [None] when the doubling loop does
    not end. *)
Definition calculate_reservation (b : t) (request : Z) : option (Z * t) :=
  let small :=
    if request <? _capacity b / 4
    then wrap64 (_consecutive_small_requests b + 1)
    else 0 in
  let b' := {| _capacity := _capacity b; _length := _length b;
               _buffer := _buffer b;
               _consecutive_small_requests := small |} in
  if _capacity b <? request then
    match double_until doublings (_capacity b) request with
    | Some newcap => Some (newcap, b')
    | None => None
    end
  else if 8 <? small then Some (Genode.min (_capacity b / 2) 1, b')
  else Some (_capacity b, b').

Definition unused_portion (b : t) : ptr := padd (_buffer b) (_length b).

Definition reset (b : t) : t :=
  {| _capacity := _capacity b; _length := 0; _buffer := _buffer b;
     _consecutive_small_requests := _consecutive_small_requests b |}.

Definition extend_length (b : t) (addnl : Z) : t :=
  {| _capacity := _capacity b; _length := wrap64 (_length b + addnl);
     _buffer := _buffer b;
     _consecutive_small_requests := _consecutive_small_requests b |}.

Definition set_length (b : t) (len : Z) : t :=
  {| _capacity := _capacity b; _length := len; _buffer := _buffer b;
     _consecutive_small_requests := _consecutive_small_requests b |}.

(** [reserve_reset<T>(request)], with [size] for [sizeof(T)]. *)
Definition reserve_reset (b : t) (m : memory) (request size : Z)
  : bencode.outcome (bencode.result (ptr * t * memory)) :=
  match calculate_reservation (reset b) (wrap64 (request * size)) with
  | Some (newcap, b') => bencode.Done (_resize b' m newcap)
  | None => bencode.Out_of_fuel
  end.

(** [reserve_addnl(request)]. *)
Definition reserve_addnl (b : t) (m : memory) (request : Z)
  : bencode.outcome (bencode.result (ptr * t * memory)) :=
  match calculate_reservation b (wrap64 (request + _length b)) with
  | Some (newcap, b') =>
      match _resize b' m newcap with
      | bencode.Ok (p, b'', m') =>
          bencode.Done (bencode.Ok (padd p (_length b''), b'', m'))
      | bencode.Throw e => bencode.Done (bencode.Throw e)
      end
  | None => bencode.Out_of_fuel
  end.

(** [extend_and_preserve(request, preservation)]: the guard restores the
    length on every exit. *)
Definition extend_and_preserve (b : t) (m : memory)
    (request preservation : Z)
  : bencode.outcome (bencode.result (ptr * t * memory)) :=
  let old := _length b in
  match reserve_addnl (set_length b preservation) m request with
  | bencode.Done (bencode.Ok (p, b', m')) =>
      bencode.Done (bencode.Ok (p, set_length b' old, m'))
  | other => other
  end.

End strechy_buffer.

End Strechy_Buffer.

(** [struct idxview]: a pair of indices into a buffer. *)
Module Idxview.

Record idxview := mk { start : Z; length : Z }.

Definition slice (v : idxview) (base : ptr) : strview :=
  {| Strview.start := padd base (start v); Strview.length := length v |}.

End Idxview.

(** ** protocol.h: the frame header *)

Module Header.

(** [sizeof(Protocol::Header)]. *)
Definition size : Z := 8.

(** [field(chunk_idx)]: the fourth byte. *)
Definition chunk_idx (m : memory) (src : ptr) : Z := load m (padd src 3).

(** [length()]: the last four bytes, in network byte order. *)
Definition length (m : memory) (src : ptr) : Z :=
  load m (padd src 4) * 2 ^ 24 + load m (padd src 5) * 2 ^ 16
  + load m (padd src 6) * 2 ^ 8 + load m (padd src 7).

End Header.

(** ** select_io.h: [Buffered_Read_Handler] *)

Module Buffered_Read_Handler.

Record t := mk { _offset : Z; _remaining : Z; _buffer : ptr }.

(** [respond_with(len, buf)]. *)
Definition respond_with (len : Z) (buf : ptr) : t :=
  {| _offset := 0; _remaining := len; _buffer := buf |}.

End Buffered_Read_Handler.

(** ** client.h, client.cc: the client *)

(** The string literals of the client and the encoded values that
    [bencode::buffer<4>] builds for the comparisons of the draw handler,
    each followed by its terminator.  They are allocation 1; allocation 0
    is empty and stands for the null pointer. *)
Definition static_data : list Z :=
  bytes_of_string "lz4" ++ [0] ++ bytes_of_string "zlib" ++ [0]
  ++ bytes_of_string "rgb32" ++ [0] ++ bytes_of_string "rgb24" ++ [0]
  ++ bytes_of_string "i1e" ++ [0] ++ bytes_of_string "i0e" ++ [0]
  ++ bytes_of_string "ping" ++ [0] ++ bytes_of_string "draw" ++ [0].

Definition literal (o len : Z) : strview :=
  {| Strview.start := mkptr 1 o; Strview.length := len |}.

Definition nullptr : ptr := mkptr 0 0.

Definition lit_lz4 : strview := literal 0 3.
Definition lit_zlib : strview := literal 4 4.
Definition lit_rgb32 : strview := literal 9 5.
Definition lit_rgb24 : strview := literal 15 5.
Definition buffer_true : strview := literal 21 3.
Definition buffer_zero : strview := literal 25 3.
Definition lit_ping : strview := literal 29 4.
Definition lit_draw : strview := literal 34 4.

(** The errors that the draw handler reports. *)
Inductive draw_error :=
| No_rgb_data
| Lz4_smaller_than_header
| Lz4_malformed (expected ret : Z)
| Zlib_failed (expected got : Z)
| Uncompressed_improper_length (expected got : Z)
| Unexpected_format.

(** What the client emits: diagnostics, messages to the server, and the
    calls of the decompressors with their arguments. *)
Inductive event :=
| Warning_no_compression_dict
| Warning_invalid_packet (length : Z)
| Warning_unsupported_packet (name : strview)
| Error_connection (errcond : Z)
| Error_draw (e : draw_error)
| Sent_buffer_refresh (wid : Z)
| Sent_damage_sequence (wid seq_id w h : Z) (e : option draw_error)
| Called_lz4 (src : ptr) (len : Z) (compressed_size dst_capacity : Z)
| Called_uncompress (src : ptr) (source_len : Z) (dest_len : Z).

(** A region painted by [Window::update_region]. *)
Record region := mkregion {
  r_x : Z; r_y : Z; r_w : Z; r_h : Z; r_stride : Z; r_src : ptr
}.

(** A window of the id space: its id and what was painted on it, latest
    first. *)
Record Window := mkwindow { wid : Z; painted : list region }.

(** [class Xpra::Client], with the members that the frame assembler and
    the draw handler use; the memory that the members point into is part of
    the state, and [emitted] keeps what the client has emitted, latest
    first. *)
Record Client := mkclient {
  mem : memory;
  _pktbuf : Strechy_Buffer.t;
  _pxlbuf : Strechy_Buffer.t;
  _waiting_chunk : option Idxview.idxview;
  _read_handler : Buffered_Read_Handler.t;
  _windows : list Window;
  emitted : list event
}.

Definition with_mem (st : Client) (m : memory) : Client :=
  mkclient m (_pktbuf st) (_pxlbuf st) (_waiting_chunk st) (_read_handler st)
    (_windows st) (emitted st).

Definition with_pktbuf (st : Client) (b : Strechy_Buffer.t) (m : memory)
  : Client :=
  mkclient m b (_pxlbuf st) (_waiting_chunk st) (_read_handler st)
    (_windows st) (emitted st).

Definition with_pxlbuf (st : Client) (b : Strechy_Buffer.t) (m : memory)
  : Client :=
  mkclient m (_pktbuf st) b (_waiting_chunk st) (_read_handler st)
    (_windows st) (emitted st).

Definition with_waiting_chunk (st : Client) (w : option Idxview.idxview)
  : Client :=
  mkclient (mem st) (_pktbuf st) (_pxlbuf st) w (_read_handler st)
    (_windows st) (emitted st).

Definition with_read_handler (st : Client) (h : Buffered_Read_Handler.t)
  : Client :=
  mkclient (mem st) (_pktbuf st) (_pxlbuf st) (_waiting_chunk st) h
    (_windows st) (emitted st).

Definition with_windows (st : Client) (ws : list Window) : Client :=
  mkclient (mem st) (_pktbuf st) (_pxlbuf st) (_waiting_chunk st)
    (_read_handler st) ws (emitted st).

Definition emit (st : Client) (e : event) : Client :=
  mkclient (mem st) (_pktbuf st) (_pxlbuf st) (_waiting_chunk st)
    (_read_handler st) (_windows st) (e :: emitted st).

(** The outcome of a [read] on the socket: bytes, or -1 with an [errno]. *)
Inductive read_result :=
| Read_bytes (data : list Z)
| Read_failed (errno : Z).

Definition find_window (ws : list Window) (id : Z) : option Window :=
  find (fun w => wid w =? id) ws.

(** [Id_space::apply(id, fn)] with an [fn] that paints [r]. *)
Fixpoint paint_window (ws : list Window) (id : Z) (r : region)
  : list Window :=
  match ws with
  | [] => []
  | w :: ws' =>
      if wid w =? id then mkwindow (wid w) (r :: painted w) :: ws'
      else w :: paint_window ws' id r
  end.

Section client.

Variable alloc_ok : Z -> bool.

(** lz4.h, [LZ4_decompress_safe(src, dst, compressedSize, dstCapacity)]:
    the return value and the bytes written to [dst]. *)
Variable LZ4_decompress_safe : memory -> ptr -> Z -> Z -> Z * list Z.

(** zlib.h, [uncompress(dest, &destLen, source, sourceLen)]: the return
    value, the new [destLen] and the bytes written to [dest]. *)
Variable uncompress : memory -> ptr -> Z -> Z -> Z * Z * list Z.

(** os/pixel_rgb888.h: the four bytes of the pixel that [rgba(r, g, b)]
    sets. *)
Variable rgba : Z -> Z -> Z -> list Z.

Variables stack fuel : nat.

(** *** [Client::_on_ready] *)

Section on_ready.

(** [_handlers.dispatch(strview)], acting on the client. *)
Variable dispatch : Client -> strview -> bencode.outcome (bool * Client).

(** What follows the dispatch of a primary message: the warning for an
    invalid packet, the end of the waiting chunk and the reset of the
    packet buffer for the next header. *)
Definition after_dispatch (length : Z) (r : bencode.outcome (bool * Client))
  : bencode.outcome (bencode.result Client) :=
  match r with
  | bencode.Done (ok, st1) =>
      let st2 := if ok then st1 else emit st1 (Warning_invalid_packet length) in
      let st3 := with_waiting_chunk st2 None in
      bencode.and_then
        (Strechy_Buffer.reserve_reset alloc_ok (_pktbuf st3) (mem st3)
           Header.size 1)
        (fun '(p, pk, m) =>
           bencode.Done
             (bencode.Ok
                (with_read_handler (with_pktbuf st3 pk m)
                   (Buffered_Read_Handler.respond_with Header.size p))))
  | bencode.Stack_exhausted => bencode.Stack_exhausted
  | bencode.Out_of_fuel => bencode.Out_of_fuel
  | bencode.Division_by_zero => bencode.Division_by_zero
  end.

Definition _on_ready (length : Z) (buf : ptr) (st : Client)
  : bencode.outcome (bencode.result Client) :=
  let pk := Strechy_Buffer.extend_length (_pktbuf st) length in
  if length =? Header.size then
    let len := Header.length (mem st) buf in
    bencode.and_then (Strechy_Buffer.reserve_addnl alloc_ok pk (mem st) len)
      (fun '(p, pk', m) =>
         bencode.Done
           (bencode.Ok
              (with_read_handler (with_pktbuf st pk' m)
                 (Buffered_Read_Handler.respond_with len p))))
  else
    let header := padd buf (- Header.size) in
    if negb (Header.chunk_idx (mem st) header =? 0) then
      let chunk :=
        Idxview.mk (wrap64 (pdiff buf (Strechy_Buffer._buffer pk))) length in
      bencode.and_then
        (Strechy_Buffer.reserve_addnl alloc_ok pk (mem st) Header.size)
        (fun '(p, pk', m) =>
           bencode.Done
             (bencode.Ok
                (with_read_handler
                   (with_pktbuf (with_waiting_chunk st (Some chunk)) pk' m)
                   (Buffered_Read_Handler.respond_with Header.size p))))
    else
      after_dispatch length
        (dispatch (with_pktbuf st pk (mem st))
           {| Strview.start := buf; Strview.length := length |}).

(** [Client::_on_err]. *)
Definition _on_err (errcond : Z) (st : Client) : Client :=
  emit st (Error_connection errcond).

(** [Buffered_Read_Handler::read_available] with the outcome of its
    [read]: at most [_remaining] bytes arrive at [_buffer + _offset]. *)
Definition read_available (r : read_result) (st : Client)
  : bencode.outcome (bencode.result Client) :=
  let h := _read_handler st in
  let st1 :=
    match r with
    | Read_failed errno => _on_err errno st
    | Read_bytes data =>
        let data := firstn (Z.to_nat (Buffered_Read_Handler._remaining h)) data in
        let ret := Z.of_nat (List.length data) in
        if ret =? 0 then _on_err 0 st
        else
          with_read_handler
            (with_mem st
               (store (mem st)
                  (padd (Buffered_Read_Handler._buffer h)
                     (Buffered_Read_Handler._offset h)) data))
            {| Buffered_Read_Handler._offset :=
                 Buffered_Read_Handler._offset h + ret;
               Buffered_Read_Handler._remaining :=
                 Buffered_Read_Handler._remaining h - ret;
               Buffered_Read_Handler._buffer :=
                 Buffered_Read_Handler._buffer h |}
    end in
  let h1 := _read_handler st1 in
  if Buffered_Read_Handler._remaining h1 =? 0
  then _on_ready (Buffered_Read_Handler._offset h1)
         (Buffered_Read_Handler._buffer h1) st1
  else bencode.Done (bencode.Ok st1).

(** The bytes of a stream, read as the handler asks for them: each [read]
    takes what is left of the stream, up to [_remaining] bytes. *)
Fixpoint feed (fuel : nat) (stream : list Z) (st : Client)
  : bencode.outcome (bencode.result Client) :=
  match stream with
  | [] => bencode.Done (bencode.Ok st)
  | _ :: _ =>
      match fuel with
      | O => bencode.Out_of_fuel
      | S fuel' =>
          let n := Z.to_nat (Buffered_Read_Handler._remaining (_read_handler st)) in
          bencode.and_then (read_available (Read_bytes stream) st)
            (feed fuel' (skipn n stream))
      end
  end.

End on_ready.

(** *** [Client::_draw] *)

(** A step of the handler that may throw: an exception leaves with the
    state and the error recorded so far. *)
Definition draw_step {A : Type} (st : Client) (err : option draw_error)
    (o : bencode.outcome (bencode.result A))
    (k : A -> bencode.outcome (Client * option draw_error * bencode.result unit))
  : bencode.outcome (Client * option draw_error * bencode.result unit) :=
  match o with
  | bencode.Done (bencode.Ok a) => k a
  | bencode.Done (bencode.Throw e) => bencode.Done (st, err, bencode.Throw e)
  | bencode.Stack_exhausted => bencode.Stack_exhausted
  | bencode.Out_of_fuel => bencode.Out_of_fuel
  | bencode.Division_by_zero => bencode.Division_by_zero
  end.

(** The loop of [extend_24_to_32]: [buf32[i].rgba(buf[i*3], buf[i*3+1],
    buf[i*3+2])] for [i] from [n - 1] down to 0. *)
Fixpoint expand_pixels (m : memory) (buf : ptr) (i : nat) : memory :=
  let j := Z.of_nat i in
  let m' :=
    store m (padd buf (4 * j))
      (rgba (load m (padd buf (j * 3))) (load m (padd buf (j * 3 + 1)))
         (load m (padd buf (j * 3 + 2)))) in
  match i with
  | O => m'
  | S i' => expand_pixels m' buf i'
  end.

(** [extend_24_to_32(rgb24, n)]. *)
Definition extend_24_to_32 (b : Strechy_Buffer.t) (m : memory) (n : Z)
  : bencode.outcome (bencode.result (ptr * Strechy_Buffer.t * memory)) :=
  if n =? 0 then bencode.Done (bencode.Ok (nullptr, b, m))
  else
    bencode.and_then
      (Strechy_Buffer.extend_and_preserve alloc_ok b m n (wrap64 (n * 3)))
      (fun '(_, b', m') =>
         let buf := Strechy_Buffer._buffer b' in
         bencode.Done
           (bencode.Ok (buf, b', expand_pixels m' buf (Z.to_nat (n - 1))))).

(** [_windows.apply<Xpra::Window>(id, update32)]. *)
Definition apply_update32 (st : Client) (err : option draw_error)
    (id x y w h stride : Z) (decompressed : ptr)
  : bencode.outcome (Client * option draw_error * bencode.result unit) :=
  match find_window (_windows st) id with
  | None => bencode.Done (st, err, bencode.Throw bencode.Unknown_id)
  | Some _ =>
      bencode.Done
        (with_windows st
           (paint_window (_windows st) id
              (mkregion x y w h (wrap32 stride) decompressed)),
         err, bencode.Ok tt)
  end.

(** [_windows.apply<Xpra::Window>(id, update24)]. *)
Definition apply_update24 (st : Client) (err : option draw_error)
    (id x y w h stride expected : Z) (decompressed : ptr)
  : bencode.outcome (Client * option draw_error * bencode.result unit) :=
  match find_window (_windows st) id with
  | None => bencode.Done (st, err, bencode.Throw bencode.Unknown_id)
  | Some _ =>
      if w =? 0 then bencode.Division_by_zero
      else if stride / w =? 3 then
        draw_step st err (extend_24_to_32 (_pxlbuf st) (mem st) (expected / 3))
          (fun '(decompressed', px, m) =>
             apply_update32 (with_pxlbuf st px m) err id x y w h
               (wrap32 (w * 4)) decompressed')
      else apply_update32 st err id x y w h stride decompressed
  end.

(** The end of the handler: the format selects how the window is painted. *)
Definition draw_paint (st : Client) (err : option draw_error)
    (id x y w h stride expected : Z) (format : strview) (decompressed : ptr)
  : bencode.outcome (Client * option draw_error * bencode.result unit) :=
  if Strview.eq (mem st) format lit_rgb32
  then apply_update32 st err id x y w h stride decompressed
  else if Strview.eq (mem st) format lit_rgb24
  then apply_update24 st err id x y w h stride expected decompressed
  else bencode.Done (st, Some Unexpected_format, bencode.Ok tt).

(** [!config.constructed() || config->lookup("lz4").is<4>(true)]. *)
Definition lz4_selected (m : memory) (config : option bencode.bdict)
  : bencode.outcome (bencode.result bool) :=
  match config with
  | None => bencode.Done (bencode.Ok true)
  | Some d =>
      bencode.and_then (bencode.dict_lookup m stack fuel d lit_lz4)
        (fun e =>
           bencode.Done
             (bencode.Ok
                (bencode.object_is m (bencode.dict_object e)
                   (Strview.start buffer_true) (Strview.length buffer_true))))
  end.

(** [config->lookup<4>("zlib", bencode::buffer<4>(0)).integer()]. *)
Definition zlib_selected (m : memory) (d : bencode.bdict)
  : bencode.outcome (bencode.result Z) :=
  bencode.and_then
    (bencode.dict_lookup_default m stack fuel d lit_zlib
       (Strview.start buffer_zero) (Strview.length buffer_zero))
    (fun e =>
       bencode.Done
         (bencode.bind (bencode.object_integer m (bencode.dict_object e))
            (fun r => bencode.Ok (Datatypes.fst r)))).

(** [blob.length ? blob : _waiting_chunk->slice(_pktbuf.base())], or
    nothing when the blob is empty and no chunk is waiting. *)
Definition draw_data (st : Client) (blob : strview) : option strview :=
  if negb (Strview.length blob =? 0) then Some blob
  else
    match _waiting_chunk st with
    | Some c => Some (Idxview.slice c (Strechy_Buffer._buffer (_pktbuf st)))
    | None => None
    end.

(** [Genode::min(INT_MAX/h, stride) * h], computed in [unsigned] and stored
    in an [int]; nothing when the division is by zero. *)
Definition expected_size (h stride : Z) : option Z :=
  if h =? 0 then None
  else Some (to_int (wrap32 (Genode.min (INT_MAX / h) stride * h))).

(** The handler from the test for missing data on: the final state, the
    error that was constructed, and whether the handler threw. *)
Definition draw_body (st : Client) (id x y w h : Z) (format blob : strview)
    (stride : Z) (config : option bencode.bdict)
  : bencode.outcome (Client * option draw_error * bencode.result unit) :=
  match draw_data st blob with
  | None => bencode.Done (st, Some No_rgb_data, bencode.Ok tt)
  | Some data =>
      match expected_size h stride with
      | None => bencode.Division_by_zero
      | Some expected =>
        let base := Strview.start data in
        let len := Strview.length data in
        draw_step st None
          (Strechy_Buffer.reserve_reset alloc_ok (_pxlbuf st) (mem st)
             expected 1)
          (fun '(decompressed, px, m) =>
             let st1 := with_pxlbuf st px m in
             draw_step st1 None (lz4_selected (mem st1) config)
               (fun lz4 =>
                  if lz4 then
                    let header_len := 4 in
                    if expected <? header_len
                    then bencode.Done
                           (st1, Some Lz4_smaller_than_header, bencode.Ok tt)
                    else
                      let base := padd base header_len in
                      let len := wrap64 (len - header_len) in
                      let '(ret, written) :=
                        LZ4_decompress_safe (mem st1) base (to_int len)
                          expected in
                      let st2 :=
                        emit
                          (with_mem st1 (store (mem st1) decompressed written))
                          (Called_lz4 base len (to_int len) expected) in
                      let err :=
                        if expected =? ret then None
                        else Some (Lz4_malformed expected ret) in
                      draw_paint st2 err id x y w h stride expected format
                        decompressed
                  else
                    match config with
                    | None =>
                        (* not reached: without a dict LZ4 is selected *)
                        bencode.Done (st1, None, bencode.Ok tt)
                    | Some d =>
                        draw_step st1 None (zlib_selected (mem st1) d)
                          (fun zlib =>
                             if negb (zlib =? 0) then
                               let '(ret, decomp_sz, written) :=
                                 uncompress (mem st1) base len expected in
                               let st2 :=
                                 emit
                                   (with_mem st1
                                      (store (mem st1) decompressed written))
                                   (Called_uncompress base len expected) in
                               let err :=
                                 if (ret =? 0) && (decomp_sz =? wrap32 expected)
                                 then None
                                 else Some (Zlib_failed expected decomp_sz) in
                               draw_paint st2 err id x y w h stride expected
                                 format decompressed
                             else if negb (len =? wrap32 expected) then
                               bencode.Done
                                 (st1,
                                  Some (Uncompressed_improper_length
                                          expected len),
                                  bencode.Ok tt)
                             else
                               draw_paint st1 None id x y w h stride expected
                                 format base)
                    end))
      end
  end.

(** [damage_sequence_guard]: on every exit of the handler the draw is
    acknowledged, after a refresh request if an error was constructed. *)
Definition damage_sequence_guard (id seq_id w h : Z)
    (r : Client * option draw_error * bencode.result unit)
  : Client * bencode.result unit :=
  let '(st, err, completion) := r in
  let st1 :=
    match err with
    | Some e => emit (emit st (Sent_buffer_refresh id)) (Error_draw e)
    | None => st
    end in
  (emit st1 (Sent_damage_sequence id (wrap32 seq_id) w h err), completion).

(** A field of the message: an exception of the decoder leaves the handler
    before the guard exists. *)
Definition draw_field {A : Type} (st : Client)
    (o : bencode.outcome (bencode.result A))
    (k : A -> bencode.outcome (Client * bencode.result unit))
  : bencode.outcome (Client * bencode.result unit) :=
  match o with
  | bencode.Done (bencode.Ok a) => k a
  | bencode.Done (bencode.Throw e) => bencode.Done (st, bencode.Throw e)
  | bencode.Stack_exhausted => bencode.Stack_exhausted
  | bencode.Out_of_fuel => bencode.Out_of_fuel
  | bencode.Division_by_zero => bencode.Division_by_zero
  end.

(** [lst.next(n)] followed by an accessor. *)
Definition nth_field {A : Type} (m : memory) (lst : bencode.object) (n : nat)
    (access : bencode.object -> bencode.result A)
  : bencode.outcome (bencode.result A) :=
  bencode.and_then (bencode.next_n m stack fuel n lst)
    (fun o => bencode.Done (access o)).

Definition integer_of (m : memory) (o : bencode.object) : bencode.result Z :=
  bencode.bind (bencode.object_integer m o)
    (fun r => bencode.Ok (Datatypes.fst r)).

(** [lst.next(8).dict()] under [catch (bencode::parse_exception&)]. *)
Definition draw_config (m : memory) (lst : bencode.object)
  : bencode.outcome (bencode.result (option bencode.bdict)) :=
  match nth_field m lst 8 (bencode.object_dict m) with
  | bencode.Done (bencode.Ok d) => bencode.Done (bencode.Ok (Some d))
  | bencode.Done (bencode.Throw e) =>
      if bencode.is_parse_exception e then bencode.Done (bencode.Ok None)
      else bencode.Done (bencode.Throw e)
  | bencode.Stack_exhausted => bencode.Stack_exhausted
  | bencode.Out_of_fuel => bencode.Out_of_fuel
  | bencode.Division_by_zero => bencode.Division_by_zero
  end.

(** The handler once the fields of the message are decoded: the body under
    the guard. *)
Definition draw_decoded (st : Client) (id x y w h : Z)
    (format blob : strview) (seq_id stride : Z)
    (config : option bencode.bdict)
  : bencode.outcome (Client * bencode.result unit) :=
  match draw_body st id x y w h format blob stride config with
  | bencode.Done r => bencode.Done (damage_sequence_guard id seq_id w h r)
  | bencode.Stack_exhausted => bencode.Stack_exhausted
  | bencode.Out_of_fuel => bencode.Out_of_fuel
  | bencode.Division_by_zero => bencode.Division_by_zero
  end.

Definition _draw (st : Client) (lst : bencode.object)
  : bencode.outcome (Client * bencode.result unit) :=
  let m := mem st in
  draw_field st (bencode.Done (bencode.object_natural m lst)) (fun id =>
  draw_field st (nth_field m lst 0 (integer_of m)) (fun x =>
  let x := to_int (Genode.min x INT_MAX) in
  draw_field st (nth_field m lst 1 (integer_of m)) (fun y =>
  let y := to_int (Genode.min y INT_MAX) in
  draw_field st (nth_field m lst 2 (bencode.object_natural m)) (fun w =>
  let w := wrap32 (Genode.min w INT_MAX) in
  draw_field st (nth_field m lst 3 (bencode.object_natural m)) (fun h =>
  let h := wrap32 (Genode.min h INT_MAX) in
  draw_field st (nth_field m lst 4 (bencode.object_string m)) (fun format =>
  draw_field st (nth_field m lst 5 (bencode.object_string m)) (fun blob =>
  draw_field st (nth_field m lst 6 (bencode.object_natural m)) (fun seq_id =>
  draw_field st (nth_field m lst 7 (bencode.object_natural m)) (fun stride =>
  draw_field st (draw_config m lst) (fun config =>
  match config with
  | Some d => draw_decoded st id x y w h format blob seq_id stride (Some d)
  | None =>
      draw_decoded (emit st Warning_no_compression_dict) id x y w h format
        blob seq_id stride None
  end)))))))))).

(** The callbacks of the dispatch table act on the client; the default
    callback of the client prints a diagnostic. *)
Definition Target : Type :=
  Client -> bencode.object -> bencode.outcome (Client * bencode.result unit).

Definition call_handler (i : Proto_Map.invocation Target) (st : Client)
  : bencode.outcome (Client * bencode.result unit) :=
  match i with
  | Proto_Map.To_target t ent => t st ent
  | Proto_Map.To_default name ent =>
      bencode.Done (emit st (Warning_unsupported_packet name), bencode.Ok tt)
  end.

(** [_handlers.dispatch(strview)] of the client, for a table [_handlers]. *)
Definition handlers_dispatch (_handlers : Mapping.tree Target) (st : Client)
    (raw : strview) : bencode.outcome (bool * Client) :=
  Proto_Map.dispatch Target Client call_handler (mem st) stack fuel
    _handlers raw st.

End client.

(** The client as its constructor leaves it: the packet buffer holds one
    header, the pixel buffer has the default size, and the read handler
    waits for a header at the base of the packet buffer. *)
Definition Client_init : Client :=
  let m0 := [[]; static_data] in
  let '(pk, m1) := Strechy_Buffer.make m0 Header.size in
  let '(px, m2) := Strechy_Buffer.make m1 512 in
  {| mem := m2; _pktbuf := pk; _pxlbuf := px; _waiting_chunk := None;
     _read_handler :=
       Buffered_Read_Handler.respond_with Header.size
         (Strechy_Buffer._buffer pk);
     _windows := []; emitted := [] |}.

(** The state of a buffer after a sequence of [reserve_reset<char>]
    requests, or [None] if one of them does not return a buffer. *)
Fixpoint reserve_resets (alloc_ok : Z -> bool) (requests : list Z)
    (b : Strechy_Buffer.t) (m : memory)
  : option (Strechy_Buffer.t * memory) :=
  match requests with
  | [] => Some (b, m)
  | r :: rs =>
      match Strechy_Buffer.reserve_reset alloc_ok b m r 1 with
      | bencode.Done (bencode.Ok (_, b', m')) =>
          reserve_resets alloc_ok rs b' m'
      | _ => None
      end
  end.

(** The number that a string of decimal digit characters denotes, read from
    the left with [acc] as the value of the digits already seen. *)
Definition digits_value (acc : Z) (ds : list Z) : Z :=
  fold_left (fun a c => a * 10 + (c - 48)) ds acc.

Definition is_decimal (c : Z) : Prop := 48 <= c <= 57.

(** [n] lists nested in one another, the innermost empty. *)
Definition nested_lists (n : nat) : list Z :=
  repeat bencode.LIST n ++ repeat bencode.REC_END n.

(** The number of nested activations that [next] needs to skip a value is
    at most [B], whatever the input. *)
Definition skip_depth_bounded (B : nat) : Prop :=
  forall (m : memory) (fuel : nat) (l : bencode.object),
    bencode.next m B fuel l <> bencode.Stack_exhausted.

(** ** Inputs used in the properties *)

(** An allocator that serves every request, decompressors that report a
    failure and write nothing, and the byte order of a little-endian
    [Pixel_rgb888]. *)
Definition always_ok (size : Z) : bool := true.

Definition failing_lz4 (m : memory) (src : ptr) (compressed_size cap : Z)
  : Z * list Z := (-1, []).

Definition failing_uncompress (m : memory) (src : ptr) (source_len cap : Z)
  : Z * Z * list Z := (-3, 0, []).

Definition rgba_bytes (r g b : Z) : list Z := [b; g; r; 0].

(** The eight bytes of a [Protocol::Header] with the given chunk index and
    payload length. *)
Definition frame_header (chunk len : Z) : list Z :=
  [80; 0; 0; chunk; len / 2 ^ 24 mod 256; len / 2 ^ 16 mod 256;
   len / 2 ^ 8 mod 256; len mod 256].

(** A dispatch table with the handler of the draw message only, and one
    with a handler registered as [ping] only. *)
Definition draw_table : Mapping.tree Target :=
  Mapping.Node Mapping.Leaf lit_draw
    (_draw always_ok failing_lz4 failing_uncompress rgba_bytes 8 32)
    Mapping.Leaf.

Definition ping_table {T : Type} (handler : T) : Mapping.tree T :=
  Mapping.Node Mapping.Leaf lit_ping handler Mapping.Leaf.

(** The client after its constructor, with one window of id 1. *)
Definition client_with_window : Client :=
  with_windows Client_init [mkwindow 1 []].

(** [draw] of window 1 at (0, 0), 2 by 2 pixels, format [rgb32], an empty
    blob, sequence number 5 and a stride of 8 bytes; no dict follows, so LZ4
    is assumed and the pixels are those of the chunk that came before. *)
Definition draw_message : list Z :=
  bytes_of_string "l4:drawi1ei0ei0ei2ei2e5:rgb320:i5ei8ee".

(** The same message with a height of 0 and a blob of three bytes. *)
Definition draw_message_height_0 : list Z :=
  bytes_of_string "l4:drawi1ei0ei0ei2ei0e5:rgb323:abci5ei8ee".

(** The client after the header of a primary frame of 8 bytes and the 8
    bytes [l4:pinge] of its payload were read: the payload was taken for a
    header that announces 1768843109 bytes. *)
Definition after_8_byte_payload : Client :=
  {| mem := [[]; static_data; []; []; [];
             frame_header 0 8 ++ bytes_of_string "l4:pinge"];
     _pktbuf := {| Strechy_Buffer._capacity := 2147483648;
                   Strechy_Buffer._length := 16;
                   Strechy_Buffer._buffer := mkptr 5 0;
                   Strechy_Buffer._consecutive_small_requests := 0 |};
     _pxlbuf := {| Strechy_Buffer._capacity := 512;
                   Strechy_Buffer._length := 0;
                   Strechy_Buffer._buffer := mkptr 3 0;
                   Strechy_Buffer._consecutive_small_requests := 0 |};
     _waiting_chunk := None;
     _read_handler := {| Buffered_Read_Handler._offset := 0;
                         Buffered_Read_Handler._remaining := 1768843109;
                         Buffered_Read_Handler._buffer := mkptr 5 16 |};
     _windows := [];
     emitted := [] |}.

(** The client at the dispatch of [draw_message] when a chunk of three
    bytes came before it: the packet buffer holds the two frames, and the
    chunk is recorded at index 8. *)
Definition client_with_chunk : Client :=
  {| mem := [[]; static_data;
             frame_header 1 3 ++ [1; 2; 3] ++ frame_header 0 38 ++ draw_message;
             []];
     _pktbuf := {| Strechy_Buffer._capacity := 64;
                   Strechy_Buffer._length := 57;
                   Strechy_Buffer._buffer := mkptr 2 0;
                   Strechy_Buffer._consecutive_small_requests := 0 |};
     _pxlbuf := {| Strechy_Buffer._capacity := 512;
                   Strechy_Buffer._length := 0;
                   Strechy_Buffer._buffer := mkptr 3 0;
                   Strechy_Buffer._consecutive_small_requests := 0 |};
     _waiting_chunk := Some (Idxview.mk 8 3);
     _read_handler := Buffered_Read_Handler.respond_with 38 (mkptr 2 19);
     _windows := [mkwindow 1 []];
     emitted := [] |}.

(** The format and the blob of [draw_message] in that buffer. *)
Definition draw_message_format : strview :=
  {| Strview.start := mkptr 2 43; Strview.length := 5 |}.

Definition draw_message_blob : strview :=
  {| Strview.start := mkptr 2 50; Strview.length := 0 |}.

(** The allocation at [base] starts with the bytes [s]. *)
Definition holds (m : memory) (base : ptr) (s : list Z) : Prop :=
  forall i : nat, (i < List.length s)%nat ->
    load m (padd base (Z.of_nat i)) = nth i s 0.

(** The packet buffer of a client that waits for [want] bytes after the
    bytes [s] of the frames read so far. *)
Definition assembling (st : Client) (s : list Z) (want : Z) : Prop :=
  let pk := _pktbuf st in
  let base := Strechy_Buffer._buffer pk in
  off base = 0
  /\ (blk base < List.length (mem st))%nat
  /\ Strechy_Buffer._length pk = Z.of_nat (List.length s)
  /\ 1 <= Strechy_Buffer._capacity pk <= 2 ^ 40
  /\ holds (mem st) base s
  /\ _read_handler st
     = Buffered_Read_Handler.respond_with want
         (padd base (Z.of_nat (List.length s))).

(** The packet buffer of a client that has just read the bytes [t] after
    the bytes [s] that its length covers. *)
Definition filled (st : Client) (s t : list Z) : Prop :=
  let pk := _pktbuf st in
  let base := Strechy_Buffer._buffer pk in
  off base = 0
  /\ (blk base < List.length (mem st))%nat
  /\ Strechy_Buffer._length pk = Z.of_nat (List.length s)
  /\ 1 <= Strechy_Buffer._capacity pk <= 2 ^ 40
  /\ holds (mem st) base (s ++ t).

(** ** The decimal printer of Genode's base/output.h, which the encoder
    calls for a [long] and for a [size_t].  It belongs to the Genode
    framework and is transcribed here from that framework. *)

Module Output.

(** [ascii(digit)]. *)
Definition ascii (digit : Z) : Z :=
  if (0 <=? digit) && (digit <=? 9) then digit + 48 else digit + 97 - 10.

(** [for (; value > 0; value /= base) buf[i++] = ascii(value % base)] with
    [base] 10, on a buffer of [size] characters. *)
Fixpoint fill (size : nat) (value : Z) : list Z :=
  match size with
  | O => []
  | S size' =>
      if 0 <? value then ascii (value mod 10) :: fill size' (value / 10)
      else []
  end.

(** [char buf[sizeof(value)*3]] for a 64-bit [value]. *)
Definition buf_size : nat := 24.

(** [out_unsigned<unsigned long>(value, 10, 0, out_char)]: the buffer is
    filled from the least significant digit and put out in reverse. *)
Definition out_unsigned (value : Z) : list Z :=
  rev (if value =? 0 then [ascii 0] else fill buf_size value).

(** [out_signed<long>(value, 10, 0, out_char)]. *)
Definition out_signed (value : Z) : list Z :=
  let neg := value <? 0 in
  let value := to_long (if neg then - value else value) in
  rev ((if value =? 0 then [ascii 0] else fill buf_size value)
       ++ (if neg then [45] else [])).

End Output.

(** ** bencode_encode.h *)

Module bencode_encode.

(** [struct variant], with [listref] and [dictref]: a [const elem*] is null
    or points to an element, which holds a variant and its successor in the
    list; a [const assoc*] is null or points to a node of the AVL tree, which
    holds a key, a value and its two children. *)
Inductive variant :=
| Integer (a : Z)
| Dict (a : assoc)
| List (a : elem)
| String (a : strview)
| Raw (a : strview)
with elem :=
| elem_null
| elem_at (v : variant) (next : elem)
with assoc :=
| assoc_null
| assoc_at (left : assoc) (key : strview) (value : variant) (right : assoc).

(** [Genode::print(out, as.string.length, ":", as.string)]: the view is
    handed to the output with its length. *)
Definition print_string (m : memory) (a : strview) : list Z :=
  Output.out_unsigned (Strview.length a) ++ [bencode.STRING]
  ++ Strview.content m a.

(** [variant::print], [elem::print] with [elem::printer::print], and
    [assoc::print] with [assoc::printer::print]: the characters that are
    handed to the output.  A list is printed from the element pointed to to
    the end of the list, a dict in the order of [Avl_node::for_each]: left
    subtree, node, right subtree. *)
Fixpoint print (m : memory) (v : variant) : list Z :=
  match v with
  | Integer a => [bencode.INTEGER] ++ Output.out_signed a ++ [bencode.REC_END]
  | String a => print_string m a
  | Dict a =>
      match a with
      | assoc_null => []
      | assoc_at _ _ _ _ =>
          [bencode.DICT] ++ assoc_printer m a ++ [bencode.REC_END]
      end
  | List a =>
      match a with
      | elem_null => []
      | elem_at _ _ =>
          [bencode.LIST] ++ elem_printer m a ++ [bencode.REC_END]
      end
  | Raw a => Strview.content m a
  end
with elem_printer (m : memory) (e : elem) : list Z :=
  match e with
  | elem_null => []
  | elem_at v next => print m v ++ elem_printer m next
  end
with assoc_printer (m : memory) (a : assoc) : list Z :=
  match a with
  | assoc_null => []
  | assoc_at l key value r =>
      assoc_printer m l ++ (print_string m key ++ print m value)
      ++ assoc_printer m r
  end.

(** [struct cons]: the list of the given elements, in their order. *)
Fixpoint cons (elems : list variant) : elem :=
  match elems with
  | [] => elem_null
  | v :: vs => elem_at v (cons vs)
  end.

End bencode_encode.

(** ** The values of the encoder as the decoder meets them *)

Module Encoded.

Import bencode_encode.

(** The elements of a list from an element on, and the entries of a dict
    in the order in which they are printed. *)
Fixpoint elems (e : elem) : list variant :=
  match e with
  | elem_null => []
  | elem_at v next => v :: elems next
  end.

Fixpoint entries (a : assoc) : list (strview * variant) :=
  match a with
  | assoc_null => []
  | assoc_at l key value r => entries l ++ (key, value) :: entries r
  end.

(** The values between the opening and the closing of a printed list or
    dict: for a dict, keys and values in turn. *)
Definition entry_items (kv : strview * variant) : list variant :=
  [String (Datatypes.fst kv); Datatypes.snd kv].

Definition items (v : variant) : list variant :=
  match v with
  | List e => elems e
  | Dict a => flat_map entry_items (entries a)
  | _ => []
  end.

(** A string whose length plus the colon fits a [size_t]. *)
Definition string_ok (a : strview) : bool :=
  (0 <=? Strview.length a) && (Strview.length a <? 2 ^ 64 - 1).

(** The variants that print as a value of the format: every [long] but the
    least one, whose negation overflows in the printer; a string; a list or
    a dict that is not the null pointer, which prints as nothing.  A raw
    string prints as what it holds. *)
Fixpoint encodable (v : variant) : bool :=
  match v with
  | Integer a => (- 2 ^ 63 <? a) && (a <? 2 ^ 63)
  | String a => string_ok a
  | List e =>
      match e with elem_null => false | elem_at _ _ => elem_encodable e end
  | Dict a =>
      match a with
      | assoc_null => false
      | assoc_at _ _ _ _ => assoc_encodable a
      end
  | Raw _ => false
  end
with elem_encodable (e : elem) : bool :=
  match e with
  | elem_null => true
  | elem_at v next => encodable v && elem_encodable next
  end
with assoc_encodable (a : assoc) : bool :=
  match a with
  | assoc_null => true
  | assoc_at l key value r =>
      assoc_encodable l && string_ok key && encodable value
      && assoc_encodable r
  end.

(** The nesting depth of a value, and the largest number of values that one
    of its lists or dicts holds. *)
Fixpoint depth (v : variant) : nat :=
  match v with
  | List e => S (elem_depth e)
  | Dict a => S (assoc_depth a)
  | _ => 0
  end
with elem_depth (e : elem) : nat :=
  match e with
  | elem_null => 0
  | elem_at v next => Nat.max (depth v) (elem_depth next)
  end
with assoc_depth (a : assoc) : nat :=
  match a with
  | assoc_null => 0
  | assoc_at l _ value r =>
      Nat.max (assoc_depth l) (Nat.max (depth value) (assoc_depth r))
  end.

Fixpoint width (v : variant) : nat :=
  match v with
  | List e => Nat.max (List.length (elems e)) (elem_width e)
  | Dict a => Nat.max (2 * List.length (entries a)) (assoc_width a)
  | _ => 0
  end
with elem_width (e : elem) : nat :=
  match e with
  | elem_null => 0
  | elem_at v next => Nat.max (width v) (elem_width next)
  end
with assoc_width (a : assoc) : nat :=
  match a with
  | assoc_null => 0
  | assoc_at l _ value r =>
      Nat.max (assoc_width l) (Nat.max (width value) (assoc_width r))
  end.

(** The characters of a sequence of values. *)
Definition print_all (m : memory) (vs : list variant) : list Z :=
  List.concat (map (print m) vs).

(** What the entries of a printed dict satisfy. *)
Definition entry_ok (stack fuel : nat) (kv : strview * variant) : Prop :=
  string_ok (Datatypes.fst kv) = true
  /\ encodable (Datatypes.snd kv) = true
  /\ (2 * depth (Datatypes.snd kv) < stack)%nat
  /\ (width (Datatypes.snd kv) < fuel)%nat.

Section skipped.

Context {T : Type} {node_T : bencode.Node T}.
Variable m : memory.
Variable lst : ptr.

(** [next] on a node whose object was constructed at [q], where the
    characters of [x] begin: the node constructed where they end. *)
Definition skips (stack fuel : nat) (x : variant) : Prop :=
  forall (t : T) (q : ptr) (rest : list Z),
    bencode.base t = bencode.object_at m q lst ->
    from m q = print m x ++ rest ->
    off q + Z.of_nat (List.length (print m x)) <= off lst < off q + 2 ^ 64 ->
    bencode.next m stack fuel t
    = bencode.Done
        (bencode.Ok
           (bencode.construct m
              (padd q (Z.of_nat (List.length (print m x)))) lst)).

(** The loop of [skipall] over the values of a list or dict, left to the
    kind of node. *)
Definition loop_skips : Prop :=
  forall (stack fuel n : nat) (xs : list variant) (q : ptr) (rest : list Z),
    Forall (fun x => encodable x = true /\ skips stack fuel x) xs ->
    from m q = print_all m xs ++ bencode.REC_END :: rest ->
    off q + Z.of_nat (List.length (print_all m xs)) + 1 <= off lst
      < off q + 2 ^ 64 ->
    (List.length xs < n)%nat ->
    bencode.skipall_loop m (bencode.next m stack fuel) n
      (bencode.construct m q lst)
    = bencode.Done
        (bencode.Ok (padd q (Z.of_nat (List.length (print_all m xs)) + 1))).

End skipped.

(** Induction over a value with its elements and entries. *)
Scheme variant_mut := Induction for variant Sort Prop
  with elem_mut := Induction for elem Sort Prop
  with assoc_mut := Induction for assoc Sort Prop.

End Encoded.

(** ** Definitions used in the further properties *)

(** The entries of a tree of [Mapping] nodes. *)
Fixpoint tree_entries {Stored : Type} (t : Mapping.tree Stored)
  : list (strview * Stored) :=
  match t with
  | Mapping.Leaf => []
  | Mapping.Node l key value r => tree_entries l ++ (key, value) :: tree_entries r
  end.

(** The capacity that the doubling loop reaches after [k] doublings. *)
Definition doubled (c : Z) (k : nat) : Z := wrap64 (c * 2 ^ Z.of_nat k).

(** RGB24 data as RGB32 data: every three bytes become the bytes of the
    pixel that [rgba] sets from them. *)
Fixpoint rgb32_of (rgba : Z -> Z -> Z -> list Z) (s : list Z) : list Z :=
  match s with
  | r :: g :: b :: s' => rgba r g b ++ rgb32_of rgba s'
  | _ => []
  end.

(** The calls of the decompressors among the events. *)
Definition is_decompressor_call (e : event) : bool :=
  match e with
  | Called_lz4 _ _ _ _ | Called_uncompress _ _ _ => true
  | _ => false
  end.

(** What the guard of the draw handler emits for an error, latest first. *)
Definition acknowledgement (id seq_id w h : Z) (err : option draw_error)
  : list event :=
  Sent_damage_sequence id (wrap32 seq_id) w h err
  :: match err with
     | Some e => [Error_draw e; Sent_buffer_refresh id]
     | None => []
     end.

(** ** window.h: [Root_window] *)

Module Root_window.

(** What a window asks of its Nitpicker session, its input session and its
    timeout, in the order of the calls. *)
Inductive call :=
| Npconn_buffer (w h : Z)
| Wbuf_construct
| Ipconn_sigh
| Npconn_create_view
| Npconn_enqueue_title
| Npconn_mode_sigh
| Timeout_schedule (us : Z)
| Mode_recipient.

(** The members of [Window] and [Root_window] that the mode handler uses,
    and the calls made so far, latest first. *)
Record t := mk {
  _dim_w : Z; _dim_h : Z;
  _limits_x : Z; _limits_y : Z;
  _needs_resize : bool;
  _timeout_scheduled : bool;
  _mode_recipient : bool;
  calls : list call
}.

(** [Window(ev, sb, d, id, sp)] followed by [Root_window(title, timer, g,
    args...)], for a rectangle of [w] by [h] and increments [g_w], [g_h]. *)
Definition make (w h g_w g_h : Z) : t :=
  {| _dim_w := w; _dim_h := h;
     _limits_x := g_w; _limits_y := g_h;
     _needs_resize := true;
     _timeout_scheduled := false;
     _mode_recipient := false;
     calls :=
       (if negb (g_w =? 0) || negb (g_h =? 0) then [Npconn_mode_sigh] else [])
       ++ [Npconn_enqueue_title; Npconn_create_view; Ipconn_sigh;
           Wbuf_construct; Npconn_buffer (to_int w) (to_int h)] |}.

(** [handle_resize(handler)]. *)
Definition handle_resize (win : t) : t :=
  {| _dim_w := _dim_w win; _dim_h := _dim_h win;
     _limits_x := _limits_x win; _limits_y := _limits_y win;
     _needs_resize := _needs_resize win;
     _timeout_scheduled := _timeout_scheduled win;
     _mode_recipient := true;
     calls := calls win |}.

(** [dim += (mode - dim) / limit * limit] on [unsigned] operands. *)
Definition resized (dim mode limit : Z) : Z :=
  wrap32 (dim + wrap32 (wrap32 (mode - dim) / limit * limit)).

(** [_get_mode()] for the mode that [_npconn.mode()] returns. *)
Definition _get_mode (mode_width mode_height : Z) (win : t)
  : bencode.outcome t :=
  if _limits_x win =? 0 then bencode.Division_by_zero
  else
    let w := resized (_dim_w win) mode_width (_limits_x win) in
    if _limits_y win =? 0 then bencode.Division_by_zero
    else
      let h := resized (_dim_h win) mode_height (_limits_y win) in
      bencode.Done
        {| _dim_w := w; _dim_h := h;
           _limits_x := _limits_x win; _limits_y := _limits_y win;
           _needs_resize := true;
           _timeout_scheduled := true;
           _mode_recipient := _mode_recipient win;
           calls :=
             (if _mode_recipient win then [Mode_recipient] else [])
             ++ (if _timeout_scheduled win then []
                 else [Timeout_schedule 350000])
             ++ [Wbuf_construct; Npconn_buffer (to_int w) (to_int h)]
             ++ calls win |}.

End Root_window.

(** ** io.h: [Writer] *)

Module Writer.

(** What the writer meets outside the program: [errno], the bytes that
    [::write] has accepted, and the number of calls of [::write]. *)
Record channel := mkchannel {
  errno : Z;
  written : list Z;
  calls : nat
}.

Section writer.

Variable alloc_ok : Z -> bool.

(** The values of [EAGAIN], [EWOULDBLOCK] and [EINTR]. *)
Variables EAGAIN EWOULDBLOCK EINTR : Z.

(** [::write(_fd, src, n)] as the C library answers it: for the number of
    calls made before, the count [n] and [errno] before the call, the
    return value and [errno] after the call. *)
Variable write : nat -> Z -> Z -> Z * Z.

(** [Writer(sbf, fd)]. *)
Definition make (_sbuf : Strechy_Buffer.t) : Strechy_Buffer.t :=
  Strechy_Buffer.reset _sbuf.

(** [reserve(n)]. *)
Definition reserve (_sbuf : Strechy_Buffer.t) (m : memory) (n : Z)
  : bencode.outcome (bencode.result (ptr * Strechy_Buffer.t * memory)) :=
  bencode.and_then (Strechy_Buffer.reserve_addnl alloc_ok _sbuf m n)
    (fun '(ret, b, m') =>
       bencode.Done
         (bencode.Ok (ret, Strechy_Buffer.extend_length b n, m'))).

(** [out_string(str, n)]: [memcpy(reserve(n), str, n)]. *)
Definition out_string (_sbuf : Strechy_Buffer.t) (m : memory) (str : ptr)
    (n : Z) : bencode.outcome (bencode.result (Strechy_Buffer.t * memory)) :=
  bencode.and_then (reserve _sbuf m n)
    (fun '(ret, b, m') =>
       bencode.Done (bencode.Ok (b, store m' ret (bytes_at m' str n)))).

(** [out_char(c)]: [out_string(&c, 1)]. *)
Definition out_char (_sbuf : Strechy_Buffer.t) (m : memory) (c : Z)
  : bencode.outcome (bencode.result (Strechy_Buffer.t * memory)) :=
  bencode.and_then (reserve _sbuf m 1)
    (fun '(ret, b, m') => bencode.Done (bencode.Ok (b, store m' ret [c]))).

(** [errno == EAGAIN || errno == EWOULDBLOCK || errno == EINTR]. *)
Definition again (e : Z) : bool :=
  (e =? EAGAIN) || (e =? EWOULDBLOCK) || (e =? EINTR).

(** The loop of [flush]: [while (ret = ::write(_fd, src, n), (ret != -1 &&
    (src += ret, n -= ret)) || errno == EAGAIN || errno == EWOULDBLOCK ||
    errno == EINTR) {;}].  [None] when the loop does not end within [fuel]
    calls. *)
Fixpoint flush_loop (fuel : nat) (m : memory) (src : ptr) (n : Z)
    (c : channel) : option channel :=
  match fuel with
  | O => None
  | S fuel' =>
      let '(ret, e) := write (calls c) n (errno c) in
      if negb (ret =? -1) then
        let c' := {| errno := e;
                     written := written c ++ bytes_at m src ret;
                     calls := S (calls c) |} in
        let src' := padd src ret in
        let n' := wrap64 (n - ret) in
        if negb (n' =? 0) || again e then flush_loop fuel' m src' n' c'
        else Some c'
      else
        let c' := {| errno := e; written := written c;
                     calls := S (calls c) |} in
        if again e then flush_loop fuel' m src n c' else Some c'
  end.

(** [flush()]. *)
Definition flush (fuel : nat) (_sbuf : Strechy_Buffer.t) (m : memory)
    (c : channel) : bencode.outcome (Strechy_Buffer.t * channel) :=
  match flush_loop fuel m (Strechy_Buffer._buffer _sbuf)
          (Strechy_Buffer._length _sbuf) c with
  | Some c' => bencode.Done (Strechy_Buffer.reset _sbuf, c')
  | None => bencode.Out_of_fuel
  end.

End writer.

End Writer.

(** * Properties *)

(** ** Memory and number parsing *)

Lemma skipn_cons_tail (A : Type) (n : nat) (l : list A) (c : A) (s : list A) :
  skipn n l = c :: s -> skipn (S n) l = s.
Proof.
  revert l. induction n as [|n IH]; intros l Hl.
  - simpl in Hl. subst l. reflexivity.
  - destruct l as [|x l]; [discriminate|].
    simpl in Hl. apply IH in Hl. exact Hl.
Qed.

Lemma from_cons (m : memory) (p : ptr) (c : Z) (s : list Z) :
  from m p = c :: s ->
  load m p = c /\ from m (padd p 1) = s /\ 0 <= off p.
Proof.
  intros H. unfold load. rewrite H. unfold from in *. simpl.
  destruct (off p <? 0) eqn:Hneg; [discriminate|].
  apply Z.ltb_ge in Hneg.
  replace (off p + 1 <? 0) with false by (symmetry; apply Z.ltb_ge; lia).
  replace (Z.to_nat (off p + 1)) with (S (Z.to_nat (off p))) by lia.
  repeat split; [|exact Hneg].
  apply skipn_cons_tail with (c := c). exact H.
Qed.

Lemma padd_padd (p : ptr) (a b : Z) : padd (padd p a) b = padd p (a + b).
Proof. unfold padd. simpl. f_equal. lia. Qed.

Lemma padd_0 (p : ptr) : padd p 0 = p.
Proof. destruct p as [b o]. unfold padd. simpl. f_equal. lia. Qed.

Lemma from_app (m : memory) (p : ptr) (pre s : list Z) :
  from m p = pre ++ s ->
  from m (padd p (Z.of_nat (List.length pre))) = s.
Proof.
  revert p. induction pre as [|c pre IH]; intros p H.
  - simpl. rewrite padd_0. exact H.
  - simpl in H. apply from_cons in H as (_ & H & _).
    apply IH in H. rewrite padd_padd in H.
    replace (Z.of_nat (List.length (c :: pre)))
      with (1 + Z.of_nat (List.length pre)) by (simpl List.length; lia).
    exact H.
Qed.

Lemma digit_decimal (c : Z) :
  is_decimal c -> Genode.digit c false = c - 48.
Proof.
  intros [H1 H2]. unfold Genode.digit.
  replace (48 <=? c) with true by (symmetry; apply Z.leb_le; lia).
  replace (c <=? 57) with true by (symmetry; apply Z.leb_le; lia).
  reflexivity.
Qed.

Lemma digits_value_ge (ds : list Z) (acc : Z) :
  Forall is_decimal ds -> 0 <= acc -> acc <= digits_value acc ds.
Proof.
  revert acc. induction ds as [|c ds IH]; intros acc Hds Hacc.
  - simpl. lia.
  - inversion Hds as [|? ? Hc Hds']; subst.
    unfold digits_value in *. simpl.
    unfold is_decimal in Hc.
    specialize (IH (acc * 10 + (c - 48)) Hds'). lia.
Qed.

Lemma wrap64_small (x : Z) : 0 <= x < 2 ^ 64 -> wrap64 x = x.
Proof. intros H. unfold wrap64. apply Z.mod_small. exact H. Qed.

(** The digit loop reads a run of decimal digits exactly, as long as the
    number fits the 64-bit accumulator. *)
Lemma read_digits_decimal (ds rest : list Z) (acc i : Z) :
  Forall is_decimal ds ->
  Genode.digit (hd 0 rest) false < 0 ->
  0 <= acc ->
  digits_value acc ds < 2 ^ 64 ->
  Genode.read_digits false 10 (ds ++ rest) acc i
  = (i + Z.of_nat (List.length ds), digits_value acc ds).
Proof.
  revert acc i. induction ds as [|c ds IH]; intros acc i Hds Hrest Hacc Hfit.
  - simpl. replace (i + 0) with i by lia.
    destruct rest as [|r rest]; [reflexivity|].
    simpl in *. apply Z.ltb_lt in Hrest. rewrite Hrest. reflexivity.
  - inversion Hds as [|? ? Hc Hds']; subst.
    simpl app. simpl Genode.read_digits.
    rewrite (digit_decimal c Hc).
    assert (Hc' : 0 <= c - 48 <= 9) by (unfold is_decimal in Hc; lia).
    replace (c - 48 <? 0) with false by (symmetry; apply Z.ltb_ge; lia).
    assert (Hnext : 0 <= acc * 10 + (c - 48)) by lia.
    assert (Hle := digits_value_ge ds _ Hds' Hnext).
    change (digits_value acc (c :: ds))
      with (digits_value (acc * 10 + (c - 48)) ds) in *.
    rewrite wrap64_small by lia.
    rewrite IH by assumption.
    f_equal. simpl List.length. lia.
Qed.

(** [ascii_to_unsigned] on a non-empty run of decimal digits that is
    followed by a character that is neither a digit nor an [x]. *)
Lemma ascii_to_unsigned_decimal (ds rest : list Z) (r : Z) :
  ds <> [] ->
  Forall is_decimal ds ->
  Genode.digit (hd 0 rest) false < 0 ->
  hd 0 rest <> 120 -> hd 0 rest <> 88 ->
  digits_value 0 ds < 2 ^ 64 ->
  Genode.ascii_to_unsigned (ds ++ rest) r
  = (Z.of_nat (List.length ds), digits_value 0 ds).
Proof.
  intros Hne Hds Hrest Hx HX Hfit.
  destruct ds as [|c ds]; [congruence|].
  inversion Hds as [|? ? Hc Hds']; subst.
  assert (Hc0 : (c =? 0) = false) by (apply Z.eqb_neq; unfold is_decimal in Hc; lia).
  unfold Genode.ascii_to_unsigned. simpl app. cbv iota.
  rewrite Hc0.
  assert (Hhex : ((c =? 48) && ((hd 0 (ds ++ rest) =? 120)
                                || (hd 0 (ds ++ rest) =? 88))) = false).
  { apply andb_false_iff. right. apply orb_false_iff.
    destruct ds as [|d ds]; simpl.
    - split; apply Z.eqb_neq; assumption.
    - inversion Hds' as [|? ? Hd _]; subst. unfold is_decimal in Hd.
      split; apply Z.eqb_neq; lia. }
  rewrite Hhex.
  change (c :: ds ++ rest) with ((c :: ds) ++ rest).
  rewrite read_digits_decimal; try assumption; try lia.
  reflexivity.
Qed.

(** ** Value Decoder: natural numbers *)

(** Within the range of a [long]: an encoded negative integer,
    [i-<digits>e] with the digits denoting a number [v] such that [-v] is a
    [long] ([0 < v <= 2^63]), makes [natural()] throw [not_natural_number].
    Beyond that range the sign is lost, as the next theorem shows. *)
Theorem natural_of_negative_throws (m : memory) (o : bencode.object)
    (ds rest : list Z) :
  from m (bencode._pos o) = bencode.INTEGER :: 45 :: ds ++ bencode.REC_END :: rest ->
  ds <> [] ->
  Forall is_decimal ds ->
  0 < digits_value 0 ds <= 2 ^ 63 ->
  bencode.object_natural m o = bencode.Throw bencode.not_natural_number.
Proof.
  intros Hmem Hne Hds Hv.
  apply from_cons in Hmem as (Htype & Hrest & _).
  unfold bencode.object_natural, bencode.object_integer, bencode.validate_type.
  unfold bencode.type. rewrite Htype, Hrest. simpl bencode.bind.
  unfold Genode.ascii_to_long. simpl hd. simpl tl.
  change (45 =? 45) with true. simpl orb. cbv iota.
  rewrite ascii_to_unsigned_decimal; try assumption;
    try (simpl; unfold bencode.REC_END; lia);
    try (unfold bencode.REC_END; simpl; unfold Genode.digit; simpl; lia).
  assert (Hlen : 0 < Z.of_nat (List.length ds)).
  { destruct ds; [congruence|]. simpl List.length. lia. }
  replace (Z.of_nat (List.length ds) =? 0) with false
    by (symmetry; apply Z.eqb_neq; lia).
  cbn [bencode.bind Datatypes.fst].
  assert (Hneg : to_long (wrap64 (-1 * digits_value 0 ds)) = - digits_value 0 ds).
  { unfold to_long, wrap64. rewrite Z.mod_mod by lia.
    replace (-1 * digits_value 0 ds) with (- digits_value 0 ds) by lia.
    assert (Hmod : (- digits_value 0 ds) mod 2 ^ 64 = 2 ^ 64 - digits_value 0 ds).
    { symmetry. apply Z.mod_unique with (q := -1); lia. }
    rewrite Hmod.
    replace (2 ^ 64 - digits_value 0 ds <? 2 ^ 63) with false
      by (symmetry; apply Z.ltb_ge; lia).
    lia. }
  rewrite Hneg.
  replace (- digits_value 0 ds <? 0) with true by (symmetry; apply Z.ltb_lt; lia).
  reflexivity.
Qed.

Lemma natural_of_negative_throws_witness :
  bencode.object_natural [bytes_of_string "i-42e"]
    (bencode.object_of [bytes_of_string "i-42e"] (mkptr 0 0) 4)
  = bencode.Throw bencode.not_natural_number.
Proof.
  apply (natural_of_negative_throws _ _ [52; 50] []).
  - reflexivity.
  - discriminate.
  - repeat constructor; unfold is_decimal; lia.
  - vm_compute. split; [reflexivity | discriminate].
Defined.

(** C8, as the code has it: an encoded negative integer whose digits denote
    a number beyond the range of a [long], [2^63 < v < 2^64], is not
    rejected.  [ascii_to] computes [-v] in 64 bits, where it is the positive
    number [2^64 - v], and [natural()] returns that number. *)
Theorem natural_returns_wrapped_value (m : memory) (o : bencode.object)
    (ds rest : list Z) :
  from m (bencode._pos o) = bencode.INTEGER :: 45 :: ds ++ bencode.REC_END :: rest ->
  ds <> [] ->
  Forall is_decimal ds ->
  2 ^ 63 < digits_value 0 ds < 2 ^ 64 ->
  bencode.object_natural m o = bencode.Ok (2 ^ 64 - digits_value 0 ds).
Proof.
  intros Hmem Hne Hds Hv.
  apply from_cons in Hmem as (Htype & Hrest & _).
  unfold bencode.object_natural, bencode.object_integer, bencode.validate_type.
  unfold bencode.type. rewrite Htype, Hrest. simpl bencode.bind.
  unfold Genode.ascii_to_long. simpl hd. simpl tl.
  change (45 =? 45) with true. simpl orb. cbv iota.
  rewrite (ascii_to_unsigned_decimal ds (bencode.REC_END :: rest) 0);
    [ | assumption | assumption
      | unfold bencode.REC_END; vm_compute; reflexivity
      | unfold bencode.REC_END; simpl; lia
      | unfold bencode.REC_END; simpl; lia
      | lia ].
  assert (Hlen : 0 < Z.of_nat (List.length ds)).
  { destruct ds; [congruence|]. simpl List.length. lia. }
  replace (Z.of_nat (List.length ds) =? 0) with false
    by (symmetry; apply Z.eqb_neq; lia).
  cbn [bencode.bind Datatypes.fst].
  assert (Hwrap : to_long (wrap64 (-1 * digits_value 0 ds))
                  = 2 ^ 64 - digits_value 0 ds).
  { unfold to_long, wrap64. rewrite Z.mod_mod by lia.
    replace (-1 * digits_value 0 ds) with (- digits_value 0 ds) by lia.
    assert (Hmod : (- digits_value 0 ds) mod 2 ^ 64 = 2 ^ 64 - digits_value 0 ds).
    { symmetry. apply Z.mod_unique with (q := -1); lia. }
    rewrite Hmod.
    replace (2 ^ 64 - digits_value 0 ds <? 2 ^ 63) with true
      by (symmetry; apply Z.ltb_lt; lia).
    reflexivity. }
  rewrite Hwrap.
  replace (2 ^ 64 - digits_value 0 ds <? 0) with false
    by (symmetry; apply Z.ltb_ge; lia).
  rewrite wrap64_small by lia. reflexivity.
Qed.

Lemma natural_returns_wrapped_value_witness :
  let m := [bytes_of_string "i-9223372036854775809e"] in
  bencode.object_natural m (bencode.object_of m (mkptr 0 0) 21)
  = bencode.Ok 9223372036854775807.
Proof.
  intros m.
  apply (natural_returns_wrapped_value m (bencode.object_of m (mkptr 0 0) 21)
           (bytes_of_string "9223372036854775809") []).
  - reflexivity.
  - discriminate.
  - vm_compute. repeat constructor; intro H; discriminate H.
  - vm_compute. split; reflexivity.
Defined.

(** ** Value Decoder: typed access *)

(** What the constructor computes on a string header [<digits>:]. *)
Lemma object_at_string (m : memory) (fst lst : ptr) (ds rest : list Z) :
  from m fst = ds ++ bencode.STRING :: rest ->
  ds <> [] ->
  Forall is_decimal ds ->
  0 < digits_value 0 ds < 2 ^ 64 - 1 ->
  Z.of_nat (List.length ds) < pdiff lst fst < 2 ^ 64 ->
  bencode.object_at m fst lst
  = {| bencode._len := digits_value 0 ds + 1;
       bencode._pos := padd fst (Z.of_nat (List.length ds));
       bencode._last := lst |}.
Proof.
  intros Hmem Hne Hds Hv Hlim.
  unfold bencode.object_at. rewrite Hmem.
  rewrite ascii_to_unsigned_decimal; try assumption;
    try (unfold bencode.STRING; simpl; lia);
    try (unfold bencode.STRING, Genode.digit; simpl; lia).
  replace (digits_value 0 ds =? 0) with false by (symmetry; apply Z.eqb_neq; lia).
  rewrite !wrap64_small by lia.
  f_equal. f_equal. unfold Genode.min.
  replace (Z.of_nat (List.length ds) <? pdiff lst fst - 1) with
    (negb (pdiff lst fst - 1 <=? Z.of_nat (List.length ds)))
    by (rewrite Z.leb_antisym, negb_involutive; reflexivity).
  destruct (pdiff lst fst - 1 <=? Z.of_nat (List.length ds)) eqn:E; simpl.
  - apply Z.leb_le in E. lia.
  - reflexivity.
Qed.

(** The accessors begin with [validate_type]; [k] names the tag. *)
Ltac accessor_on_tag k :=
  unfold bencode.object_integer, bencode.object_string, bencode.object_list,
    bencode.object_dict, bencode.validate_type;
  fold k.

(** Typed access to the value at the cursor, with the cursor before the
    limit.  The byte at the cursor is the tag.  A tag that is one of the kinds
    of the decoder but not the expected one makes the accessor throw
    [unexpected_type]; a tag that is none of them makes it throw
    [invalid_buffer]; a string whose cached length exceeds [rem()] makes
    [string()] throw [invalid_buffer], in particular the string [<digits>:]
    before the limit whose declared length [n], [0 < n < 2^64 - 1], runs past
    the limit.  A cursor past the limit and a declared length of [2^64 - 1]
    are the subject of the section on strings and the limit below. *)
Theorem accessor_errors (m : memory) (o : bencode.object) :
  let k := bencode.type m o in
  (bencode.valid_kind k = true ->
     (k <> bencode.INTEGER ->
        bencode.object_integer m o = bencode.Throw bencode.unexpected_type) /\
     (k <> bencode.STRING ->
        bencode.object_string m o = bencode.Throw bencode.unexpected_type) /\
     (k <> bencode.LIST ->
        bencode.object_list m o = bencode.Throw bencode.unexpected_type) /\
     (k <> bencode.DICT ->
        bencode.object_dict m o = bencode.Throw bencode.unexpected_type)) /\
  (bencode.valid_kind k = false ->
     bencode.object_integer m o = bencode.Throw bencode.invalid_buffer /\
     bencode.object_string m o = bencode.Throw bencode.invalid_buffer /\
     bencode.object_list m o = bencode.Throw bencode.invalid_buffer /\
     bencode.object_dict m o = bencode.Throw bencode.invalid_buffer) /\
  (k = bencode.STRING -> bencode.rem o < bencode._len o ->
     bencode.object_string m o = bencode.Throw bencode.invalid_buffer) /\
  (forall (fst lst : ptr) (ds rest : list Z),
     o = bencode.object_at m fst lst ->
     from m fst = ds ++ bencode.STRING :: rest ->
     ds <> [] ->
     Forall is_decimal ds ->
     0 < digits_value 0 ds < 2 ^ 64 - 1 ->
     Z.of_nat (List.length ds) < pdiff lst fst < 2 ^ 64 ->
     off lst < off fst + Z.of_nat (List.length ds) + 1 + digits_value 0 ds ->
     bencode.object_string m o = bencode.Throw bencode.invalid_buffer).
Proof.
  intros k.
  assert (Hstr : k = bencode.STRING -> bencode.rem o < bencode._len o ->
            bencode.object_string m o = bencode.Throw bencode.invalid_buffer).
  { intros Hk Hlen. unfold bencode.object_string, bencode.validate_type.
    fold k. rewrite Hk, Z.eqb_refl. cbn [bencode.bind].
    unfold bencode.validate_len.
    replace (bencode.rem o <? bencode._len o) with true
      by (symmetry; apply Z.ltb_lt; exact Hlen).
    reflexivity. }
  split; [intros Hvalid | split; [intros Hinvalid | split; [exact Hstr|]]].
  - repeat split; intros Hne; apply Z.eqb_neq in Hne; accessor_on_tag k;
      rewrite Hne, Hvalid; reflexivity.
  - assert (Hne := Hinvalid). unfold bencode.valid_kind in Hne.
    repeat (apply orb_false_iff in Hne as [Hne ?]).
    repeat split; accessor_on_tag k; rewrite Hinvalid;
      match goal with
      | H : (k =? ?x) = false |- context [k =? ?x] => rewrite H
      end; reflexivity.
  - intros fst lst ds rest Ho Hmem Hne Hds Hv Hlim Hpast.
    pose proof (object_at_string m fst lst ds rest Hmem Hne Hds Hv Hlim) as Hobj.
    apply Hstr.
    + unfold k, bencode.type. rewrite Ho, Hobj. cbn [bencode._pos].
      apply from_app in Hmem. apply from_cons in Hmem as (Hld & _). exact Hld.
    + rewrite Ho, Hobj. unfold bencode.rem.
      cbn [bencode._pos bencode._last bencode._len].
      unfold pdiff in *. cbn [padd off]. rewrite wrap64_small by lia. lia.
Qed.

Lemma accessor_errors_witness :
  let m := [bytes_of_string "9:abce"; bytes_of_string "xyz"] in
  let o := bencode.object_at m (mkptr 0 0) (mkptr 0 5) in
  let bad := bencode.object_at m (mkptr 1 0) (mkptr 1 2) in
  bencode.object_integer m o = bencode.Throw bencode.unexpected_type
  /\ bencode.object_string m o = bencode.Throw bencode.invalid_buffer
  /\ bencode.object_list m bad = bencode.Throw bencode.invalid_buffer.
Proof.
  intros m o bad.
  destruct (accessor_errors m o) as (Hvalid & _ & _ & Hdecl).
  destruct (accessor_errors m bad) as (_ & Hinvalid & _).
  split; [|split].
  - apply Hvalid; [reflexivity | discriminate].
  - apply (Hdecl (mkptr 0 0) (mkptr 0 5) [57] (bytes_of_string "abce")).
    + reflexivity.
    + reflexivity.
    + discriminate.
    + repeat constructor; unfold is_decimal; lia.
    + vm_compute. split; reflexivity.
    + vm_compute. split; reflexivity.
    + vm_compute. reflexivity.
  - apply Hinvalid. reflexivity.
Defined.

(** ** Value Decoder: skipping nested values *)

Lemma wrap64_nonneg (x : Z) : 0 <= wrap64 x.
Proof. unfold wrap64. apply Z.mod_pos_bound. lia. Qed.

(** The constructor leaves the cursor in place when no length is there. *)
Lemma object_at_tag (m : memory) (p lst : ptr) :
  ~ is_decimal (load m p) ->
  bencode.object_at m p lst
  = {| bencode._len := 0; bencode._pos := p; bencode._last := lst |}.
Proof.
  intros Hc. unfold bencode.object_at.
  assert (Hscan : Genode.ascii_to_unsigned (from m p) 0 = (0, 0)).
  { unfold load in Hc. unfold Genode.ascii_to_unsigned.
    destruct (from m p) as [|c s]; [reflexivity|]. simpl in Hc.
    destruct (c =? 0); [reflexivity|].
    assert (Hd : Genode.digit c false = -1).
    { unfold Genode.digit, is_decimal in *.
      destruct (48 <=? c) eqn:E1; destruct (c <=? 57) eqn:E2; simpl;
        try reflexivity.
      apply Z.leb_le in E1. apply Z.leb_le in E2. lia. }
    replace (c =? 48) with false
      by (symmetry; apply Z.eqb_neq; unfold is_decimal in Hc; lia).
    simpl. rewrite Hd. reflexivity. }
  rewrite Hscan. simpl.
  assert (Hmin : Genode.min 0 (wrap64 (pdiff lst p - 1)) = 0).
  { unfold Genode.min. pose proof (wrap64_nonneg (pdiff lst p - 1)).
    destruct (0 <? wrap64 (pdiff lst p - 1)) eqn:E; [reflexivity|].
    apply Z.ltb_ge in E. lia. }
  rewrite Hmin, padd_0. reflexivity.
Qed.

Lemma nested_lists_S (n : nat) (rest : list Z) :
  nested_lists (S n) ++ rest
  = bencode.LIST :: (nested_lists n ++ bencode.REC_END :: rest).
Proof.
  unfold nested_lists.
  replace (repeat bencode.REC_END (S n))
    with (repeat bencode.REC_END n ++ [bencode.REC_END])
    by (symmetry; apply (repeat_cons n bencode.REC_END)).
  simpl. rewrite <- !app_assoc. reflexivity.
Qed.

Lemma nested_lists_length (n : nat) :
  Z.of_nat (List.length (nested_lists n)) = 2 * Z.of_nat n.
Proof.
  unfold nested_lists. rewrite length_app, !repeat_length. lia.
Qed.

(** One activation of [next] on the opening of a list. *)
Lemma next_on_list (m : memory) (p lst : ptr) (s : list Z) (stack fuel : nat) :
  from m p = bencode.LIST :: s ->
  bencode.next m (S stack) fuel (bencode.object_at m p lst)
  = bencode.and_then
      (bencode.skipall m stack fuel (bencode.object_at m (padd p 1) lst))
      (fun e =>
         bencode.Done
           (bencode.Ok
              (bencode.object_at m (padd p (wrap64 (pdiff e p))) lst))).
Proof.
  intros Hmem. apply from_cons in Hmem as (Hld & _ & _).
  rewrite (object_at_tag m p lst)
    by (rewrite Hld; unfold is_decimal, bencode.LIST; lia).
  cbn [bencode.next bencode.base bencode.Node_list bencode._len
       bencode._pos bencode._last bencode.construct].
  unfold bencode.type. cbn [bencode._pos]. rewrite Hld.
  reflexivity.
Qed.

Lemma skipall_S (m : memory) (stack fuel : nat) (l : bencode.object) :
  bencode.skipall m (S stack) fuel l
  = bencode.skipall_loop m (bencode.next m stack fuel) fuel l.
Proof. reflexivity. Qed.

Lemma skipall_loop_S (m : memory)
    (nxt : bencode.object -> bencode.outcome (bencode.result bencode.object))
    (n : nat) (l : bencode.object) :
  bencode.skipall_loop m nxt (S n) l
  = if bencode.type m l =? bencode.REC_END
    then bencode.Done (bencode.Ok (padd (bencode._pos l) 1))
    else bencode.and_then (nxt l)
           (fun l' => bencode.skipall_loop m nxt n l').
Proof. reflexivity. Qed.

(** Skipping [n] nested lists takes [2 * n] nested activations: with fewer
    the stack is exhausted. *)
Lemma next_nested_exhausted (m : memory) (lst : ptr) (fuel : nat) :
  (1 <= fuel)%nat ->
  forall (n : nat) (p : ptr) (rest : list Z) (stack : nat),
    from m p = nested_lists n ++ rest ->
    (stack < 2 * n)%nat ->
    bencode.next m stack fuel (bencode.object_at m p lst)
    = bencode.Stack_exhausted.
Proof.
  intros Hfuel. induction n as [|n IH]; intros p rest stack Hmem Hstack.
  - lia.
  - destruct stack as [|stack]; [reflexivity|].
    rewrite nested_lists_S in Hmem.
    rewrite (next_on_list m p lst _ stack fuel Hmem).
    apply from_cons in Hmem as (_ & Hmem & _).
    destruct stack as [|stack]; [reflexivity|].
    rewrite skipall_S.
    destruct fuel as [|fuel]; [lia|].
    rewrite skipall_loop_S.
    destruct n as [|n]; [lia|].
    rewrite (IH (padd p 1) (bencode.REC_END :: rest) stack Hmem) by lia.
    rewrite nested_lists_S in Hmem. apply from_cons in Hmem as (Hld & _ & _).
    rewrite (object_at_tag m (padd p 1) lst)
      by (rewrite Hld; unfold is_decimal, bencode.LIST; lia).
    unfold bencode.type. cbn [bencode._pos]. rewrite Hld. reflexivity.
Qed.

(** With [2 * n] activations and two iterations per loop the skip ends on
    the byte after the value. *)
Lemma next_nested_done (m : memory) (lst : ptr) (fuel : nat) :
  (2 <= fuel)%nat ->
  forall (n : nat) (p : ptr) (rest : list Z) (stack : nat),
    (1 <= n)%nat ->
    2 * Z.of_nat n < 2 ^ 64 ->
    from m p = nested_lists n ++ rest ->
    (2 * n <= stack)%nat ->
    bencode.next m stack fuel (bencode.object_at m p lst)
    = bencode.Done
        (bencode.Ok (bencode.object_at m (padd p (2 * Z.of_nat n)) lst)).
Proof.
  intros Hfuel. induction n as [|n IH]; intros p rest stack Hn Hsmall Hmem Hstack.
  - lia.
  - destruct stack as [|[|stack]]; try lia.
    rewrite nested_lists_S in Hmem.
    rewrite (next_on_list m p lst _ (S stack) fuel Hmem).
    apply from_cons in Hmem as (_ & Hmem & _).
    rewrite skipall_S.
    destruct fuel as [|[|fuel]]; try lia.
    assert (Hend : forall q k, from m q = bencode.REC_END :: rest ->
              bencode.skipall_loop m (bencode.next m stack (S (S fuel))) (S k)
                (bencode.object_at m q lst)
              = bencode.Done (bencode.Ok (padd q 1))).
    { intros q k Hq. apply from_cons in Hq as (Hld & _ & _).
      rewrite (object_at_tag m q lst)
        by (rewrite Hld; unfold is_decimal, bencode.REC_END; lia).
      rewrite skipall_loop_S.
      unfold bencode.type. cbn [bencode._pos]. rewrite Hld. reflexivity. }
    destruct n as [|n].
    + simpl in Hmem. rewrite (Hend _ _ Hmem).
      cbn [bencode.and_then]. unfold pdiff. cbn [padd off].
      replace (off p + 1 + 1 - off p) with 2 by lia.
      reflexivity.
    + assert (Hin := Hmem).
      rewrite nested_lists_S in Hin. apply from_cons in Hin as (Hld & _ & _).
      rewrite skipall_loop_S.
      rewrite (IH (padd p 1) (bencode.REC_END :: rest) stack) by (assumption || lia).
      rewrite (object_at_tag m (padd p 1) lst)
        by (rewrite Hld; unfold is_decimal, bencode.LIST; lia).
      unfold bencode.type at 1. cbn [bencode._pos]. rewrite Hld.
      change (bencode.LIST =? bencode.REC_END) with false.
      cbn [bencode.and_then]. cbv iota.
      apply from_app in Hmem. rewrite nested_lists_length, padd_padd in Hmem.
      rewrite padd_padd.
      rewrite (Hend _ _ Hmem).
      cbn [bencode.and_then]. unfold pdiff. cbn [padd off].
      rewrite wrap64_small by lia.
      f_equal. f_equal. f_equal. f_equal. lia.
Qed.

(** C5, as the code has it.  [next()] skips a nested value by the mutual
    recursion of [next()] and [skipall()]: skipping [n] lists nested in one
    another ends on the byte after them exactly when the call stack admits
    [2 * n] nested activations, and exhausts the stack otherwise.  Only the
    elements of one level are walked by a loop. *)
Theorem next_depth_grows_with_nesting (m : memory) (p lst : ptr)
    (n stack fuel : nat) (rest : list Z) :
  (1 <= n)%nat ->
  2 * Z.of_nat n < 2 ^ 64 ->
  (2 <= fuel)%nat ->
  from m p = nested_lists n ++ rest ->
  bencode.next m stack fuel (bencode.object_at m p lst)
  = if (2 * n <=? stack)%nat
    then bencode.Done
           (bencode.Ok (bencode.object_at m (padd p (2 * Z.of_nat n)) lst))
    else bencode.Stack_exhausted.
Proof.
  intros Hn Hsmall Hfuel Hmem.
  destruct (2 * n <=? stack)%nat eqn:E.
  - apply Nat.leb_le in E.
    apply (next_nested_done m lst fuel Hfuel n p rest stack); assumption.
  - apply Nat.leb_gt in E.
    apply (next_nested_exhausted m lst fuel ltac:(lia) n p rest stack); assumption.
Qed.

Lemma next_depth_grows_with_nesting_witness :
  let m := [bytes_of_string "llleee"] in
  bencode.next m 6 2 (bencode.object_at m (mkptr 0 0) (mkptr 0 5))
  = bencode.Done (bencode.Ok (bencode.object_at m (mkptr 0 6) (mkptr 0 5)))
  /\ bencode.next m 5 2 (bencode.object_at m (mkptr 0 0) (mkptr 0 5))
     = bencode.Stack_exhausted.
Proof.
  intros m. split.
  - apply (next_depth_grows_with_nesting m (mkptr 0 0) (mkptr 0 5) 3 6 2 []);
      [lia | vm_compute; reflexivity | lia | reflexivity].
  - apply (next_depth_grows_with_nesting m (mkptr 0 0) (mkptr 0 5) 3 5 2 []);
      [lia | vm_compute; reflexivity | lia | reflexivity].
Defined.

(** C5, as the design document has it, does not hold: no constant bounds
    the nested activations that a skip needs. *)
Lemma skip_depth_unbounded : ~ exists B : nat, skip_depth_bounded B.
Proof.
  intros [B HB].
  apply (HB [nested_lists (S B)] 1%nat
            (bencode.object_at [nested_lists (S B)] (mkptr 0 0) (mkptr 0 0))).
  apply (next_nested_exhausted _ _ 1%nat (le_n 1) (S B) (mkptr 0 0) []).
  - unfold from, block_of. simpl. rewrite app_nil_r. reflexivity.
  - lia.
Qed.

(** ** Value Decoder: strings and the limit *)

(** What the constructor computes on a string header [<digits>:] that lies
    at or past the limit: the distance to the limit wraps in [size_t], so
    the cursor moves past the digits all the same. *)
Lemma object_at_string_past_limit (m : memory) (fst lst : ptr)
    (ds rest : list Z) :
  from m fst = ds ++ bencode.STRING :: rest ->
  ds <> [] ->
  Forall is_decimal ds ->
  0 < digits_value 0 ds < 2 ^ 64 - 1 ->
  off lst <= off fst < off lst + 2 ^ 63 ->
  Z.of_nat (List.length ds) < 2 ^ 63 ->
  bencode.object_at m fst lst
  = {| bencode._len := digits_value 0 ds + 1;
       bencode._pos := padd fst (Z.of_nat (List.length ds));
       bencode._last := lst |}.
Proof.
  intros Hmem Hne Hds Hv Hpast Hlen.
  unfold bencode.object_at. rewrite Hmem.
  rewrite ascii_to_unsigned_decimal; try assumption;
    try (unfold bencode.STRING; simpl; lia);
    try (unfold bencode.STRING, Genode.digit; simpl; lia).
  replace (digits_value 0 ds =? 0) with false by (symmetry; apply Z.eqb_neq; lia).
  rewrite (wrap64_small (digits_value 0 ds + 1)) by lia.
  assert (Hwrap : wrap64 (pdiff lst fst - 1) = 2 ^ 64 + (off lst - off fst) - 1).
  { unfold wrap64, pdiff. symmetry. apply Z.mod_unique with (q := -1); lia. }
  rewrite Hwrap. f_equal. f_equal. unfold Genode.min.
  replace (Z.of_nat (List.length ds) <? 2 ^ 64 + (off lst - off fst) - 1)
    with true by (symmetry; apply Z.ltb_lt; lia).
  reflexivity.
Qed.

(** [next()] on a list node whose length is cached. *)
Lemma next_with_cached_length (m : memory) (stack fuel : nat)
    (o : bencode.object) :
  bencode._len o <> 0 ->
  bencode.next m (S stack) fuel o
  = bencode.Done
      (bencode.Ok (bencode.object_at m (bencode.object_end o) (bencode._last o))).
Proof.
  intros H. apply Z.eqb_neq in H.
  simpl. rewrite H. reflexivity.
Qed.

(** C7, as the code has it: a string past the limit is accepted.  A string
    whose declared length runs past the limit makes [string()] throw on the
    string itself, but [next()] steps over it without a look at the limit,
    to a cursor past the limit.  There the number of bytes left,
    [_last - _pos], is negative and wraps in [size_t]; [validate_len] passes,
    and [string()] returns a view of bytes that all lie past the limit. *)
Theorem string_past_limit_accepted (m : memory) (fst lst : ptr)
    (ds rest ds2 rest2 : list Z) (stack fuel : nat) :
  from m fst = ds ++ bencode.STRING :: rest ->
  ds <> [] -> Forall is_decimal ds ->
  0 < digits_value 0 ds < 2 ^ 62 ->
  Z.of_nat (List.length ds) < pdiff lst fst < 2 ^ 62 ->
  off lst < off fst + Z.of_nat (List.length ds) + 1 + digits_value 0 ds ->
  let q := padd fst (Z.of_nat (List.length ds) + 1 + digits_value 0 ds) in
  from m q = ds2 ++ bencode.STRING :: rest2 ->
  ds2 <> [] -> Forall is_decimal ds2 ->
  0 < digits_value 0 ds2 < 2 ^ 62 ->
  Z.of_nat (List.length ds2) < 2 ^ 62 ->
  let s := {| Strview.start := padd q (Z.of_nat (List.length ds2) + 1);
              Strview.length := digits_value 0 ds2 |} in
  bencode.object_string m (bencode.object_at m fst lst)
  = bencode.Throw bencode.invalid_buffer
  /\ bencode.next m (S stack) fuel (bencode.object_at m fst lst)
     = bencode.Done (bencode.Ok (bencode.object_at m q lst))
  /\ bencode.object_string m (bencode.object_at m q lst) = bencode.Ok s
  /\ off lst < off (Strview.start s).
Proof.
  intros Hmem Hne Hds Hv Hlim Hrun q Hmem2 Hne2 Hds2 Hv2 Hlen2 s.
  pose proof (object_at_string m fst lst ds rest Hmem Hne Hds
                ltac:(lia) ltac:(lia)) as Hobj.
  pose proof Hmem as Hcolon. apply from_app in Hcolon.
  apply from_cons in Hcolon as (Hcolon & _ & Hoff).
  assert (Hq : off lst < off q) by (unfold q; cbn [padd off]; lia).
  assert (Hq' : off q < off lst + 2 ^ 63).
  { unfold q, pdiff in *. cbn [padd off]. lia. }
  pose proof (object_at_string_past_limit m q lst ds2 rest2 Hmem2 Hne2 Hds2
                ltac:(lia) ltac:(lia) ltac:(lia)) as Hobj2.
  pose proof Hmem2 as Hcolon2. apply from_app in Hcolon2.
  apply from_cons in Hcolon2 as (Hcolon2 & _ & _).
  split; [|split; [|split]].
  - rewrite Hobj.
    unfold bencode.object_string, bencode.validate_type, bencode.type.
    cbn [bencode._pos bencode._len bencode._last].
    rewrite Hcolon, Z.eqb_refl. cbn [bencode.bind].
    unfold bencode.validate_len, bencode.rem, pdiff in *.
    cbn [bencode._pos bencode._last bencode._len padd off].
    rewrite wrap64_small by lia.
    replace (off lst - (off fst + Z.of_nat (List.length ds))
             <? digits_value 0 ds + 1) with true
      by (symmetry; apply Z.ltb_lt; lia).
    reflexivity.
  - rewrite next_with_cached_length
      by (rewrite Hobj; cbn [bencode._len]; lia).
    rewrite Hobj. unfold bencode.object_end.
    cbn [bencode._pos bencode._len bencode._last].
    rewrite padd_padd.
    replace (Z.of_nat (List.length ds) + (digits_value 0 ds + 1))
      with (Z.of_nat (List.length ds) + 1 + digits_value 0 ds) by lia.
    reflexivity.
  - rewrite Hobj2.
    unfold bencode.object_string, bencode.validate_type, bencode.type.
    cbn [bencode._pos bencode._len bencode._last].
    rewrite Hcolon2, Z.eqb_refl. cbn [bencode.bind].
    unfold bencode.validate_len, bencode.rem, pdiff.
    cbn [bencode._pos bencode._last bencode._len padd off].
    assert (Hrem : wrap64 (off lst - (off q + Z.of_nat (List.length ds2)))
                   = 2 ^ 64 + (off lst - (off q + Z.of_nat (List.length ds2)))).
    { unfold wrap64. symmetry. apply Z.mod_unique with (q := -1); lia. }
    rewrite Hrem.
    replace (2 ^ 64 + (off lst - (off q + Z.of_nat (List.length ds2)))
             <? digits_value 0 ds2 + 1) with false
      by (symmetry; apply Z.ltb_ge; lia).
    cbn [bencode.bind].
    replace (digits_value 0 ds2 + 1 =? 0) with false
      by (symmetry; apply Z.eqb_neq; lia).
    unfold s. rewrite padd_padd. do 2 f_equal. lia.
  - unfold s. cbn [Strview.start padd off]. lia.
Qed.

Lemma string_past_limit_accepted_witness :
  let m := [bytes_of_string "l9:abXXXXXXX5:hello"] in
  let lst := bencode.object_at m (mkptr 0 1) (mkptr 0 4) in
  bencode.object_string m lst = bencode.Throw bencode.invalid_buffer
  /\ bencode.next m 1 0 lst
     = bencode.Done (bencode.Ok (bencode.object_at m (mkptr 0 12) (mkptr 0 4)))
  /\ bencode.object_string m (bencode.object_at m (mkptr 0 12) (mkptr 0 4))
     = bencode.Ok {| Strview.start := mkptr 0 14; Strview.length := 5 |}
  /\ Strview.content m {| Strview.start := mkptr 0 14; Strview.length := 5 |}
     = bytes_of_string "hello".
Proof.
  intros m lst.
  destruct (string_past_limit_accepted m (mkptr 0 1) (mkptr 0 4) [57]
              (bytes_of_string "abXXXXXXX5:hello") [53]
              (bytes_of_string "hello") 0 0)
    as (H1 & H2 & H3 & _).
  - reflexivity.
  - discriminate.
  - repeat constructor; unfold is_decimal; lia.
  - vm_compute. split; reflexivity.
  - vm_compute. split; reflexivity.
  - vm_compute. reflexivity.
  - reflexivity.
  - discriminate.
  - repeat constructor; unfold is_decimal; lia.
  - vm_compute. split; reflexivity.
  - vm_compute. reflexivity.
  - split; [exact H1|]. split; [exact H2|]. split; [exact H3 | reflexivity].
Defined.

(** A declared length of [2^64 - 1] is accepted too: the increment for the
    colon wraps the cached length to 0, the length of no string, and
    [string()] returns an empty view. *)
Lemma string_of_wrapping_length (m : memory) (fst lst : ptr)
    (ds rest : list Z) :
  from m fst = ds ++ bencode.STRING :: rest ->
  ds <> [] -> Forall is_decimal ds ->
  digits_value 0 ds = 2 ^ 64 - 1 ->
  Z.of_nat (List.length ds) < pdiff lst fst < 2 ^ 64 ->
  bencode.object_string m (bencode.object_at m fst lst)
  = bencode.Ok
      {| Strview.start := padd fst (Z.of_nat (List.length ds) + 1);
         Strview.length := 0 |}.
Proof.
  intros Hmem Hne Hds Hv Hlim.
  pose proof Hmem as Hcolon. apply from_app in Hcolon.
  apply from_cons in Hcolon as (Hcolon & _ & _).
  unfold bencode.object_at. rewrite Hmem.
  rewrite ascii_to_unsigned_decimal; try assumption;
    try (unfold bencode.STRING; simpl; lia);
    try (unfold bencode.STRING, Genode.digit; simpl; lia).
  rewrite Hv. change (2 ^ 64 - 1 =? 0) with false.
  change (wrap64 (2 ^ 64 - 1 + 1)) with 0. cbv iota.
  assert (Hmin : Genode.min (Z.of_nat (List.length ds))
                   (wrap64 (pdiff lst fst - 1))
                 = Z.of_nat (List.length ds)).
  { unfold Genode.min. rewrite wrap64_small by lia.
    replace (Z.of_nat (List.length ds) <? pdiff lst fst - 1)
      with (negb (pdiff lst fst - 1 <=? Z.of_nat (List.length ds)))
      by (rewrite Z.leb_antisym, negb_involutive; reflexivity).
    destruct (pdiff lst fst - 1 <=? Z.of_nat (List.length ds)) eqn:E;
      [|reflexivity].
    apply Z.leb_le in E. cbn [negb]. lia. }
  rewrite Hmin.
  unfold bencode.object_string, bencode.validate_type, bencode.type.
  cbn [bencode._pos bencode._len bencode._last].
  rewrite Hcolon, Z.eqb_refl. cbn [bencode.bind].
  unfold bencode.validate_len, bencode.rem.
  cbn [bencode._pos bencode._last bencode._len].
  pose proof (wrap64_nonneg
                (pdiff lst (padd fst (Z.of_nat (List.length ds))))) as Hrem.
  replace (wrap64 (pdiff lst (padd fst (Z.of_nat (List.length ds)))) <? 0)
    with false by (symmetry; apply Z.ltb_ge; exact Hrem).
  cbn [bencode.bind]. rewrite padd_padd. reflexivity.
Qed.

(** The string [18446744073709551615:abc]. *)
Lemma string_of_wrapping_length_example :
  let m := [bytes_of_string "18446744073709551615:abc"] in
  bencode.object_string m (bencode.object_at m (mkptr 0 0) (mkptr 0 24))
  = bencode.Ok {| Strview.start := mkptr 0 21; Strview.length := 0 |}.
Proof.
  intros m.
  apply (string_of_wrapping_length m (mkptr 0 0) (mkptr 0 24)
           (bytes_of_string "18446744073709551615") (bytes_of_string "abc")).
  - reflexivity.
  - discriminate.
  - vm_compute. repeat constructor; intro H; discriminate H.
  - vm_compute. reflexivity.
  - vm_compute. split; reflexivity.
Defined.

(** ** Dispatcher *)

(** [memcmp] is 0 on ranges that hold the same bytes. *)
Lemma memcmp_loop_equal (m : memory) (n : nat) (p q : ptr) :
  (forall i : nat, (i < n)%nat ->
     load m (padd p (Z.of_nat i)) = load m (padd q (Z.of_nat i))) ->
  Genode.memcmp_loop m p q n = 0.
Proof.
  revert p q. induction n as [|n IH]; intros p q Heq; [reflexivity|].
  simpl. pose proof (Heq 0%nat ltac:(lia)) as H0. simpl in H0.
  rewrite !padd_0 in H0. rewrite H0, Z.eqb_refl.
  apply IH. intros i Hi. specialize (Heq (S i) ltac:(lia)).
  rewrite !padd_padd.
  replace (1 + Z.of_nat i) with (Z.of_nat (S i)) by lia. exact Heq.
Qed.

(** [strview::cmp] is 0 as soon as the two views agree on the shorter of
    their lengths, so [search] stops on a key of which the name is a prefix
    or which is a prefix of the name. *)
Lemma search_stops_on_prefix (T : Type) (m : memory) (l r : Mapping.tree T)
    (key name : strview) (value : T) :
  (forall i : nat,
     Z.of_nat i < Genode.min (Strview.length key) (Strview.length name) ->
     load m (padd (Strview.start key) (Z.of_nat i))
     = load m (padd (Strview.start name) (Z.of_nat i))) ->
  Mapping.search m (Mapping.Node l key value r) name = Some (key, value).
Proof.
  intros Heq. simpl. unfold Strview.ne, Strview.cmp, Genode.memcmp.
  rewrite memcmp_loop_equal.
  - simpl. rewrite andb_false_r. reflexivity.
  - intros i Hi. apply Heq. lia.
Qed.

(** C6, as the code has it: a message named [ping_echo] is handed to the
    callback registered as [ping], and the default callback is not called;
    the names differ in length, and [strview::cmp] compares four bytes. *)
Theorem dispatch_calls_handler_of_prefix (T St : Type)
    (call : Proto_Map.invocation T -> St -> bencode.outcome (St * bencode.result unit))
    (handler : T) (st : St) :
  let m := [[]; static_data; bytes_of_string "l9:ping_echoi7ee"] in
  let raw := {| Strview.start := mkptr 2 0; Strview.length := 16 |} in
  let name := {| Strview.start := mkptr 2 3; Strview.length := 9 |} in
  let ent := bencode.object_at m (mkptr 2 12) (mkptr 2 15) in
  Strview.content m name = bytes_of_string "ping_echo"
  /\ Strview.content m lit_ping = bytes_of_string "ping"
  /\ Proto_Map.dispatch_name T m (ping_table handler) name ent
     = Proto_Map.To_target handler ent
  /\ Proto_Map.dispatch T St call m 2 2 (ping_table handler) raw st
     = match call (Proto_Map.To_target handler ent) st with
       | bencode.Done (st', bencode.Ok _) => bencode.Done (true, st')
       | bencode.Done (st', bencode.Throw _) => bencode.Done (false, st')
       | bencode.Stack_exhausted => bencode.Stack_exhausted
       | bencode.Out_of_fuel => bencode.Out_of_fuel
       | bencode.Division_by_zero => bencode.Division_by_zero
       end.
Proof.
  intros m raw name ent. repeat split; reflexivity.
Qed.

(** ** Growable Buffer *)

(** [_resize] never lowers the capacity. *)
Lemma resize_never_shrinks (alloc_ok : Z -> bool) (b b' : Strechy_Buffer.t)
    (m m' : memory) (newcap : Z) (p : ptr) :
  Strechy_Buffer._resize alloc_ok b m newcap = bencode.Ok (p, b', m') ->
  Strechy_Buffer._capacity b <= Strechy_Buffer._capacity b'.
Proof.
  unfold Strechy_Buffer._resize.
  destruct (newcap <=? Strechy_Buffer._capacity b) eqn:E.
  - intros H. injection H as _ <- _. lia.
  - destruct (alloc_ok newcap); [|discriminate].
    intros H. simpl in H. injection H as _ <- _. simpl.
    apply Z.leb_gt in E. lia.
Qed.

(** No [reserve_reset] lowers the capacity, whatever the count of small
    requests. *)
Lemma reserve_reset_never_shrinks (alloc_ok : Z -> bool)
    (b b' : Strechy_Buffer.t) (m m' : memory) (request : Z) (p : ptr) :
  Strechy_Buffer.reserve_reset alloc_ok b m request 1
  = bencode.Done (bencode.Ok (p, b', m')) ->
  Strechy_Buffer._capacity b <= Strechy_Buffer._capacity b'.
Proof.
  unfold Strechy_Buffer.reserve_reset.
  destruct (Strechy_Buffer.calculate_reservation (Strechy_Buffer.reset b)
              (wrap64 (request * 1))) as [[newcap b1]|] eqn:Hcalc;
    [|discriminate].
  intros H. injection H as H. apply resize_never_shrinks in H.
  assert (Hcap : Strechy_Buffer._capacity b1 = Strechy_Buffer._capacity b).
  { unfold Strechy_Buffer.calculate_reservation in Hcalc.
    repeat match type of Hcalc with
           | context [if ?c then _ else _] => destruct c
           | context [match ?c with Some _ => _ | None => _ end] => destruct c
           end; try discriminate; injection Hcalc as _ <-; reflexivity. }
  lia.
Qed.

(** The counter of small requests: one more for a request under a quarter
    of the capacity, and back to 0 for any other. *)
Lemma calculate_reservation_counts (b b' : Strechy_Buffer.t)
    (request newcap : Z) :
  Strechy_Buffer.calculate_reservation b request = Some (newcap, b') ->
  Strechy_Buffer._consecutive_small_requests b'
  = if request <? Strechy_Buffer._capacity b / 4
    then wrap64 (Strechy_Buffer._consecutive_small_requests b + 1)
    else 0.
Proof.
  unfold Strechy_Buffer.calculate_reservation. intros H.
  destruct (Strechy_Buffer._capacity b <? request).
  - destruct (Strechy_Buffer.double_until _ _ _); [|discriminate].
    injection H as _ <-. reflexivity.
  - destruct (8 <? _); injection H as _ <-; reflexivity.
Qed.

(** C4, as the code has it: nine consecutive [reserve_reset] requests of 8
    bytes, each under a quarter of the capacity of 512, leave the capacity
    at 512 with the counter at 9; the capacity is not halved. *)
Theorem nine_small_requests_keep_capacity (alloc_ok : Z -> bool) (m : memory) :
  let '(b, m0) := Strechy_Buffer.make m 512 in
  reserve_resets alloc_ok (repeat 8 9%nat) b m0
  = Some ({| Strechy_Buffer._capacity := 512;
             Strechy_Buffer._length := 0;
             Strechy_Buffer._buffer := Strechy_Buffer._buffer b;
             Strechy_Buffer._consecutive_small_requests := 9 |}, m0).
Proof. reflexivity. Qed.

(** ** Frame Assembler: a payload of eight bytes *)

(** C2, as the code has it: the payload [l4:pinge] of a primary frame,
    eight bytes long, is read as a header.  Whatever the dispatcher is, it
    is not called; the client waits for the 1768843109 bytes that the bytes
    [inge] announce. *)
Theorem payload_of_8_bytes_read_as_header
    (dispatch : Client -> strview -> bencode.outcome (bool * Client)) :
  feed always_ok dispatch 2 (frame_header 0 8 ++ bytes_of_string "l4:pinge")
    Client_init
  = bencode.Done (bencode.Ok after_8_byte_payload).
Proof. reflexivity. Qed.

(** The test of [_on_ready] for a header looks at the length only: with a
    length of 8 no dispatcher is consulted, whatever was read before. *)
Lemma on_ready_8_ignores_dispatch (alloc_ok : Z -> bool)
    (d1 d2 : Client -> strview -> bencode.outcome (bool * Client))
    (buf : ptr) (st : Client) :
  _on_ready alloc_ok d1 Header.size buf st
  = _on_ready alloc_ok d2 Header.size buf st.
Proof. reflexivity. Qed.

(** ** Draw handler *)

Section draw.

Variable alloc_ok : Z -> bool.
Variable LZ4_decompress_safe : memory -> ptr -> Z -> Z -> Z * list Z.
Variable uncompress : memory -> ptr -> Z -> Z -> Z * Z * list Z.
Variable rgba : Z -> Z -> Z -> list Z.
Variables stack fuel : nat.

Lemma expected_size_range (h stride expected : Z) :
  0 < h <= INT_MAX -> 0 <= stride ->
  expected_size h stride = Some expected ->
  expected = Genode.min (INT_MAX / h) stride * h /\ 0 <= expected <= INT_MAX.
Proof.
  intros Hh Hs. unfold expected_size.
  replace (h =? 0) with false by (symmetry; apply Z.eqb_neq; lia).
  intros H. injection H as <-.
  assert (Hq : 0 <= INT_MAX / h) by (apply Z.div_pos; unfold INT_MAX in *; lia).
  assert (Hqh : INT_MAX / h * h <= INT_MAX)
    by (rewrite Z.mul_comm; apply Z.mul_div_le; lia).
  assert (Hmin : 0 <= Genode.min (INT_MAX / h) stride <= INT_MAX / h).
  { unfold Genode.min. destruct (INT_MAX / h <? stride) eqn:E.
    - lia.
    - apply Z.ltb_ge in E. lia. }
  assert (Hprod : 0 <= Genode.min (INT_MAX / h) stride * h <= INT_MAX) by nia.
  unfold to_int, wrap32. unfold INT_MAX in *.
  rewrite Z.mod_mod by lia. rewrite Z.mod_small by lia.
  replace (Genode.min ((2 ^ 31 - 1) / h) stride * h <? 2 ^ 31) with true
    by (symmetry; apply Z.ltb_lt; lia).
  split; [reflexivity | lia].
Qed.

(** C9.  The expected size of the payload is [min(INT_MAX/h, stride) * h];
    it is defined exactly when the height is not 0, and lies between 0 and
    [INT_MAX] then.  A draw message with a height of 0 that comes with pixel
    data divides by zero, whatever the codec hint, the format and the
    decompressors are: no codec is selected and no size is checked before. *)
Theorem draw_height_0_divides_by_zero :
  (forall h stride : Z, expected_size h stride = None <-> h = 0)
  /\ (forall h stride expected : Z,
        0 < h <= INT_MAX -> 0 <= stride ->
        expected_size h stride = Some expected ->
        expected = Genode.min (INT_MAX / h) stride * h
        /\ 0 <= expected <= INT_MAX)
  /\ (forall (st : Client) (id x y w : Z) (format blob : strview)
             (seq_id stride : Z) (config : option bencode.bdict),
        draw_data st blob <> None ->
        draw_decoded alloc_ok LZ4_decompress_safe uncompress rgba stack fuel
          st id x y w 0 format blob seq_id stride config
        = bencode.Division_by_zero).
Proof.
  split; [|split].
  - intros h stride. unfold expected_size.
    destruct (h =? 0) eqn:E.
    + apply Z.eqb_eq in E. tauto.
    + apply Z.eqb_neq in E. split; [discriminate | tauto].
  - apply expected_size_range.
  - intros st id x y w format blob seq_id stride config Hdata.
    unfold draw_decoded, draw_body.
    destruct (draw_data st blob); [reflexivity | congruence].
Qed.

(** C10.  On the LZ4 path only the expected size is compared with the four
    bytes of the prefix.  When the raw input has fewer than four bytes the
    subtraction [len -= header_len] wraps to [2^64 + length - 4], and that
    length, converted to the [int] parameter (where it is the negative
    [length - 4]), is what [LZ4_decompress_safe] is called with. *)
Theorem lz4_short_input_wraps (st : Client) (id x y w h : Z)
    (format blob data : strview) (stride : Z)
    (config : option bencode.bdict) (expected : Z) (decompressed : ptr)
    (px : Strechy_Buffer.t) (m : memory) :
  draw_data st blob = Some data ->
  0 <= Strview.length data < 4 ->
  expected_size h stride = Some expected ->
  4 <= expected ->
  Strechy_Buffer.reserve_reset alloc_ok (_pxlbuf st) (mem st) expected 1
  = bencode.Done (bencode.Ok (decompressed, px, m)) ->
  lz4_selected stack fuel m config = bencode.Done (bencode.Ok true) ->
  let len := 2 ^ 64 + Strview.length data - 4 in
  let src := padd (Strview.start data) 4 in
  wrap64 (Strview.length data - 4) = len
  /\ to_int len = Strview.length data - 4
  /\ exists (ret : Z) (written : list Z),
       LZ4_decompress_safe m src (to_int len) expected = (ret, written)
       /\ draw_body alloc_ok LZ4_decompress_safe uncompress rgba stack fuel
            st id x y w h format blob stride config
          = draw_paint alloc_ok rgba
              (emit (with_mem (with_pxlbuf st px m) (store m decompressed written))
                 (Called_lz4 src len (to_int len) expected))
              (if expected =? ret then None
               else Some (Lz4_malformed expected ret))
              id x y w h stride expected format decompressed.
Proof.
  intros Hdata Hlen Hexp Hbig Hres Hlz4 len src.
  assert (Hwrap : wrap64 (Strview.length data - 4) = len).
  { unfold wrap64, len. symmetry.
    apply Z.mod_unique with (q := -1); lia. }
  split; [exact Hwrap|].
  split.
  { unfold to_int, wrap32, len. cbv zeta.
    assert (Hmod : (2 ^ 64 + Strview.length data - 4) mod 2 ^ 32
                   = 2 ^ 32 + Strview.length data - 4).
    { symmetry. apply Z.mod_unique with (q := 2 ^ 32 - 1); lia. }
    rewrite Hmod.
    replace (2 ^ 32 + Strview.length data - 4 <? 2 ^ 31) with false
      by (symmetry; apply Z.ltb_ge; lia).
    lia. }
  destruct (LZ4_decompress_safe m src (to_int len) expected)
    as [ret written] eqn:Hcall.
  exists ret, written. split; [reflexivity|].
  unfold draw_body. rewrite Hdata, Hexp, Hres. cbn [draw_step].
  change (mem (with_pxlbuf st px m)) with m.
  rewrite Hlz4. cbn [draw_step].
  replace (expected <? 4) with false by (symmetry; apply Z.ltb_ge; lia).
  rewrite Hwrap. fold src. rewrite Hcall. reflexivity.
Qed.

Lemma find_window_painted (ws : list Window) (id : Z) (w0 : Window)
    (r : region) :
  find_window ws id = Some w0 ->
  find_window (paint_window ws id r) id
  = Some (mkwindow (wid w0) (r :: painted w0)).
Proof.
  unfold find_window. induction ws as [|w ws IH]; intros H; [discriminate|].
  simpl in *. destruct (wid w =? id) eqn:E.
  - injection H as <-. simpl. rewrite E. reflexivity.
  - simpl. rewrite E. apply IH. exact H.
Qed.

(** C1, as the code has it: when [LZ4_decompress_safe] returns anything
    but the expected size, the error is recorded and a refresh is requested,
    but the handler goes on: for the format [rgb32] the region is painted on
    the window from the pixel buffer all the same. *)
Theorem lz4_failure_still_paints (st : Client) (id x y w h : Z)
    (format blob data : strview) (seq_id stride : Z)
    (config : option bencode.bdict) (expected : Z) (decompressed : ptr)
    (px : Strechy_Buffer.t) (m : memory) (ret : Z) (written : list Z)
    (w0 : Window) :
  draw_data st blob = Some data ->
  expected_size h stride = Some expected ->
  4 <= expected ->
  Strechy_Buffer.reserve_reset alloc_ok (_pxlbuf st) (mem st) expected 1
  = bencode.Done (bencode.Ok (decompressed, px, m)) ->
  lz4_selected stack fuel m config = bencode.Done (bencode.Ok true) ->
  LZ4_decompress_safe m (padd (Strview.start data) 4)
    (to_int (wrap64 (Strview.length data - 4))) expected = (ret, written) ->
  ret <> expected ->
  Strview.eq (store m decompressed written) format lit_rgb32 = true ->
  find_window (_windows st) id = Some w0 ->
  exists st' : Client,
    draw_decoded alloc_ok LZ4_decompress_safe uncompress rgba stack fuel
      st id x y w h format blob seq_id stride config
    = bencode.Done (st', bencode.Ok tt)
    /\ find_window (_windows st') id
       = Some (mkwindow (wid w0)
                 (mkregion x y w h (wrap32 stride) decompressed :: painted w0))
    /\ In (Sent_buffer_refresh id) (emitted st')
    /\ In (Error_draw (Lz4_malformed expected ret)) (emitted st').
Proof.
  intros Hdata Hexp Hbig Hres Hlz4 Hcall Hret Hfmt Hwin.
  unfold draw_decoded, draw_body. rewrite Hdata, Hexp, Hres. cbn [draw_step].
  change (mem (with_pxlbuf st px m)) with m.
  rewrite Hlz4. cbn [draw_step].
  replace (expected <? 4) with false by (symmetry; apply Z.ltb_ge; lia).
  rewrite Hcall.
  replace (expected =? ret) with false by (symmetry; apply Z.eqb_neq; lia).
  unfold draw_paint. cbn [mem emit with_mem with_pxlbuf].
  rewrite Hfmt. unfold apply_update32.
  cbn [_windows emit with_mem with_pxlbuf]. rewrite Hwin.
  eexists. split; [reflexivity|].
  cbn [damage_sequence_guard emit with_windows _windows emitted].
  split; [apply find_window_painted; exact Hwin|].
  split; simpl; tauto.
Qed.

End draw.

Lemma draw_height_0_divides_by_zero_witness :
  draw_decoded always_ok failing_lz4 failing_uncompress rgba_bytes 8 32
    client_with_chunk 1 0 0 2 0 draw_message_format draw_message_blob 5 8 None
  = bencode.Division_by_zero.
Proof.
  apply (draw_height_0_divides_by_zero always_ok failing_lz4
           failing_uncompress rgba_bytes 8 32).
  discriminate.
Defined.

Lemma lz4_short_input_wraps_witness :
  exists (ret : Z) (written : list Z) (st1 : Client),
    draw_body always_ok failing_lz4 failing_uncompress rgba_bytes 8 32
      client_with_chunk 1 0 0 2 2 draw_message_format draw_message_blob 8 None
    = draw_paint always_ok rgba_bytes
        (emit st1 (Called_lz4 (mkptr 2 12) (2 ^ 64 - 1) (-1) 16))
        (if 16 =? ret then None else Some (Lz4_malformed 16 ret))
        1 0 0 2 2 8 16 draw_message_format (mkptr 3 0)
    /\ mem st1 = store (mem client_with_chunk) (mkptr 3 0) written.
Proof.
  destruct (lz4_short_input_wraps always_ok failing_lz4 failing_uncompress
              rgba_bytes 8 32 client_with_chunk 1 0 0 2 2 draw_message_format
              draw_message_blob
              {| Strview.start := mkptr 2 8; Strview.length := 3 |}
              8 None 16 (mkptr 3 0)
              {| Strechy_Buffer._capacity := 512;
                 Strechy_Buffer._length := 0;
                 Strechy_Buffer._buffer := mkptr 3 0;
                 Strechy_Buffer._consecutive_small_requests := 1 |}
              (mem client_with_chunk))
    as (_ & _ & ret & written & _ & Hbody).
  - reflexivity.
  - simpl. lia.
  - reflexivity.
  - lia.
  - reflexivity.
  - reflexivity.
  - exists ret, written. eexists. split; [exact Hbody | reflexivity].
Defined.

Lemma lz4_failure_still_paints_witness :
  exists st' : Client,
    draw_decoded always_ok failing_lz4 failing_uncompress rgba_bytes 8 32
      client_with_chunk 1 0 0 2 2 draw_message_format draw_message_blob 5 8 None
    = bencode.Done (st', bencode.Ok tt)
    /\ find_window (_windows st') 1
       = Some (mkwindow 1 [mkregion 0 0 2 2 8 (mkptr 3 0)])
    /\ In (Sent_buffer_refresh 1) (emitted st')
    /\ In (Error_draw (Lz4_malformed 16 (-1))) (emitted st').
Proof.
  apply (lz4_failure_still_paints always_ok failing_lz4 failing_uncompress
           rgba_bytes 8 32 client_with_chunk 1 0 0 2 2 draw_message_format
           draw_message_blob
           {| Strview.start := mkptr 2 8; Strview.length := 3 |}
           5 8 None 16 (mkptr 3 0)
           {| Strechy_Buffer._capacity := 512;
              Strechy_Buffer._length := 0;
              Strechy_Buffer._buffer := mkptr 3 0;
              Strechy_Buffer._consecutive_small_requests := 1 |}
           (mem client_with_chunk) (-1) [] (mkwindow 1 [])).
  - reflexivity.
  - reflexivity.
  - lia.
  - reflexivity.
  - reflexivity.
  - reflexivity.
  - discriminate.
  - reflexivity.
  - reflexivity.
Defined.

(** ** Frame Assembler: the side chunk *)

Lemma hd_skipn_nth (n : nat) (l : list Z) : hd 0 (skipn n l) = nth n l 0.
Proof.
  revert l. induction n as [|n IH]; intros [|x l]; simpl; try reflexivity.
  apply IH.
Qed.

Lemma load_nth (m : memory) (b : nat) (i : nat) :
  load m (mkptr b (Z.of_nat i)) = nth i (block_of m b) 0.
Proof.
  unfold load, from. simpl.
  replace (Z.of_nat i <? 0) with false by (symmetry; apply Z.ltb_ge; lia).
  rewrite Nat2Z.id. apply hd_skipn_nth.
Qed.

Lemma block_of_set_block_same (m : memory) (b : nat) (l : list Z) :
  (b < List.length m)%nat -> block_of (set_block m b l) b = l.
Proof.
  unfold block_of. revert b. induction m as [|x m IH]; intros b Hb.
  - simpl in Hb. lia.
  - destruct b as [|b]; simpl; [reflexivity|]. apply IH. simpl in Hb. lia.
Qed.

Lemma block_of_set_block_other (m : memory) (b b' : nat) (l : list Z) :
  b <> b' -> block_of (set_block m b l) b' = block_of m b'.
Proof.
  unfold block_of. revert b b'. induction m as [|x m IH]; intros b b' Hne.
  - destruct b; reflexivity.
  - destruct b as [|b]; destruct b' as [|b']; simpl; try reflexivity.
    + congruence.
    + apply IH. congruence.
Qed.

Lemma set_block_length (m : memory) (b : nat) (l : list Z) :
  List.length (set_block m b l) = List.length m.
Proof.
  revert b. induction m as [|x m IH]; intros b; [destruct b; reflexivity|].
  destruct b; simpl; [reflexivity|]. rewrite IH. reflexivity.
Qed.

Lemma nth_store_block_before (b data : list Z) (o i : nat) :
  (i < o)%nat -> nth i (store_block b o data) 0 = nth i b 0.
Proof.
  intros Hi. unfold store_block.
  destruct (Nat.lt_ge_cases i (List.length b)) as [Hb|Hb].
  - rewrite app_nth1 by (rewrite length_firstn; lia).
    rewrite nth_firstn.
    replace (i <? o)%nat with true by (symmetry; apply Nat.ltb_lt; lia).
    reflexivity.
  - rewrite app_nth2 by (rewrite length_firstn; lia).
    rewrite length_firstn.
    replace (Nat.min o (List.length b)) with (List.length b) by lia.
    rewrite app_nth1 by (rewrite repeat_length; lia).
    rewrite nth_repeat. symmetry. apply nth_overflow. lia.
Qed.

Lemma nth_store_block_in (b data : list Z) (o i : nat) :
  (o <= i < o + List.length data)%nat ->
  nth i (store_block b o data) 0 = nth (i - o) data 0.
Proof.
  intros Hi. unfold store_block.
  assert (Hlen : List.length (firstn o b ++ repeat 0 (o - List.length b)) = o).
  { rewrite length_app, length_firstn, repeat_length. lia. }
  rewrite app_assoc.
  rewrite app_nth2 by lia. rewrite Hlen.
  rewrite app_nth1 by lia. reflexivity.
Qed.

(** A write after the bytes that an allocation holds extends them. *)
Lemma holds_store (m : memory) (base : ptr) (s data : list Z) :
  off base = 0 ->
  (blk base < List.length m)%nat ->
  holds m base s ->
  holds (store m (padd base (Z.of_nat (List.length s))) data) base (s ++ data).
Proof.
  intros Hoff Hblk Hs i Hi. destruct base as [b o]. simpl in *. subst o.
  unfold padd, store. simpl. rewrite Nat2Z.id.
  rewrite load_nth. rewrite block_of_set_block_same by exact Hblk.
  rewrite length_app in Hi.
  destruct (Nat.lt_ge_cases i (List.length s)) as [Hlt|Hge].
  - rewrite nth_store_block_before by exact Hlt.
    rewrite app_nth1 by exact Hlt.
    rewrite <- load_nth. specialize (Hs i Hlt).
    unfold padd in Hs. simpl in Hs. exact Hs.
  - rewrite nth_store_block_in by lia.
    rewrite app_nth2 by lia. reflexivity.
Qed.

Lemma holds_app_l (m : memory) (base : ptr) (s t : list Z) :
  holds m base (s ++ t) -> holds m base s.
Proof.
  intros H i Hi. rewrite (H i) by (rewrite length_app; lia).
  apply app_nth1. exact Hi.
Qed.

Lemma holds_bytes_at (m : memory) (base : ptr) (s t u : list Z) :
  holds m base (s ++ t ++ u) ->
  bytes_at m (padd base (Z.of_nat (List.length s))) (Z.of_nat (List.length t))
  = t.
Proof.
  intros H. unfold bytes_at. rewrite Nat2Z.id.
  apply nth_ext with (d := 0) (d' := 0).
  - rewrite length_map, length_seq. reflexivity.
  - intros i Hi. rewrite length_map, length_seq in Hi.
    rewrite (nth_indep _ 0 (load m (padd (padd base (Z.of_nat (List.length s))) (Z.of_nat 0))))
      by (rewrite length_map, length_seq; exact Hi).
    rewrite (map_nth (fun i => load m (padd (padd base (Z.of_nat (List.length s))) (Z.of_nat i)))).
    rewrite seq_nth by exact Hi. simpl Nat.add.
    rewrite padd_padd.
    replace (Z.of_nat (List.length s) + Z.of_nat i)
      with (Z.of_nat (List.length s + i)) by lia.
    rewrite (H (List.length s + i)%nat)
      by (rewrite !length_app; lia).
    rewrite app_nth2 by lia.
    replace (List.length s + i - List.length s)%nat with i by lia.
    apply app_nth1. exact Hi.
Qed.

Lemma nth_bytes_at (m : memory) (p : ptr) (n : Z) (i : nat) :
  (i < Z.to_nat n)%nat ->
  nth i (bytes_at m p n) 0 = load m (padd p (Z.of_nat i)).
Proof.
  intros Hi. unfold bytes_at.
  rewrite (nth_indep _ 0 (load m (padd p (Z.of_nat 0))))
    by (rewrite length_map, length_seq; exact Hi).
  rewrite (map_nth (fun i => load m (padd p (Z.of_nat i)))).
  rewrite seq_nth by exact Hi. reflexivity.
Qed.

(** The doubling loop ends when it starts from a capacity of at least 1 and
    the request is far from the range of [size_t]. *)
Lemma double_until_ends (fuel : nat) (c request : Z) :
  1 <= c -> c < 2 * request -> request <= 2 ^ 62 ->
  request <= c * 2 ^ (Z.of_nat fuel - 1) ->
  exists r : Z,
    Strechy_Buffer.double_until fuel c request = Some r
    /\ request <= r < 2 * request.
Proof.
  revert c. induction fuel as [|fuel IH]; intros c Hc Hlt Hreq Hfuel.
  - simpl in Hfuel. change (2 ^ (0 - 1)) with 0 in Hfuel. lia.
  - simpl Strechy_Buffer.double_until.
    destruct (c <? request) eqn:E.
    + apply Z.ltb_lt in E. rewrite wrap64_small by lia.
      apply IH; try lia.
      replace (Z.of_nat (S fuel) - 1) with (Z.of_nat fuel) in Hfuel by lia.
      destruct fuel as [|fuel].
      * simpl in Hfuel. lia.
      * replace (Z.of_nat (S fuel)) with (Z.of_nat (S fuel) - 1 + 1) in Hfuel by lia.
        rewrite Z.pow_add_r in Hfuel by lia. lia.
    + apply Z.ltb_ge in E. exists c. split; [reflexivity | lia].
Qed.

(** [reserve_addnl] keeps the bytes that the length covers, whether or not
    it moves them to a new allocation. *)
Lemma reserve_addnl_keeps (alloc_ok : Z -> bool) (pk : Strechy_Buffer.t)
    (m : memory) (req : Z) (s : list Z) :
  (forall n, alloc_ok n = true) ->
  off (Strechy_Buffer._buffer pk) = 0 ->
  (blk (Strechy_Buffer._buffer pk) < List.length m)%nat ->
  Strechy_Buffer._length pk = Z.of_nat (List.length s) ->
  1 <= Strechy_Buffer._capacity pk <= 2 ^ 40 ->
  holds m (Strechy_Buffer._buffer pk) s ->
  0 <= req -> req + Z.of_nat (List.length s) <= 2 ^ 36 ->
  exists (pk' : Strechy_Buffer.t) (m' : memory),
    Strechy_Buffer.reserve_addnl alloc_ok pk m req
    = bencode.Done
        (bencode.Ok (padd (Strechy_Buffer._buffer pk')
                       (Z.of_nat (List.length s)), pk', m'))
    /\ off (Strechy_Buffer._buffer pk') = 0
    /\ (blk (Strechy_Buffer._buffer pk') < List.length m')%nat
    /\ Strechy_Buffer._length pk' = Z.of_nat (List.length s)
    /\ 1 <= Strechy_Buffer._capacity pk' <= 2 ^ 40
    /\ holds m' (Strechy_Buffer._buffer pk') s.
Proof.
  intros Halloc Hoff Hblk Hlen Hcap Hs Hreq Hsum.
  unfold Strechy_Buffer.reserve_addnl, Strechy_Buffer.calculate_reservation.
  rewrite Hlen. rewrite (wrap64_small (req + Z.of_nat (List.length s))) by lia.
  set (small := if req + Z.of_nat (List.length s) <? Strechy_Buffer._capacity pk / 4
                then wrap64 (Strechy_Buffer._consecutive_small_requests pk + 1)
                else 0).
  destruct (Strechy_Buffer._capacity pk <? req + Z.of_nat (List.length s)) eqn:Egrow.
  - apply Z.ltb_lt in Egrow.
    destruct (double_until_ends Strechy_Buffer.doublings
                (Strechy_Buffer._capacity pk)
                (req + Z.of_nat (List.length s))) as (r & Hr & Hrange);
      try lia.
    { unfold Strechy_Buffer.doublings.
      change (2 ^ (Z.of_nat 65 - 1)) with (2 ^ 64). lia. }
    rewrite Hr. unfold Strechy_Buffer._resize.
    cbn [Strechy_Buffer._capacity Strechy_Buffer._length Strechy_Buffer._buffer
         Strechy_Buffer._consecutive_small_requests].
    replace (r <=? Strechy_Buffer._capacity pk) with false
      by (symmetry; apply Z.leb_gt; lia).
    rewrite Halloc. unfold alloc.
    cbn [Strechy_Buffer._capacity Strechy_Buffer._length Strechy_Buffer._buffer].
    exists {| Strechy_Buffer._capacity := r;
              Strechy_Buffer._length := Z.of_nat (List.length s);
              Strechy_Buffer._buffer := mkptr (List.length m) 0;
              Strechy_Buffer._consecutive_small_requests := small |}.
    exists (free (store (m ++ [[]]) (mkptr (List.length m) 0)
                    (bytes_at m (Strechy_Buffer._buffer pk)
                       (Z.of_nat (List.length s))))
              (Strechy_Buffer._buffer pk)).
    split; [reflexivity|].
    cbn [Strechy_Buffer._capacity Strechy_Buffer._length Strechy_Buffer._buffer
         off blk].
    unfold free, store. cbn [blk off]. rewrite !set_block_length, length_app.
    simpl List.length.
    repeat split; try lia.
    intros i Hi. unfold padd. cbn [blk off]. rewrite Z.add_0_l, load_nth.
    rewrite block_of_set_block_other by lia.
    rewrite block_of_set_block_same by (rewrite length_app; simpl; lia).
    change (Z.to_nat 0) with 0%nat.
    rewrite nth_store_block_in
      by (unfold bytes_at; rewrite length_map, length_seq; lia).
    rewrite Nat.sub_0_r. rewrite nth_bytes_at by lia.
    apply Hs. exact Hi.
  - apply Z.ltb_ge in Egrow.
    assert (Hsame : forall newcap small',
              newcap <= Strechy_Buffer._capacity pk ->
              Strechy_Buffer._resize alloc_ok
                {| Strechy_Buffer._capacity := Strechy_Buffer._capacity pk;
                   Strechy_Buffer._length := Z.of_nat (List.length s);
                   Strechy_Buffer._buffer := Strechy_Buffer._buffer pk;
                   Strechy_Buffer._consecutive_small_requests := small' |}
                m newcap
              = bencode.Ok (Strechy_Buffer._buffer pk,
                            {| Strechy_Buffer._capacity := Strechy_Buffer._capacity pk;
                               Strechy_Buffer._length := Z.of_nat (List.length s);
                               Strechy_Buffer._buffer := Strechy_Buffer._buffer pk;
                               Strechy_Buffer._consecutive_small_requests := small' |},
                            m)).
    { intros newcap small' Hle. unfold Strechy_Buffer._resize.
      cbn [Strechy_Buffer._capacity Strechy_Buffer._buffer].
      replace (newcap <=? Strechy_Buffer._capacity pk) with true
        by (symmetry; apply Z.leb_le; exact Hle).
      reflexivity. }
    assert (Hmin : Genode.min (Strechy_Buffer._capacity pk / 2) 1
                   <= Strechy_Buffer._capacity pk).
    { unfold Genode.min.
      destruct (Strechy_Buffer._capacity pk / 2 <? 1) eqn:E; [|lia].
      apply Z.ltb_lt in E. lia. }
    destruct (8 <? small); rewrite Hsame by lia;
      (exists {| Strechy_Buffer._capacity := Strechy_Buffer._capacity pk;
                 Strechy_Buffer._length := Z.of_nat (List.length s);
                 Strechy_Buffer._buffer := Strechy_Buffer._buffer pk;
                 Strechy_Buffer._consecutive_small_requests := small |});
      exists m; (split; [reflexivity|]);
      cbn [Strechy_Buffer._capacity Strechy_Buffer._length Strechy_Buffer._buffer];
      repeat split; try assumption; try lia.
Qed.

Lemma holds_nth (m : memory) (base : ptr) (s t : list Z) (j : Z) :
  holds m base (s ++ t) -> 0 <= j < Z.of_nat (List.length t) ->
  load m (padd (padd base (Z.of_nat (List.length s))) j)
  = nth (Z.to_nat j) t 0.
Proof.
  intros H Hj. rewrite padd_padd.
  replace (Z.of_nat (List.length s) + j)
    with (Z.of_nat (List.length s + Z.to_nat j)) by lia.
  rewrite (H (List.length s + Z.to_nat j)%nat) by (rewrite length_app; lia).
  rewrite app_nth2 by lia. f_equal. lia.
Qed.

Lemma frame_header_decodes (n : Z) :
  0 <= n < 2 ^ 32 ->
  n / 2 ^ 24 mod 256 * 2 ^ 24 + n / 2 ^ 16 mod 256 * 2 ^ 16
  + n / 2 ^ 8 mod 256 * 2 ^ 8 + n mod 256 = n.
Proof.
  intros Hn.
  change (2 ^ 24) with 16777216. change (2 ^ 16) with 65536.
  change (2 ^ 8) with 256. change (2 ^ 32) with 4294967296 in Hn.
  Z.div_mod_to_equations. lia.
Qed.

(** A header that the buffer holds is read back with its chunk index and
    its length. *)
Lemma header_fields (m : memory) (base : ptr) (s : list Z) (c n : Z) :
  holds m base (s ++ frame_header c n) ->
  0 <= n < 2 ^ 32 ->
  Header.chunk_idx m (padd base (Z.of_nat (List.length s))) = c
  /\ Header.length m (padd base (Z.of_nat (List.length s))) = n.
Proof.
  intros H Hn. unfold Header.chunk_idx, Header.length.
  rewrite (holds_nth m base s (frame_header c n) 3 H) by (simpl; lia).
  rewrite (holds_nth m base s (frame_header c n) 4 H) by (simpl; lia).
  rewrite (holds_nth m base s (frame_header c n) 5 H) by (simpl; lia).
  rewrite (holds_nth m base s (frame_header c n) 6 H) by (simpl; lia).
  rewrite (holds_nth m base s (frame_header c n) 7 H) by (simpl; lia).
  split; [reflexivity|]. cbn [nth frame_header].
  apply frame_header_decodes. exact Hn.
Qed.

Section assembler.

Variable alloc_ok : Z -> bool.
Hypothesis alloc_always : forall n, alloc_ok n = true.
Variable dispatch : Client -> strview -> bencode.outcome (bool * Client).

(** A read of all the bytes that the handler waits for ends in
    [_on_ready], with the bytes in the buffer. *)
Lemma read_all (st : Client) (s data : list Z) (want : Z) :
  assembling st s want ->
  Z.of_nat (List.length data) = want -> 0 < want ->
  exists st1 : Client,
    read_available alloc_ok dispatch (Read_bytes data) st
    = _on_ready alloc_ok dispatch want
        (padd (Strechy_Buffer._buffer (_pktbuf st)) (Z.of_nat (List.length s)))
        st1
    /\ filled st1 s data
    /\ _pktbuf st1 = _pktbuf st
    /\ _waiting_chunk st1 = _waiting_chunk st.
Proof.
  intros (Hoff & Hblk & Hlen & Hcap & Hs & Hrh) Hdata Hwant.
  unfold read_available. rewrite Hrh.
  cbn [Buffered_Read_Handler.respond_with Buffered_Read_Handler._remaining
       Buffered_Read_Handler._offset Buffered_Read_Handler._buffer].
  rewrite <- Hdata, Nat2Z.id, firstn_all.
  replace (Z.of_nat (List.length data) =? 0) with false
    by (symmetry; apply Z.eqb_neq; lia).
  cbn [_read_handler with_read_handler Buffered_Read_Handler._remaining
       Buffered_Read_Handler._offset Buffered_Read_Handler._buffer].
  rewrite Z.sub_diag, Z.eqb_refl, Z.add_0_l.
  eexists. split; [reflexivity|].
  unfold filled. cbn [_pktbuf with_read_handler with_mem mem _waiting_chunk].
  repeat split; try assumption; try lia.
  - rewrite padd_0. unfold store. rewrite set_block_length. exact Hblk.
  - rewrite padd_0. apply holds_store; assumption.
Qed.

(** A header: the buffer is extended for the payload. *)
Lemma on_ready_header (st1 : Client) (s : list Z) (c n : Z) :
  filled st1 s (frame_header c n) ->
  0 <= n < 2 ^ 32 ->
  Z.of_nat (List.length s) <= 2 ^ 34 ->
  exists st' : Client,
    _on_ready alloc_ok dispatch Header.size
      (padd (Strechy_Buffer._buffer (_pktbuf st1)) (Z.of_nat (List.length s)))
      st1
    = bencode.Done (bencode.Ok st')
    /\ assembling st' (s ++ frame_header c n) n
    /\ _waiting_chunk st' = _waiting_chunk st1.
Proof.
  intros (Hoff & Hblk & Hlen & Hcap & Hs) Hn Hsize.
  unfold _on_ready. change (Header.size =? Header.size) with true. cbv iota.
  destruct (header_fields _ _ _ _ _ Hs Hn) as (_ & Hl). rewrite Hl.
  destruct (reserve_addnl_keeps alloc_ok
              (Strechy_Buffer.extend_length (_pktbuf st1) Header.size)
              (mem st1) n (s ++ frame_header c n))
    as (pk' & m' & Hres & Hoff' & Hblk' & Hlen' & Hcap' & Hs');
    try assumption; try lia.
  - cbn [Strechy_Buffer.extend_length Strechy_Buffer._length].
    rewrite Hlen, length_app. simpl List.length. unfold Header.size.
    rewrite wrap64_small by lia. lia.
  - rewrite length_app. simpl List.length. lia.
  - rewrite Hres. cbn [bencode.and_then].
    eexists. split; [reflexivity|].
    unfold assembling.
    cbn [_pktbuf with_read_handler with_pktbuf mem _read_handler _waiting_chunk].
    repeat split; try assumption; lia.
Qed.

(** The payload of a frame whose chunk index is not 0: its place in the
    buffer is recorded and the buffer is extended for the next header. *)
Lemma on_ready_chunk (st1 : Client) (s data : list Z) (c n : Z) :
  filled st1 (s ++ frame_header c n) data ->
  c <> 0 ->
  Z.of_nat (List.length data) = n -> n <> Header.size -> 0 <= n < 2 ^ 32 ->
  Z.of_nat (List.length s) <= 2 ^ 34 ->
  exists st' : Client,
    _on_ready alloc_ok dispatch n
      (padd (Strechy_Buffer._buffer (_pktbuf st1))
         (Z.of_nat (List.length (s ++ frame_header c n))))
      st1
    = bencode.Done (bencode.Ok st')
    /\ assembling st' ((s ++ frame_header c n) ++ data) Header.size
    /\ _waiting_chunk st'
       = Some (Idxview.mk (Z.of_nat (List.length s) + Header.size) n).
Proof.
  intros (Hoff & Hblk & Hlen & Hcap & Hs) Hc Hdata Hn8 Hn Hsize.
  unfold _on_ready.
  replace (n =? Header.size) with false by (symmetry; apply Z.eqb_neq; exact Hn8).
  assert (Hhdr : padd (padd (Strechy_Buffer._buffer (_pktbuf st1))
                         (Z.of_nat (List.length (s ++ frame_header c n))))
                   (- Header.size)
                 = padd (Strechy_Buffer._buffer (_pktbuf st1))
                     (Z.of_nat (List.length s))).
  { rewrite padd_padd. f_equal. rewrite length_app. simpl List.length.
    unfold Header.size. lia. }
  rewrite Hhdr.
  rewrite <- app_assoc in Hs.
  destruct (header_fields _ _ _ _ _ (holds_app_l _ _ (s ++ frame_header c n) data
                                      ltac:(rewrite <- app_assoc; exact Hs)) Hn)
    as (Hci & _).
  rewrite Hci.
  replace (c =? 0) with false by (symmetry; apply Z.eqb_neq; exact Hc).
  cbn [negb].
  destruct (reserve_addnl_keeps alloc_ok
              (Strechy_Buffer.extend_length (_pktbuf st1) n)
              (mem st1) Header.size ((s ++ frame_header c n) ++ data))
    as (pk' & m' & Hres & Hoff' & Hblk' & Hlen' & Hcap' & Hs');
    try assumption; try (unfold Header.size; lia).
  - cbn [Strechy_Buffer.extend_length Strechy_Buffer._length].
    rewrite Hlen, !length_app. simpl List.length.
    rewrite wrap64_small by lia. lia.
  - rewrite <- app_assoc. exact Hs.
  - rewrite !length_app. simpl List.length. unfold Header.size. lia.
  - rewrite Hres. cbn [bencode.and_then].
    eexists. split; [reflexivity|].
    unfold assembling.
    cbn [_pktbuf with_read_handler with_pktbuf with_waiting_chunk mem
         _read_handler _waiting_chunk].
    repeat split; try assumption; try lia.
    f_equal. f_equal.
    cbn [Strechy_Buffer.extend_length Strechy_Buffer._buffer].
    unfold pdiff. cbn [padd off]. rewrite length_app. simpl List.length.
    unfold Header.size. rewrite wrap64_small by lia. lia.
Qed.

(** The payload of a primary frame, of a length other than 8, goes to the
    dispatcher in the state that the reads have built. *)
Lemma on_ready_primary (st1 : Client) (s data : list Z) (n : Z) :
  filled st1 (s ++ frame_header 0 n) data ->
  n <> Header.size -> 0 <= n < 2 ^ 32 ->
  let buf := padd (Strechy_Buffer._buffer (_pktbuf st1))
               (Z.of_nat (List.length (s ++ frame_header 0 n))) in
  _on_ready alloc_ok dispatch n buf st1
  = after_dispatch alloc_ok n
      (dispatch
         (with_pktbuf st1 (Strechy_Buffer.extend_length (_pktbuf st1) n)
            (mem st1))
         {| Strview.start := buf; Strview.length := n |}).
Proof.
  intros (Hoff & Hblk & Hlen & Hcap & Hs) Hn8 Hn buf.
  unfold _on_ready.
  replace (n =? Header.size) with false by (symmetry; apply Z.eqb_neq; exact Hn8).
  assert (Hhdr : padd buf (- Header.size)
                 = padd (Strechy_Buffer._buffer (_pktbuf st1))
                     (Z.of_nat (List.length s))).
  { unfold buf. rewrite padd_padd. f_equal. rewrite length_app.
    simpl List.length. unfold Header.size. lia. }
  rewrite Hhdr.
  destruct (header_fields _ _ _ _ _ (holds_app_l _ _ (s ++ frame_header 0 n) data Hs) Hn)
    as (Hci & _).
  rewrite Hci. reflexivity.
Qed.

End assembler.

Section stream.

Variable alloc_ok : Z -> bool.
Hypothesis alloc_always : forall n, alloc_ok n = true.
Variable dispatch : Client -> strview -> bencode.outcome (bool * Client).

(** Of a stream the handler reads the bytes that it waits for and leaves
    the rest. *)
Lemma feed_step (fuel : nat) (st : Client) (s d rest : list Z) (want : Z) :
  assembling st s want ->
  Z.of_nat (List.length d) = want -> 0 < want ->
  feed alloc_ok dispatch (S fuel) (d ++ rest) st
  = bencode.and_then (read_available alloc_ok dispatch (Read_bytes d) st)
      (feed alloc_ok dispatch fuel rest).
Proof.
  intros Hst Hd Hwant.
  destruct Hst as (_ & _ & _ & _ & _ & Hrh).
  destruct d as [|x d]; [simpl in Hd; lia|].
  assert (Hfirst : firstn (List.length (x :: d)) ((x :: d) ++ rest) = x :: d).
  { rewrite firstn_app, firstn_all, Nat.sub_diag. cbn [firstn].
    apply app_nil_r. }
  assert (Hskip : skipn (List.length (x :: d)) ((x :: d) ++ rest) = rest).
  { rewrite skipn_app, skipn_all, Nat.sub_diag. reflexivity. }
  assert (Hread : read_available alloc_ok dispatch
                    (Read_bytes ((x :: d) ++ rest)) st
                  = read_available alloc_ok dispatch (Read_bytes (x :: d)) st).
  { unfold read_available. rewrite Hrh.
    cbn [Buffered_Read_Handler.respond_with Buffered_Read_Handler._remaining].
    rewrite <- Hd, Nat2Z.id, Hfirst, firstn_all. reflexivity. }
  change ((x :: d) ++ rest) with (x :: d ++ rest) in *.
  cbn [feed]. rewrite Hrh.
  cbn [Buffered_Read_Handler.respond_with Buffered_Read_Handler._remaining].
  rewrite <- Hd, Nat2Z.id, Hskip, Hread. reflexivity.
Qed.

Lemma feed_end (r : bencode.outcome (bencode.result Client)) :
  bencode.and_then r (feed alloc_ok dispatch 0 []) = r.
Proof. destruct r as [[st|e]| | |]; reflexivity. Qed.

(** The side chunk away from the length of a header.  A frame with a chunk
    index other than 0 and a payload of [N] bytes, then a primary frame with
    a payload of [L] bytes, with [N] and [L] neither 0 nor 8: the dispatcher
    runs in a state in which the recorded pair of indices, resolved against
    the base that the packet buffer has then, views exactly the [N] bytes of
    the chunk, whether or not the buffer was moved to a new allocation on
    the way. *)
Theorem side_chunk_survives_relocation (st0 : Client) (c : Z)
    (chunk payload : list Z) :
  assembling st0 [] Header.size ->
  c <> 0 ->
  0 < Z.of_nat (List.length chunk) < 2 ^ 32 ->
  Z.of_nat (List.length chunk) <> Header.size ->
  0 < Z.of_nat (List.length payload) < 2 ^ 32 ->
  Z.of_nat (List.length payload) <> Header.size ->
  exists (st_d : Client) (iv : Idxview.idxview),
    let raw :=
      {| Strview.start :=
           padd (Strechy_Buffer._buffer (_pktbuf st_d))
             (Z.of_nat (List.length chunk) + 16);
         Strview.length := Z.of_nat (List.length payload) |} in
    feed alloc_ok dispatch 4
      (frame_header c (Z.of_nat (List.length chunk)) ++ chunk
       ++ frame_header 0 (Z.of_nat (List.length payload)) ++ payload) st0
    = after_dispatch alloc_ok (Z.of_nat (List.length payload))
        (dispatch st_d raw)
    /\ _waiting_chunk st_d = Some iv
    /\ Strview.content (mem st_d)
         (Idxview.slice iv (Strechy_Buffer._buffer (_pktbuf st_d)))
       = chunk
    /\ Strview.content (mem st_d) raw = payload.
Proof.
  intros H0 Hc HN HN8 HL HL8.
  set (N := Z.of_nat (List.length chunk)) in *.
  set (L := Z.of_nat (List.length payload)) in *.
  assert (Hh1 : Z.of_nat (List.length (frame_header c N)) = Header.size)
    by reflexivity.
  assert (Hh2 : Z.of_nat (List.length (frame_header 0 L)) = Header.size)
    by reflexivity.
  (* the header of the chunk *)
  rewrite (feed_step 3 st0 [] (frame_header c N) _ Header.size H0 Hh1 ltac:(reflexivity)).
  destruct (read_all alloc_ok dispatch st0 [] (frame_header c N) Header.size H0 Hh1
              ltac:(reflexivity)) as (st1 & -> & Hf1 & Hpk1 & Hw1).
  rewrite <- Hpk1.
  destruct (on_ready_header alloc_ok alloc_always dispatch st1 [] c N Hf1
              ltac:(lia) ltac:(simpl; lia)) as (st1' & -> & Ha1 & Hw1').
  cbn [bencode.and_then].
  (* the chunk *)
  rewrite (feed_step 2 st1' ([] ++ (frame_header c N)) chunk _ N Ha1 eq_refl ltac:(lia)).
  destruct (read_all alloc_ok dispatch st1' ([] ++ (frame_header c N)) chunk N Ha1 eq_refl
              ltac:(lia)) as (st2 & -> & Hf2 & Hpk2 & Hw2).
  rewrite <- Hpk2.
  destruct (on_ready_chunk alloc_ok alloc_always dispatch st2 [] chunk c N Hf2
              Hc eq_refl HN8 ltac:(lia) ltac:(simpl; lia))
    as (st2' & -> & Ha2 & Hw2').
  cbn [bencode.and_then].
  (* the header of the primary frame *)
  rewrite (feed_step 1 st2' (([] ++ (frame_header c N)) ++ chunk) (frame_header 0 L) _ Header.size Ha2 Hh2
             ltac:(reflexivity)).
  destruct (read_all alloc_ok dispatch st2' (([] ++ (frame_header c N)) ++ chunk) (frame_header 0 L)
              Header.size Ha2 Hh2 ltac:(reflexivity))
    as (st3 & -> & Hf3 & Hpk3 & Hw3).
  rewrite <- Hpk3.
  assert (Hsize : Z.of_nat (List.length (([] ++ (frame_header c N)) ++ chunk)) <= 2 ^ 34).
  { rewrite length_app. simpl List.length. fold N. lia. }
  destruct (on_ready_header alloc_ok alloc_always dispatch st3
              (([] ++ (frame_header c N)) ++ chunk) 0 L Hf3 ltac:(lia) Hsize)
    as (st3' & -> & Ha3 & Hw3').
  cbn [bencode.and_then].
  (* the payload of the primary frame *)
  pose proof (feed_step 0 st3'
                ((([] ++ frame_header c N) ++ chunk) ++ frame_header 0 L)
                payload [] L Ha3 eq_refl ltac:(lia)) as Hlast.
  rewrite app_nil_r in Hlast. rewrite Hlast. clear Hlast.
  destruct (read_all alloc_ok dispatch st3' ((([] ++ (frame_header c N)) ++ chunk) ++ (frame_header 0 L))
              payload L Ha3 eq_refl ltac:(lia))
    as (st4 & -> & Hf4 & Hpk4 & Hw4).
  rewrite <- Hpk4.
  rewrite (on_ready_primary alloc_ok dispatch st4 (([] ++ (frame_header c N)) ++ chunk)
             payload L Hf4 HL8 ltac:(lia)).
  rewrite feed_end.
  destruct Hf4 as (Hoff & Hblk & Hlen & Hcap & Hs).
  exists (with_pktbuf st4 (Strechy_Buffer.extend_length (_pktbuf st4) L) (mem st4)).
  exists (Idxview.mk (Z.of_nat (List.length (@nil Z)) + Header.size) N).
  cbn [_pktbuf with_pktbuf mem _waiting_chunk Strechy_Buffer.extend_length
       Strechy_Buffer._buffer].
  assert (Hlen3 : Z.of_nat (List.length ((([] ++ (frame_header c N)) ++ chunk) ++ (frame_header 0 L))) = N + 16).
  { rewrite !length_app. simpl List.length. fold N. lia. }
  rewrite Hlen3.
  split; [reflexivity|].
  split; [rewrite Hw4, Hw3', Hw3; exact Hw2'|].
  simpl app in Hs.
  split.
  - unfold Strview.content, Idxview.slice.
    cbn [Strview.start Strview.length Idxview.start Idxview.length].
    rewrite <- !app_assoc in Hs.
    apply (holds_bytes_at _ _ (frame_header c N) chunk ((frame_header 0 L) ++ payload)). exact Hs.
  - unfold Strview.content. cbn [Strview.start Strview.length].
    replace (N + 16) with (Z.of_nat (List.length (((frame_header c N) ++ chunk) ++ (frame_header 0 L))))
      by (rewrite !length_app; simpl List.length; fold N; lia).
    apply (holds_bytes_at _ _ (((frame_header c N) ++ chunk) ++ (frame_header 0 L)) payload []).
    rewrite app_nil_r. exact Hs.
Qed.

End stream.

Lemma side_chunk_survives_relocation_witness :
  exists (st_d : Client) (iv : Idxview.idxview),
    let dispatch := handlers_dispatch 8 32 draw_table in
    let raw :=
      {| Strview.start := padd (Strechy_Buffer._buffer (_pktbuf st_d)) 19;
         Strview.length := 38 |} in
    feed always_ok dispatch 4
      (frame_header 1 3 ++ [1; 2; 3] ++ frame_header 0 38 ++ draw_message)
      client_with_window
    = after_dispatch always_ok 38 (dispatch st_d raw)
    /\ _waiting_chunk st_d = Some iv
    /\ Strview.content (mem st_d)
         (Idxview.slice iv (Strechy_Buffer._buffer (_pktbuf st_d)))
       = [1; 2; 3]
    /\ Strview.content (mem st_d) raw = draw_message.
Proof.
  apply (side_chunk_survives_relocation always_ok (fun _ => eq_refl)
           (handlers_dispatch 8 32 draw_table) client_with_window 1
           [1; 2; 3] draw_message).
  - unfold assembling. cbn.
    repeat split; try (unfold Header.size; lia); try reflexivity;
      try (intros i Hi; simpl in Hi; lia).
  - discriminate.
  - simpl. lia.
  - discriminate.
  - simpl. lia.
  - discriminate.
Defined.

(** C3, as the code has it: a side chunk of eight bytes is taken for a
    header and never recorded.  Its last four bytes announce the eight bytes
    of the next header, which is taken for a header in turn, and the draw
    handler that the primary frame reaches finds no pixel data: no pair of
    indices resolves to the bytes of the chunk. *)
Lemma side_chunk_of_8_bytes_lost :
  exists st' : Client,
    feed always_ok (handlers_dispatch 8 32 draw_table) 4
      (frame_header 1 8 ++ [1; 2; 3; 4; 0; 0; 0; 8]
       ++ frame_header 0 38 ++ draw_message)
      client_with_window
    = bencode.Done (bencode.Ok st')
    /\ emitted st'
       = [Sent_damage_sequence 1 5 2 2 (Some No_rgb_data);
          Error_draw No_rgb_data; Sent_buffer_refresh 1;
          Warning_no_compression_dict]
    /\ _windows st' = [mkwindow 1 []].
Proof.
  eexists. split; [vm_compute; reflexivity|]. split; reflexivity.
Qed.

(** The draw handler resolves a waiting chunk in the same way: with an
    empty blob its data is the slice of the recorded pair at the base of the
    packet buffer. *)
Lemma draw_data_of_chunk (st : Client) (blob : strview)
    (iv : Idxview.idxview) :
  Strview.length blob = 0 ->
  _waiting_chunk st = Some iv ->
  draw_data st blob
  = Some (Idxview.slice iv (Strechy_Buffer._buffer (_pktbuf st))).
Proof.
  intros Hblob Hchunk. unfold draw_data. rewrite Hblob, Hchunk. reflexivity.
Qed.

(** ** The draw handler behind the frame assembler *)

(** The draw message with a height of 0, as the payload of a primary frame:
    the client divides by zero. *)
Lemma draw_message_height_0_divides :
  feed always_ok (handlers_dispatch 8 32 draw_table) 2
    (frame_header 0 41 ++ draw_message_height_0) client_with_window
  = bencode.Division_by_zero.
Proof. vm_compute. reflexivity. Qed.

(** A chunk of three bytes, then the draw message: the length handed to
    LZ4 has wrapped, LZ4 fails, a refresh is requested, and the window is
    painted from the pixel buffer all the same. *)
Lemma failed_draw_paints_window :
  exists st' : Client,
    feed always_ok (handlers_dispatch 8 32 draw_table) 4
      (frame_header 1 3 ++ [1; 2; 3] ++ frame_header 0 38 ++ draw_message)
      client_with_window
    = bencode.Done (bencode.Ok st')
    /\ emitted st'
       = [Sent_damage_sequence 1 5 2 2 (Some (Lz4_malformed 16 (-1)));
          Error_draw (Lz4_malformed 16 (-1)); Sent_buffer_refresh 1;
          Called_lz4 (mkptr 6 12) (2 ^ 64 - 1) (-1) 16;
          Warning_no_compression_dict]
    /\ _windows st' = [mkwindow 1 [mkregion 0 0 2 2 8 (mkptr 3 0)]].
Proof.
  eexists. split; [vm_compute; reflexivity|]. split; reflexivity.
Qed.

(** * Further properties *)

(** ** Growable Buffer: requests *)

(** A request within the capacity is served where the buffer is. *)
Lemma reserve_reset_in_place (alloc_ok : Z -> bool) (b : Strechy_Buffer.t)
    (m : memory) (request : Z) :
  1 <= Strechy_Buffer._capacity b ->
  0 <= request <= Strechy_Buffer._capacity b ->
  request < 2 ^ 64 ->
  exists small : Z,
    Strechy_Buffer.reserve_reset alloc_ok b m request 1
    = bencode.Done
        (bencode.Ok
           (Strechy_Buffer._buffer b,
            {| Strechy_Buffer._capacity := Strechy_Buffer._capacity b;
               Strechy_Buffer._length := 0;
               Strechy_Buffer._buffer := Strechy_Buffer._buffer b;
               Strechy_Buffer._consecutive_small_requests := small |},
            m)).
Proof.
  intros Hcap Hreq Hbig.
  unfold Strechy_Buffer.reserve_reset, Strechy_Buffer.calculate_reservation.
  rewrite Z.mul_1_r, wrap64_small by lia.
  cbn [Strechy_Buffer.reset Strechy_Buffer._capacity Strechy_Buffer._length
       Strechy_Buffer._buffer Strechy_Buffer._consecutive_small_requests].
  replace (Strechy_Buffer._capacity b <? request) with false
    by (symmetry; apply Z.ltb_ge; lia).
  assert (Hmin : Genode.min (Strechy_Buffer._capacity b / 2) 1
                 <= Strechy_Buffer._capacity b).
  { unfold Genode.min.
    destruct (Strechy_Buffer._capacity b / 2 <? 1) eqn:E; [|lia].
    apply Z.ltb_lt in E. lia. }
  eexists.
  destruct (8 <? _); unfold Strechy_Buffer._resize;
    cbn [Strechy_Buffer._capacity Strechy_Buffer._buffer].
  - replace (Genode.min (Strechy_Buffer._capacity b / 2) 1
             <=? Strechy_Buffer._capacity b) with true
      by (symmetry; apply Z.leb_le; exact Hmin).
    reflexivity.
  - rewrite Z.leb_refl. reflexivity.
Qed.

(** A request beyond the capacity asks the allocator for a capacity
    between the request and its double. *)
Lemma reserve_reset_grows (alloc_ok : Z -> bool) (b : Strechy_Buffer.t)
    (m : memory) (request : Z) :
  1 <= Strechy_Buffer._capacity b ->
  Strechy_Buffer._capacity b < request <= 2 ^ 62 ->
  exists r : Z,
    request <= r < 2 * request
    /\ Strechy_Buffer.reserve_reset alloc_ok b m request 1
       = bencode.Done
           (if alloc_ok r
            then bencode.Ok
                   (mkptr (List.length m) 0,
                    {| Strechy_Buffer._capacity := r;
                       Strechy_Buffer._length := 0;
                       Strechy_Buffer._buffer := mkptr (List.length m) 0;
                       Strechy_Buffer._consecutive_small_requests := 0 |},
                    free (store (m ++ [[]]) (mkptr (List.length m) 0) [])
                      (Strechy_Buffer._buffer b))
            else bencode.Throw bencode.Out_of_ram).
Proof.
  intros Hcap Hreq.
  unfold Strechy_Buffer.reserve_reset, Strechy_Buffer.calculate_reservation.
  rewrite Z.mul_1_r, wrap64_small by lia.
  cbn [Strechy_Buffer.reset Strechy_Buffer._capacity Strechy_Buffer._length
       Strechy_Buffer._buffer Strechy_Buffer._consecutive_small_requests].
  replace (Strechy_Buffer._capacity b <? request) with true
    by (symmetry; apply Z.ltb_lt; lia).
  destruct (double_until_ends Strechy_Buffer.doublings
              (Strechy_Buffer._capacity b) request) as (r & Hr & Hrange);
    try lia.
  { unfold Strechy_Buffer.doublings.
    change (2 ^ (Z.of_nat 65 - 1)) with (2 ^ 64). lia. }
  rewrite Hr. exists r. split; [exact Hrange|].
  unfold Strechy_Buffer._resize.
  cbn [Strechy_Buffer._capacity Strechy_Buffer._length Strechy_Buffer._buffer
       Strechy_Buffer._consecutive_small_requests].
  replace (r <=? Strechy_Buffer._capacity b) with false
    by (symmetry; apply Z.leb_gt; lia).
  destruct (alloc_ok r); [|reflexivity].
  unfold alloc.
  replace (request <? Strechy_Buffer._capacity b / 4) with false.
  - reflexivity.
  - symmetry. apply Z.ltb_ge.
    assert (Strechy_Buffer._capacity b / 4 <= Strechy_Buffer._capacity b)
      by (apply Z.div_le_upper_bound; lia).
    lia.
Qed.

(** With an allocator that serves every request, [reserve_reset] returns
    the base of the buffer, and the length is 0. *)
Lemma reserve_reset_returns (alloc_ok : Z -> bool) (b : Strechy_Buffer.t)
    (m : memory) (request : Z) :
  (forall size, alloc_ok size = true) ->
  1 <= Strechy_Buffer._capacity b ->
  0 <= request <= 2 ^ 62 ->
  exists (b' : Strechy_Buffer.t) (m' : memory),
    Strechy_Buffer.reserve_reset alloc_ok b m request 1
    = bencode.Done (bencode.Ok (Strechy_Buffer._buffer b', b', m'))
    /\ Strechy_Buffer._length b' = 0.
Proof.
  intros Halloc Hcap Hreq.
  destruct (Z.le_gt_cases request (Strechy_Buffer._capacity b)) as [Hle|Hgt].
  - destruct (reserve_reset_in_place alloc_ok b m request) as (small & H);
      try lia.
    rewrite H.
    exists {| Strechy_Buffer._capacity := Strechy_Buffer._capacity b;
              Strechy_Buffer._length := 0;
              Strechy_Buffer._buffer := Strechy_Buffer._buffer b;
              Strechy_Buffer._consecutive_small_requests := small |}, m.
    split; reflexivity.
  - destruct (reserve_reset_grows alloc_ok b m request) as (r & _ & H);
      try lia.
    rewrite H, Halloc.
    exists {| Strechy_Buffer._capacity := r;
              Strechy_Buffer._length := 0;
              Strechy_Buffer._buffer := mkptr (List.length m) 0;
              Strechy_Buffer._consecutive_small_requests := 0 |},
      (free (store (m ++ [[]]) (mkptr (List.length m) 0) [])
         (Strechy_Buffer._buffer b)).
    split; reflexivity.
Qed.

(** X13.  [reserve_reset] serves a request of at most 2^62 bytes from a buffer
    with a capacity of at least 1.  A request within the capacity returns
    the buffer where it is, with the length at 0; a larger one asks the
    allocator for a capacity between the request and its double, and returns
    a fresh allocation of that capacity, or throws [Out_of_ram] when the
    allocator refuses. *)
Theorem reserve_reset_serves_request (alloc_ok : Z -> bool)
    (b : Strechy_Buffer.t) (m : memory) (request : Z) :
  1 <= Strechy_Buffer._capacity b ->
  0 <= request <= 2 ^ 62 ->
  (request <= Strechy_Buffer._capacity b ->
   exists small : Z,
     Strechy_Buffer.reserve_reset alloc_ok b m request 1
     = bencode.Done
         (bencode.Ok
            (Strechy_Buffer._buffer b,
             {| Strechy_Buffer._capacity := Strechy_Buffer._capacity b;
                Strechy_Buffer._length := 0;
                Strechy_Buffer._buffer := Strechy_Buffer._buffer b;
                Strechy_Buffer._consecutive_small_requests := small |},
             m)))
  /\ (Strechy_Buffer._capacity b < request ->
      exists r : Z,
        request <= r < 2 * request
        /\ Strechy_Buffer.reserve_reset alloc_ok b m request 1
           = bencode.Done
               (if alloc_ok r
                then bencode.Ok
                       (mkptr (List.length m) 0,
                        {| Strechy_Buffer._capacity := r;
                           Strechy_Buffer._length := 0;
                           Strechy_Buffer._buffer := mkptr (List.length m) 0;
                           Strechy_Buffer._consecutive_small_requests := 0 |},
                        free (store (m ++ [[]]) (mkptr (List.length m) 0) [])
                          (Strechy_Buffer._buffer b))
                else bencode.Throw bencode.Out_of_ram)).
Proof.
  intros Hcap Hreq. split; intros H.
  - apply reserve_reset_in_place; lia.
  - apply reserve_reset_grows; lia.
Qed.

Lemma reserve_reset_serves_request_witness :
  exists r : Z,
    600 <= r < 1200
    /\ Strechy_Buffer.reserve_reset always_ok (_pxlbuf Client_init)
         (mem Client_init) 600 1
       = bencode.Done
           (bencode.Ok
              (mkptr 4 0,
               {| Strechy_Buffer._capacity := r;
                  Strechy_Buffer._length := 0;
                  Strechy_Buffer._buffer := mkptr 4 0;
                  Strechy_Buffer._consecutive_small_requests := 0 |},
               free (store (mem Client_init ++ [[]]) (mkptr 4 0) [])
                 (mkptr 3 0))).
Proof.
  destruct (reserve_reset_serves_request always_ok (_pxlbuf Client_init)
              (mem Client_init) 600) as (_ & H).
  - simpl. lia.
  - lia.
  - destruct H as (r & Hr & H); [simpl; lia|].
    exists r. split; [exact Hr | exact H].
Defined.

Lemma wrap64_mul2 (x : Z) : wrap64 (wrap64 x * 2) = wrap64 (x * 2).
Proof. unfold wrap64. apply Z.mul_mod_idemp_l. lia. Qed.

Lemma doubled_S (c : Z) (k : nat) :
  doubled (wrap64 (c * 2)) k = doubled c (S k).
Proof.
  unfold doubled, wrap64.
  rewrite Z.mul_mod_idemp_l by lia. f_equal.
  rewrite Nat2Z.inj_succ, Z.pow_succ_r by lia. lia.
Qed.

(** The doubling loop ends after [k] doublings exactly when the [k]-th
    doubling is the first to reach the request. *)
Lemma double_until_first (fuel : nat) (c request r : Z) :
  0 <= c < 2 ^ 64 ->
  Strechy_Buffer.double_until fuel c request = Some r
  <-> exists k : nat,
        (k < fuel)%nat /\ r = doubled c k /\ request <= r
        /\ forall j : nat, (j < k)%nat -> doubled c j < request.
Proof.
  revert c. induction fuel as [|fuel IH]; intros c Hc.
  - cbn. split; [discriminate | intros (k & Hk & _); lia].
  - assert (H0 : doubled c 0 = c).
    { unfold doubled. change (2 ^ Z.of_nat 0) with 1.
      rewrite Z.mul_1_r. apply wrap64_small. exact Hc. }
    cbn [Strechy_Buffer.double_until].
    destruct (Z.ltb_spec c request) as [Hlt|Hge].
    + rewrite IH by (unfold wrap64; apply Z.mod_pos_bound; lia).
      split.
      * intros (k & Hk & Hr & Hle & Hall). exists (S k).
        split; [lia|]. split; [rewrite <- doubled_S; exact Hr|].
        split; [exact Hle|].
        intros [|j] Hj; [rewrite H0; exact Hlt|].
        rewrite <- doubled_S. apply Hall. lia.
      * intros (k & Hk & Hr & Hle & Hall).
        destruct k as [|k]; [rewrite H0 in Hr; lia|].
        exists k. split; [lia|]. split; [rewrite doubled_S; exact Hr|].
        split; [exact Hle|].
        intros j Hj. rewrite doubled_S. apply Hall. lia.
    + split.
      * intros H. injection H as <-. exists 0%nat.
        split; [lia|]. split; [symmetry; exact H0|].
        split; [exact Hge|]. intros j Hj. lia.
      * intros (k & Hk & Hr & Hle & Hall).
        destruct k as [|k]; [rewrite Hr, H0; reflexivity|].
        specialize (Hall 0%nat ltac:(lia)). rewrite H0 in Hall. lia.
Qed.

Lemma doubled_64 (c : Z) (k : nat) : (64 <= k)%nat -> doubled c k = 0.
Proof.
  intros Hk. unfold doubled, wrap64.
  replace (Z.of_nat k) with (64 + (Z.of_nat k - 64)) by lia.
  rewrite Z.pow_add_r by lia.
  replace (c * (2 ^ 64 * 2 ^ (Z.of_nat k - 64)))
    with (c * 2 ^ (Z.of_nat k - 64) * 2 ^ 64) by lia.
  apply Z.mod_mul. lia.
Qed.

(** X14.  The doubling loop of [calculate_reservation] ends within 65 tests or
    not at all, and from a capacity of 0 it never ends: a buffer of
    capacity 0 serves no request. *)
Theorem doubling_ends_in_65_tests_or_never :
  (forall (fuel : nat) (c request r : Z),
     0 <= c < 2 ^ 64 ->
     Strechy_Buffer.double_until fuel c request = Some r ->
     Strechy_Buffer.double_until Strechy_Buffer.doublings c request = Some r)
  /\ (forall (fuel : nat) (request : Z),
        0 < request ->
        Strechy_Buffer.double_until fuel 0 request = None)
  /\ (forall (alloc_ok : Z -> bool) (b : Strechy_Buffer.t) (m : memory)
             (request : Z),
        Strechy_Buffer._capacity b = 0 -> 0 < request < 2 ^ 64 ->
        Strechy_Buffer.reserve_reset alloc_ok b m request 1
        = bencode.Out_of_fuel).
Proof.
  assert (Hzero : forall (fuel : nat) (request : Z),
            0 < request -> Strechy_Buffer.double_until fuel 0 request = None).
  { induction fuel as [|fuel IH]; intros request Hr; [reflexivity|].
    cbn [Strechy_Buffer.double_until].
    replace (0 <? request) with true by (symmetry; apply Z.ltb_lt; lia).
    change (wrap64 (0 * 2)) with 0. apply IH. exact Hr. }
  split; [|split; [exact Hzero|]].
  - intros fuel c request r Hc H.
    apply (double_until_first fuel c request r Hc) in H
      as (k & Hk & Hr & Hle & Hall).
    apply (double_until_first Strechy_Buffer.doublings c request r Hc).
    exists k. split; [|auto].
    unfold Strechy_Buffer.doublings.
    destruct (Nat.lt_ge_cases k 65) as [Hlt|Hge]; [exact Hlt|].
    exfalso.
    specialize (Hall 64%nat ltac:(lia)).
    rewrite doubled_64 in Hall by lia.
    rewrite Hr, doubled_64 in Hle by lia. lia.
  - intros alloc_ok b m request Hcap Hreq.
    unfold Strechy_Buffer.reserve_reset, Strechy_Buffer.calculate_reservation.
    rewrite Z.mul_1_r, wrap64_small by lia.
    cbn [Strechy_Buffer.reset Strechy_Buffer._capacity]. rewrite Hcap.
    replace (0 <? request) with true by (symmetry; apply Z.ltb_lt; lia).
    rewrite Hzero by lia. reflexivity.
Qed.

(** ** The conversion of RGB24 data *)

Lemma nth_store_block_after (b data : list Z) (o i : nat) :
  (o + List.length data <= i)%nat ->
  nth i (store_block b o data) 0 = nth i b 0.
Proof.
  intros Hi. unfold store_block.
  assert (Hlen : List.length (firstn o b ++ repeat 0 (o - List.length b)) = o).
  { rewrite length_app, length_firstn, repeat_length. lia. }
  rewrite app_assoc, app_nth2 by lia. rewrite Hlen.
  rewrite app_nth2 by lia.
  destruct (Nat.lt_ge_cases i (List.length b)) as [Hb|Hb].
  - rewrite nth_skipn. f_equal. lia.
  - rewrite (nth_overflow b) by lia. apply nth_overflow.
    rewrite length_skipn. lia.
Qed.

(** A byte of an allocation after a write into it. *)
Lemma load_store_same_block (m : memory) (bk o k : nat) (data : list Z) :
  (bk < List.length m)%nat ->
  load (store m (mkptr bk (Z.of_nat o)) data) (mkptr bk (Z.of_nat k))
  = if (k <? o)%nat then load m (mkptr bk (Z.of_nat k))
    else if (k <? o + List.length data)%nat then nth (k - o) data 0
         else load m (mkptr bk (Z.of_nat k)).
Proof.
  intros Hbk. rewrite !load_nth. unfold store. cbn [blk off].
  rewrite Nat2Z.id, block_of_set_block_same by exact Hbk.
  destruct (Nat.ltb_spec k o) as [H1|H1].
  - apply nth_store_block_before. exact H1.
  - destruct (Nat.ltb_spec k (o + List.length data)) as [H2|H2].
    + apply nth_store_block_in. lia.
    + apply nth_store_block_after. exact H2.
Qed.

Lemma store_length (m : memory) (p : ptr) (data : list Z) :
  List.length (store m p data) = List.length m.
Proof. unfold store. apply set_block_length. Qed.

Section pixels.

Variable rgba : Z -> Z -> Z -> list Z.
Hypothesis rgba_4 : forall r g b : Z, List.length (rgba r g b) = 4%nat.

Lemma rgb32_of_length (s : list Z) (n : nat) :
  List.length s = (3 * n)%nat -> List.length (rgb32_of rgba s) = (4 * n)%nat.
Proof.
  revert s. induction n as [|n IH]; intros s Hs.
  - destruct s; [reflexivity | simpl in Hs; lia].
  - destruct s as [|r [|g [|b s]]]; simpl in Hs; try lia.
    cbn [rgb32_of]. rewrite length_app, rgba_4, (IH s) by lia. lia.
Qed.

Lemma nth_rgb32_of (s : list Z) (j k : nat) :
  (3 * (j + 1) <= List.length s)%nat -> (k < 4)%nat ->
  nth (4 * j + k) (rgb32_of rgba s) 0
  = nth k (rgba (nth (3 * j) s 0) (nth (3 * j + 1) s 0) (nth (3 * j + 2) s 0)) 0.
Proof.
  revert s. induction j as [|j IH]; intros s Hs Hk;
    destruct s as [|r [|g [|b s]]]; simpl in Hs; try lia; cbn [rgb32_of].
  - rewrite app_nth1 by (rewrite rgba_4; lia). reflexivity.
  - rewrite app_nth2 by (rewrite rgba_4; lia). rewrite rgba_4.
    replace (4 * S j + k - 4)%nat with (4 * j + k)%nat by lia.
    rewrite IH by lia.
    replace (3 * S j)%nat with (S (S (S (3 * j)))) by lia.
    reflexivity.
Qed.

(** The loop of [extend_24_to_32] from pixel [i] down: the pixels up to [i]
    are converted where they lie, and what lies after them is left. *)
Lemma expand_pixels_converts (bk : nat) (s : list Z) (i : nat) :
  forall m : memory,
    (bk < List.length m)%nat ->
    (forall k : nat, (k < 3 * (i + 1))%nat ->
       load m (mkptr bk (Z.of_nat k)) = nth k s 0) ->
    (bk < List.length (expand_pixels rgba m (mkptr bk 0) i))%nat
    /\ (forall j k : nat, (j <= i)%nat -> (k < 4)%nat ->
          load (expand_pixels rgba m (mkptr bk 0) i)
            (mkptr bk (Z.of_nat (4 * j + k)))
          = nth k (rgba (nth (3 * j) s 0) (nth (3 * j + 1) s 0)
                     (nth (3 * j + 2) s 0)) 0)
    /\ (forall q : nat, (4 * (i + 1) <= q)%nat ->
          load (expand_pixels rgba m (mkptr bk 0) i) (mkptr bk (Z.of_nat q))
          = load m (mkptr bk (Z.of_nat q))).
Proof.
  induction i as [|i IH]; intros m Hbk Hs.
  - cbn [expand_pixels]. unfold padd. cbn [blk off].
    change (0 + 4 * Z.of_nat 0) with (Z.of_nat 0).
    change (0 + Z.of_nat 0 * 3) with (Z.of_nat 0).
    change (0 + (Z.of_nat 0 * 3 + 1)) with (Z.of_nat 1).
    change (0 + (Z.of_nat 0 * 3 + 2)) with (Z.of_nat 2).
    rewrite !Hs by lia.
    split; [rewrite store_length; exact Hbk|]. split.
    + intros j k Hj Hk. replace j with 0%nat by lia.
      rewrite load_store_same_block by exact Hbk.
      rewrite rgba_4. simpl Nat.add. simpl Nat.mul.
      replace (k <? 0)%nat with false by (symmetry; apply Nat.ltb_ge; lia).
      replace (k <? 4)%nat with true by (symmetry; apply Nat.ltb_lt; lia).
      rewrite Nat.sub_0_r. reflexivity.
    + intros q Hq. rewrite load_store_same_block by exact Hbk.
      rewrite rgba_4.
      replace (q <? 0)%nat with false by (symmetry; apply Nat.ltb_ge; lia).
      replace (q <? 0 + 4)%nat with false by (symmetry; apply Nat.ltb_ge; lia).
      reflexivity.
  - cbn [expand_pixels]. unfold padd. cbn [blk off].
    replace (0 + 4 * Z.of_nat (S i)) with (Z.of_nat (4 * S i)) by lia.
    replace (0 + Z.of_nat (S i) * 3) with (Z.of_nat (3 * S i)) by lia.
    replace (0 + (Z.of_nat (S i) * 3 + 1)) with (Z.of_nat (3 * S i + 1)) by lia.
    replace (0 + (Z.of_nat (S i) * 3 + 2)) with (Z.of_nat (3 * S i + 2)) by lia.
    rewrite !Hs by lia.
    set (data := rgba (nth (3 * S i) s 0) (nth (3 * S i + 1) s 0)
                   (nth (3 * S i + 2) s 0)).
    set (m1 := store m (mkptr bk (Z.of_nat (4 * S i))) data).
    assert (Hbk1 : (bk < List.length m1)%nat)
      by (unfold m1; rewrite store_length; exact Hbk).
    assert (Hs1 : forall k : nat, (k < 3 * (i + 1))%nat ->
              load m1 (mkptr bk (Z.of_nat k)) = nth k s 0).
    { intros k Hk. unfold m1. rewrite load_store_same_block by exact Hbk.
      replace (k <? 4 * S i)%nat with true by (symmetry; apply Nat.ltb_lt; lia).
      apply Hs. lia. }
    destruct (IH m1 Hbk1 Hs1) as (Hlen & Hpix & Hrest).
    split; [exact Hlen|]. split.
    + intros j k Hj Hk.
      destruct (Nat.eq_dec j (S i)) as [->|Hne].
      * rewrite Hrest by lia. unfold m1.
        rewrite load_store_same_block by exact Hbk.
        unfold data at 1. rewrite rgba_4.
        replace (4 * S i + k <? 4 * S i)%nat with false
          by (symmetry; apply Nat.ltb_ge; lia).
        replace (4 * S i + k <? 4 * S i + 4)%nat with true
          by (symmetry; apply Nat.ltb_lt; lia).
        replace (4 * S i + k - 4 * S i)%nat with k by lia.
        reflexivity.
      * apply Hpix; lia.
    + intros q Hq. rewrite Hrest by lia. unfold m1.
      rewrite load_store_same_block by exact Hbk.
      unfold data. rewrite rgba_4.
      replace (q <? 4 * S i)%nat with false by (symmetry; apply Nat.ltb_ge; lia).
      replace (q <? 4 * S i + 4)%nat with false
        by (symmetry; apply Nat.ltb_ge; lia).
      reflexivity.
Qed.

(** The conversion on a buffer that holds RGB24 data. *)
Lemma extend_24_to_32_holds (alloc_ok : Z -> bool) (b : Strechy_Buffer.t)
    (m : memory) (s : list Z) (n : nat) :
  (forall size, alloc_ok size = true) ->
  off (Strechy_Buffer._buffer b) = 0 ->
  (blk (Strechy_Buffer._buffer b) < List.length m)%nat ->
  1 <= Strechy_Buffer._capacity b <= 2 ^ 40 ->
  List.length s = (3 * n)%nat -> (0 < n)%nat -> Z.of_nat n <= 2 ^ 34 ->
  holds m (Strechy_Buffer._buffer b) s ->
  exists (b' : Strechy_Buffer.t) (m' : memory),
    extend_24_to_32 alloc_ok rgba b m (Z.of_nat n)
    = bencode.Done (bencode.Ok (Strechy_Buffer._buffer b', b', m'))
    /\ Strechy_Buffer._length b' = Strechy_Buffer._length b
    /\ off (Strechy_Buffer._buffer b') = 0
    /\ (blk (Strechy_Buffer._buffer b') < List.length m')%nat
    /\ holds m' (Strechy_Buffer._buffer b') (rgb32_of rgba s).
Proof.
  intros Halloc Hoff Hblk Hcap Hlen Hn Hbig Hs.
  unfold extend_24_to_32.
  replace (Z.of_nat n =? 0) with false by (symmetry; apply Z.eqb_neq; lia).
  unfold Strechy_Buffer.extend_and_preserve.
  rewrite wrap64_small by lia.
  destruct (reserve_addnl_keeps alloc_ok
              (Strechy_Buffer.set_length b (Z.of_nat n * 3)) m (Z.of_nat n) s)
    as (pk' & m' & Hres & Hoff' & Hblk' & Hlen' & Hcap' & Hs');
    try assumption; try lia.
  { cbn [Strechy_Buffer.set_length Strechy_Buffer._length]. lia. }
  rewrite Hres. cbn [bencode.and_then].
  cbn [Strechy_Buffer.set_length Strechy_Buffer._buffer].
  destruct (Strechy_Buffer._buffer pk') as [bk o] eqn:Ebuf.
  cbn [off blk] in Hoff', Hblk'. subst o.
  destruct (expand_pixels_converts bk s (n - 1) m' Hblk') as (Hl & Hpix & _).
  { intros k Hk. specialize (Hs' k ltac:(lia)).
    unfold padd in Hs'. cbn [blk off] in Hs'. exact Hs'. }
  replace (Z.to_nat (Z.of_nat n - 1)) with (n - 1)%nat by lia.
  exists (Strechy_Buffer.set_length pk' (Strechy_Buffer._length b)).
  eexists.
  cbn [Strechy_Buffer.set_length Strechy_Buffer._length
       Strechy_Buffer._buffer].
  rewrite Ebuf. cbn [off blk].
  split; [reflexivity|].
  split; [reflexivity|]. split; [reflexivity|]. split; [exact Hl|].
  intros idx Hidx. rewrite (rgb32_of_length s n Hlen) in Hidx.
  unfold padd. cbn [blk off]. rewrite Z.add_0_l.
  pose proof (Nat.div_mod_eq idx 4) as Hdm.
  pose proof (Nat.mod_upper_bound idx 4 ltac:(lia)) as Hmod.
  set (j := (idx / 4)%nat) in *. set (k := (idx mod 4)%nat) in *.
  rewrite Hdm. rewrite Hpix by (try exact Hmod; lia).
  symmetry. apply nth_rgb32_of; [lia | exact Hmod].
Qed.

End pixels.

(** X15.  [extend_24_to_32] converts RGB24 data where it lies: a buffer that
    holds the [3n] bytes of [n] pixels holds their [4n] RGB32 bytes
    afterwards, whether or not the buffer was moved to make room, and its
    length is as before. *)
Theorem extend_24_to_32_converts_in_place (alloc_ok : Z -> bool)
    (rgba : Z -> Z -> Z -> list Z) (b : Strechy_Buffer.t) (m : memory)
    (s : list Z) (n : nat) :
  (forall size, alloc_ok size = true) ->
  (forall r g b : Z, List.length (rgba r g b) = 4%nat) ->
  off (Strechy_Buffer._buffer b) = 0 ->
  (blk (Strechy_Buffer._buffer b) < List.length m)%nat ->
  1 <= Strechy_Buffer._capacity b <= 2 ^ 40 ->
  List.length s = (3 * n)%nat -> (0 < n)%nat -> Z.of_nat n <= 2 ^ 34 ->
  holds m (Strechy_Buffer._buffer b) s ->
  exists (b' : Strechy_Buffer.t) (m' : memory),
    extend_24_to_32 alloc_ok rgba b m (Z.of_nat n)
    = bencode.Done (bencode.Ok (Strechy_Buffer._buffer b', b', m'))
    /\ Strechy_Buffer._length b' = Strechy_Buffer._length b
    /\ holds m' (Strechy_Buffer._buffer b') (rgb32_of rgba s).
Proof.
  intros Halloc Hrgba Hoff Hblk Hcap Hlen Hn Hbig Hs.
  destruct (extend_24_to_32_holds rgba Hrgba alloc_ok b m s n)
    as (b' & m' & Hres & Hlen' & _ & _ & Hs'); try assumption.
  exists b', m'. split; [exact Hres|]. split; [exact Hlen' | exact Hs'].
Qed.

Lemma extend_24_to_32_converts_in_place_witness :
  let b := {| Strechy_Buffer._capacity := 6;
              Strechy_Buffer._length := 0;
              Strechy_Buffer._buffer := mkptr 1 0;
              Strechy_Buffer._consecutive_small_requests := 0 |} in
  let m := [[]; [1; 2; 3; 4; 5; 6]] in
  exists (b' : Strechy_Buffer.t) (m' : memory),
    extend_24_to_32 always_ok rgba_bytes b m 2
    = bencode.Done (bencode.Ok (Strechy_Buffer._buffer b', b', m'))
    /\ Strechy_Buffer._length b' = 0
    /\ holds m' (Strechy_Buffer._buffer b') [3; 2; 1; 0; 6; 5; 4; 0].
Proof.
  intros b m.
  apply (extend_24_to_32_converts_in_place always_ok rgba_bytes b m
           [1; 2; 3; 4; 5; 6] 2).
  - reflexivity.
  - reflexivity.
  - reflexivity.
  - simpl. lia.
  - simpl. lia.
  - reflexivity.
  - lia.
  - lia.
  - intros i Hi. simpl in Hi.
    destruct i as [|[|[|[|[|[|i]]]]]]; try reflexivity. lia.
Defined.

(** ** Frame Assembler: reads *)

Lemma store_block_store_block (B a b : list Z) (o : nat) :
  store_block (store_block B o a) (o + List.length a) b
  = store_block B o (a ++ b).
Proof.
  unfold store_block.
  set (P := firstn o B ++ repeat 0 (o - List.length B)).
  assert (HP : List.length P = o).
  { unfold P. rewrite length_app, length_firstn, repeat_length. lia. }
  replace (firstn o B ++ repeat 0 (o - List.length B) ++ a
           ++ skipn (o + List.length a) B)
    with ((P ++ a) ++ skipn (o + List.length a) B)
    by (unfold P; rewrite <- !app_assoc; reflexivity).
  assert (HPa : List.length (P ++ a) = (o + List.length a)%nat)
    by (rewrite length_app; lia).
  rewrite <- HPa at 1.
  rewrite firstn_app, firstn_all, Nat.sub_diag, firstn_O, app_nil_r.
  rewrite length_app, HPa.
  replace (o + List.length a - (o + List.length a + _))%nat with 0%nat by lia.
  cbn [repeat app].
  rewrite skipn_app, HPa.
  rewrite (skipn_all2 (P ++ a)) by lia. cbn [app].
  rewrite skipn_skipn, length_app.
  replace (o + List.length a + List.length b - (o + List.length a)
           + (o + List.length a))%nat
    with (o + (List.length a + List.length b))%nat by lia.
  unfold P. rewrite <- !app_assoc. reflexivity.
Qed.

Lemma set_block_set_block (m : memory) (k : nat) (X Y : list Z) :
  set_block (set_block m k X) k Y = set_block m k Y.
Proof.
  revert k. induction m as [|x m IH]; intros [|k]; simpl; try reflexivity.
  rewrite IH. reflexivity.
Qed.

(** Two writes, the second where the first ended, are one write. *)
Lemma store_store (m : memory) (p : ptr) (a b : list Z) :
  (blk p < List.length m)%nat -> 0 <= off p ->
  store (store m p a) (padd p (Z.of_nat (List.length a))) b
  = store m p (a ++ b).
Proof.
  intros Hblk Hoff. unfold store, padd. cbn [blk off].
  rewrite block_of_set_block_same by exact Hblk.
  rewrite set_block_set_block.
  replace (Z.to_nat (off p + Z.of_nat (List.length a)))
    with (Z.to_nat (off p) + List.length a)%nat by lia.
  rewrite store_block_store_block. reflexivity.
Qed.

(** X16.  The bytes that the handler waits for may arrive in any number of
    reads: two reads that together bring no more than is awaited leave the
    client as one read of the bytes of both does. *)
Theorem split_read_composes (alloc_ok : Z -> bool)
    (dispatch : Client -> strview -> bencode.outcome (bool * Client))
    (st : Client) (d1 d2 : list Z) :
  (blk (Buffered_Read_Handler._buffer (_read_handler st))
   < List.length (mem st))%nat ->
  0 <= off (Buffered_Read_Handler._buffer (_read_handler st))
       + Buffered_Read_Handler._offset (_read_handler st) ->
  d1 <> [] -> d2 <> [] ->
  Z.of_nat (List.length d1 + List.length d2)
  <= Buffered_Read_Handler._remaining (_read_handler st) ->
  bencode.and_then (read_available alloc_ok dispatch (Read_bytes d1) st)
    (read_available alloc_ok dispatch (Read_bytes d2))
  = read_available alloc_ok dispatch (Read_bytes (d1 ++ d2)) st.
Proof.
  intros Hblk Hoff H1 H2 Hrem.
  destruct st as [m pk px wc [o r buf] ws em].
  cbn [_read_handler mem Buffered_Read_Handler._buffer
       Buffered_Read_Handler._offset Buffered_Read_Handler._remaining] in *.
  assert (Hl1 : (0 < List.length d1)%nat)
    by (destruct d1; [congruence | simpl; lia]).
  assert (Hl2 : (0 < List.length d2)%nat)
    by (destruct d2; [congruence | simpl; lia]).
  unfold read_available at 1.
  cbn [_read_handler mem Buffered_Read_Handler._buffer
       Buffered_Read_Handler._offset Buffered_Read_Handler._remaining].
  rewrite (firstn_all2 d1) by lia.
  replace (Z.of_nat (List.length d1) =? 0) with false
    by (symmetry; apply Z.eqb_neq; lia).
  cbn [with_read_handler with_mem _read_handler mem
       Buffered_Read_Handler._remaining].
  replace (r - Z.of_nat (List.length d1) =? 0) with false
    by (symmetry; apply Z.eqb_neq; lia).
  cbn [bencode.and_then].
  unfold read_available.
  cbn [with_read_handler with_mem
       _read_handler mem _pktbuf _pxlbuf _waiting_chunk _windows emitted
       Buffered_Read_Handler._buffer
       Buffered_Read_Handler._offset Buffered_Read_Handler._remaining].
  rewrite (firstn_all2 d2) by lia.
  rewrite (firstn_all2 (d1 ++ d2)) by (rewrite length_app; lia).
  rewrite length_app.
  replace (Z.of_nat (List.length d2) =? 0) with false
    by (symmetry; apply Z.eqb_neq; lia).
  replace (Z.of_nat (List.length d1 + List.length d2) =? 0) with false
    by (symmetry; apply Z.eqb_neq; lia).
  cbn [with_read_handler with_mem _read_handler mem _pktbuf _pxlbuf
       _waiting_chunk _windows emitted
       Buffered_Read_Handler._buffer
       Buffered_Read_Handler._offset Buffered_Read_Handler._remaining].
  replace (padd buf (o + Z.of_nat (List.length d1)))
    with (padd (padd buf o) (Z.of_nat (List.length d1)))
    by (rewrite padd_padd; reflexivity).
  rewrite store_store by (cbn [padd blk off]; lia).
  replace (o + Z.of_nat (List.length d1) + Z.of_nat (List.length d2))
    with (o + Z.of_nat (List.length d1 + List.length d2)) by lia.
  replace (r - Z.of_nat (List.length d1) - Z.of_nat (List.length d2))
    with (r - Z.of_nat (List.length d1 + List.length d2)) by lia.
  reflexivity.
Qed.

Lemma split_read_composes_witness :
  let dispatch := handlers_dispatch 8 32 draw_table in
  bencode.and_then
    (read_available always_ok dispatch (Read_bytes [80; 0; 0]) Client_init)
    (read_available always_ok dispatch (Read_bytes [0; 0; 0; 0; 3]))
  = read_available always_ok dispatch
      (Read_bytes ([80; 0; 0] ++ [0; 0; 0; 0; 3])) Client_init.
Proof.
  intros dispatch.
  apply (split_read_composes always_ok dispatch Client_init).
  - vm_compute. lia.
  - vm_compute. discriminate.
  - discriminate.
  - discriminate.
  - vm_compute. discriminate.
Defined.

(** X17.  A primary frame that announces a payload of 0 bytes.  The handler
    then waits for 0 bytes, so the next call of [read_available] reads
    nothing, whatever the socket holds: a connection error is reported (0
    when [read] returns 0), the empty payload goes to the dispatcher, which
    rejects it, and the client warns of an invalid packet of 0 bytes and
    waits for the next header at the base of the emptied packet buffer. *)
Theorem empty_frame_reported_as_error (alloc_ok : Z -> bool)
    (stack fuel : nat) (_handlers : Mapping.tree Target) (st : Client)
    (s : list Z) (r : read_result) :
  (forall size, alloc_ok size = true) ->
  assembling st (s ++ frame_header 0 0) 0 ->
  exists st' : Client,
    read_available alloc_ok (handlers_dispatch stack fuel _handlers) r st
    = bencode.Done (bencode.Ok st')
    /\ emitted st'
       = [Warning_invalid_packet 0;
          Error_connection
            match r with Read_bytes _ => 0 | Read_failed errno => errno end]
         ++ emitted st
    /\ _read_handler st'
       = Buffered_Read_Handler.respond_with Header.size
           (Strechy_Buffer._buffer (_pktbuf st'))
    /\ Strechy_Buffer._length (_pktbuf st') = 0
    /\ _waiting_chunk st' = None
    /\ _windows st' = _windows st.
Proof.
  intros Halloc (Hoff & Hblk & Hlen & Hcap & Hs & Hrh).
  set (code := match r with Read_bytes _ => 0 | Read_failed errno => errno end).
  set (st1 := emit st (Error_connection code)).
  set (buf := padd (Strechy_Buffer._buffer (_pktbuf st))
                (Z.of_nat (List.length (s ++ frame_header 0 0)))).
  assert (Hread : read_available alloc_ok
                    (handlers_dispatch stack fuel _handlers) r st
                  = _on_ready alloc_ok (handlers_dispatch stack fuel _handlers)
                      0 buf st1).
  { unfold read_available. rewrite Hrh.
    cbn [Buffered_Read_Handler.respond_with Buffered_Read_Handler._remaining
         Buffered_Read_Handler._offset Buffered_Read_Handler._buffer].
    destruct r as [data|errno].
    - change (Z.to_nat 0) with 0%nat. cbn [firstn List.length Z.of_nat].
      change (0 =? 0) with true. cbv iota.
      unfold _on_err. cbn [_read_handler emit]. rewrite Hrh.
      reflexivity.
    - unfold _on_err. cbn [_read_handler emit]. rewrite Hrh.
      reflexivity. }
  rewrite Hread.
  assert (Hfilled : filled st1 (s ++ frame_header 0 0) []).
  { unfold filled, st1. cbn [_pktbuf mem emit]. rewrite app_nil_r.
    split; [exact Hoff|]. split; [exact Hblk|]. split; [exact Hlen|].
    split; [exact Hcap | exact Hs]. }
  pose proof (on_ready_primary alloc_ok
                (handlers_dispatch stack fuel _handlers) st1 s [] 0 Hfilled
                ltac:(unfold Header.size; lia) ltac:(lia)) as Hprim.
  cbv zeta in Hprim. change (_pktbuf st1) with (_pktbuf st) in Hprim.
  fold buf in Hprim. rewrite Hprim.
  unfold handlers_dispatch, Proto_Map.dispatch.
  cbn [Strview.length]. change (0 =? 0) with true. cbv iota.
  unfold after_dispatch.
  set (st3 := with_waiting_chunk _ None).
  destruct (reserve_reset_returns alloc_ok (_pktbuf st3) (mem st3)
              Header.size Halloc) as (pk' & m' & Hres & Hzero).
  { unfold st3.
    cbn [_pktbuf with_waiting_chunk emit with_pktbuf
         Strechy_Buffer.extend_length Strechy_Buffer._capacity]. lia. }
  { unfold Header.size. lia. }
  rewrite Hres. cbn [bencode.and_then].
  eexists. split; [reflexivity|].
  cbn [emitted with_read_handler with_pktbuf _read_handler _pktbuf
       _waiting_chunk _windows].
  unfold st3, st1.
  cbn [emitted with_waiting_chunk emit with_pktbuf _waiting_chunk _windows].
  repeat split; try reflexivity. exact Hzero.
Qed.

Lemma empty_frame_reported_as_error_witness :
  let st := {| mem := [[]; static_data; frame_header 0 0; []];
               _pktbuf := {| Strechy_Buffer._capacity := 8;
                             Strechy_Buffer._length := 8;
                             Strechy_Buffer._buffer := mkptr 2 0;
                             Strechy_Buffer._consecutive_small_requests := 0 |};
               _pxlbuf := {| Strechy_Buffer._capacity := 512;
                             Strechy_Buffer._length := 0;
                             Strechy_Buffer._buffer := mkptr 3 0;
                             Strechy_Buffer._consecutive_small_requests := 0 |};
               _waiting_chunk := None;
               _read_handler :=
                 Buffered_Read_Handler.respond_with 0 (mkptr 2 8);
               _windows := [mkwindow 1 []];
               emitted := [] |} in
  exists st' : Client,
    read_available always_ok (handlers_dispatch 8 32 draw_table)
      (Read_bytes (frame_header 0 38 ++ draw_message)) st
    = bencode.Done (bencode.Ok st')
    /\ emitted st' = [Warning_invalid_packet 0; Error_connection 0]
    /\ _read_handler st'
       = Buffered_Read_Handler.respond_with Header.size
           (Strechy_Buffer._buffer (_pktbuf st'))
    /\ Strechy_Buffer._length (_pktbuf st') = 0
    /\ _waiting_chunk st' = None
    /\ _windows st' = [mkwindow 1 []].
Proof.
  intros st.
  apply (empty_frame_reported_as_error always_ok 8 32 draw_table st []
           (Read_bytes (frame_header 0 38 ++ draw_message))).
  - reflexivity.
  - unfold assembling, st. cbn [_pktbuf mem _read_handler app List.length].
    repeat split; try reflexivity; try (simpl; lia).
    intros i Hi. simpl in Hi.
    destruct i as [|[|[|[|[|[|[|[|i]]]]]]]]; try reflexivity. lia.
Defined.

(** ** Draw handler: the acknowledgement and uncompressed data *)

Section draw_events.

Variable alloc_ok : Z -> bool.
Variable LZ4_decompress_safe : memory -> ptr -> Z -> Z -> Z * list Z.
Variable uncompress : memory -> ptr -> Z -> Z -> Z * Z * list Z.
Variable rgba : Z -> Z -> Z -> list Z.
Variables stack fuel : nat.

Lemma apply_update32_emits (st st' : Client) (err err' : option draw_error)
    (id x y w h stride : Z) (decompressed : ptr) (c : bencode.result unit) :
  apply_update32 st err id x y w h stride decompressed
  = bencode.Done (st', err', c) ->
  emitted st' = emitted st /\ err' = err.
Proof.
  unfold apply_update32. destruct (find_window (_windows st) id);
    intros H; injection H as <- <- <-; split; reflexivity.
Qed.

Lemma apply_update24_emits (st st' : Client) (err err' : option draw_error)
    (id x y w h stride expected : Z) (decompressed : ptr)
    (c : bencode.result unit) :
  apply_update24 alloc_ok rgba st err id x y w h stride expected decompressed
  = bencode.Done (st', err', c) ->
  emitted st' = emitted st /\ err' = err.
Proof.
  unfold apply_update24. destruct (find_window (_windows st) id).
  - destruct (w =? 0); [discriminate|].
    destruct (stride / w =? 3).
    + unfold draw_step.
      destruct (extend_24_to_32 alloc_ok rgba (_pxlbuf st) (mem st)
                  (expected / 3)) as [[[[p px] m]|e]| | |]; try discriminate.
      * intros H. apply apply_update32_emits in H. exact H.
      * intros H. injection H as <- <- <-. split; reflexivity.
    + apply apply_update32_emits.
  - intros H. injection H as <- <- <-. split; reflexivity.
Qed.

Lemma draw_paint_emits (st st' : Client) (err err' : option draw_error)
    (id x y w h stride expected : Z) (format : strview) (decompressed : ptr)
    (c : bencode.result unit) :
  draw_paint alloc_ok rgba st err id x y w h stride expected format
    decompressed
  = bencode.Done (st', err', c) ->
  emitted st' = emitted st.
Proof.
  unfold draw_paint. destruct (Strview.eq (mem st) format lit_rgb32).
  - intros H. apply apply_update32_emits in H. apply H.
  - destruct (Strview.eq (mem st) format lit_rgb24).
    + intros H. apply apply_update24_emits in H. apply H.
    + intros H. injection H as <- _ _. reflexivity.
Qed.

(** The body of the handler emits nothing but the call of a decompressor,
    at most one. *)
Lemma draw_body_emits (st st' : Client) (id x y w h : Z)
    (format blob : strview) (stride : Z) (config : option bencode.bdict)
    (err : option draw_error) (c : bencode.result unit) :
  draw_body alloc_ok LZ4_decompress_safe uncompress rgba stack fuel
    st id x y w h format blob stride config
  = bencode.Done (st', err, c) ->
  exists calls : list event,
    emitted st' = calls ++ emitted st
    /\ forallb is_decompressor_call calls = true
    /\ (List.length calls <= 1)%nat.
Proof.
  unfold draw_body.
  destruct (draw_data st blob) as [data|].
  2:{ intros H. injection H as <- _ _. exists []. simpl. auto. }
  destruct (expected_size h stride) as [expected|]; [|discriminate].
  unfold draw_step at 1.
  destruct (Strechy_Buffer.reserve_reset alloc_ok (_pxlbuf st) (mem st)
              expected 1) as [[[[decompressed px] m]|e]| | |];
    try discriminate.
  2:{ intros H. injection H as <- _ _. exists []. simpl. auto. }
  unfold draw_step at 1.
  destruct (lz4_selected stack fuel (mem (with_pxlbuf st px m)) config)
    as [[lz4|e]| | |]; try discriminate.
  2:{ intros H. injection H as <- _ _. exists []. simpl. auto. }
  destruct lz4.
  - destruct (expected <? 4).
    + intros H. injection H as <- _ _. exists []. simpl. auto.
    + destruct (LZ4_decompress_safe _ _ _ _) as [ret written].
      intros H. apply draw_paint_emits in H. rewrite H.
      eexists [_]. simpl. auto.
  - destruct config as [d|].
    2:{ intros H. injection H as <- _ _. exists []. simpl. auto. }
    unfold draw_step.
    destruct (zlib_selected stack fuel (mem (with_pxlbuf st px m)) d)
      as [[zlib|e]| | |]; try discriminate.
    2:{ intros H. injection H as <- _ _. exists []. simpl. auto. }
    destruct (negb (zlib =? 0)).
    + destruct (uncompress _ _ _ _) as [[ret decomp_sz] written].
      intros H. apply draw_paint_emits in H. rewrite H.
      eexists [_]. simpl. auto.
    + destruct (negb (Strview.length data =? wrap32 expected)).
      * intros H. injection H as <- _ _. exists []. simpl. auto.
      * intros H. apply draw_paint_emits in H. rewrite H.
        exists []. simpl. auto.
Qed.

End draw_events.

(** X18.  A draw whose fields were decoded is acknowledged exactly once,
    whether the handler returns or throws: the last thing sent is one
    damage-sequence, a buffer refresh is requested before it exactly when
    it carries an error, and nothing else is emitted but at most one call
    of a decompressor. *)
Theorem draw_acknowledged_once (alloc_ok : Z -> bool)
    (LZ4_decompress_safe : memory -> ptr -> Z -> Z -> Z * list Z)
    (uncompress : memory -> ptr -> Z -> Z -> Z * Z * list Z)
    (rgba : Z -> Z -> Z -> list Z) (stack fuel : nat)
    (st st' : Client) (id x y w h : Z) (format blob : strview)
    (seq_id stride : Z) (config : option bencode.bdict)
    (completion : bencode.result unit) :
  draw_decoded alloc_ok LZ4_decompress_safe uncompress rgba stack fuel
    st id x y w h format blob seq_id stride config
  = bencode.Done (st', completion) ->
  exists (err : option draw_error) (calls : list event),
    emitted st' = acknowledgement id seq_id w h err ++ calls ++ emitted st
    /\ forallb is_decompressor_call calls = true
    /\ (List.length calls <= 1)%nat.
Proof.
  unfold draw_decoded.
  destruct (draw_body _ _ _ _ _ _ st id x y w h format blob stride config)
    as [[[st1 err] c]| | |] eqn:Hbody; try discriminate.
  apply draw_body_emits in Hbody as (calls & Hcalls & Hall & Hlen).
  intros H. injection H as <- _.
  exists err, calls. split; [|split; assumption].
  unfold acknowledgement. destruct err as [e|]; cbn [emitted emit app];
    rewrite Hcalls; reflexivity.
Qed.

Lemma draw_acknowledged_once_witness :
  exists (st' : Client) (err : option draw_error) (calls : list event),
    draw_decoded always_ok failing_lz4 failing_uncompress rgba_bytes 8 32
      client_with_chunk 1 0 0 2 2 draw_message_format draw_message_blob 5 8
      None
    = bencode.Done (st', bencode.Ok tt)
    /\ emitted st'
       = acknowledgement 1 5 2 2 err ++ calls ++ emitted client_with_chunk
    /\ forallb is_decompressor_call calls = true
    /\ (List.length calls <= 1)%nat.
Proof.
  eexists.
  destruct (draw_acknowledged_once always_ok failing_lz4 failing_uncompress
              rgba_bytes 8 32 client_with_chunk _ 1 0 0 2 2
              draw_message_format draw_message_blob 5 8 None (bencode.Ok tt)
              eq_refl) as (err & calls & H).
  exists err, calls. split; [reflexivity | exact H].
Defined.

(** X19.  Uncompressed data of the format [rgb24] with three bytes to the
    pixel never reaches the window.  With neither LZ4 nor zlib selected the
    data stays where the message has it, and [extend_24_to_32] converts the
    pixel buffer instead: the window is painted from the conversion of the
    bytes that the pixel buffer held before the draw, whatever the bytes of
    the message are, and no error is recorded. *)
Theorem uncompressed_rgb24_paints_old_pixels (alloc_ok : Z -> bool)
    (LZ4_decompress_safe : memory -> ptr -> Z -> Z -> Z * list Z)
    (uncompress : memory -> ptr -> Z -> Z -> Z * Z * list Z)
    (rgba : Z -> Z -> Z -> list Z) (stack fuel : nat)
    (st : Client) (id x y w h : Z) (format blob data : strview) (stride : Z)
    (d : bencode.bdict) (s : list Z) (n : nat) (w0 : Window) :
  (forall size, alloc_ok size = true) ->
  (forall r g b : Z, List.length (rgba r g b) = 4%nat) ->
  off (Strechy_Buffer._buffer (_pxlbuf st)) = 0 ->
  (blk (Strechy_Buffer._buffer (_pxlbuf st)) < List.length (mem st))%nat ->
  Z.of_nat (3 * n) <= Strechy_Buffer._capacity (_pxlbuf st) <= 2 ^ 40 ->
  holds (mem st) (Strechy_Buffer._buffer (_pxlbuf st)) s ->
  List.length s = (3 * n)%nat -> (0 < n)%nat ->
  draw_data st blob = Some data ->
  expected_size h stride = Some (Z.of_nat (3 * n)) ->
  Strview.length data = Z.of_nat (3 * n) ->
  lz4_selected stack fuel (mem st) (Some d) = bencode.Done (bencode.Ok false) ->
  zlib_selected stack fuel (mem st) d = bencode.Done (bencode.Ok 0) ->
  Strview.eq (mem st) format lit_rgb32 = false ->
  Strview.eq (mem st) format lit_rgb24 = true ->
  find_window (_windows st) id = Some w0 ->
  w <> 0 -> stride / w = 3 ->
  exists (st' : Client) (src : ptr),
    draw_body alloc_ok LZ4_decompress_safe uncompress rgba stack fuel
      st id x y w h format blob stride (Some d)
    = bencode.Done (st', None, bencode.Ok tt)
    /\ find_window (_windows st') id
       = Some (mkwindow (wid w0)
                 (mkregion x y w h (wrap32 (wrap32 (w * 4))) src
                  :: painted w0))
    /\ holds (mem st') src (rgb32_of rgba s).
Proof.
  intros Halloc Hrgba Hoff Hblk Hcap Hs Hlen Hn Hdata Hexp Hdlen Hlz4 Hzlib
    H32 H24 Hwin Hw Hstride.
  remember (Z.of_nat (3 * n)) as e eqn:He.
  unfold draw_body. rewrite Hdata, Hexp.
  destruct (reserve_reset_in_place alloc_ok (_pxlbuf st) (mem st) e)
    as (small & Hres); try lia.
  rewrite Hres. cbn [draw_step].
  set (px := {| Strechy_Buffer._capacity := Strechy_Buffer._capacity (_pxlbuf st);
                Strechy_Buffer._length := 0;
                Strechy_Buffer._buffer := Strechy_Buffer._buffer (_pxlbuf st);
                Strechy_Buffer._consecutive_small_requests := small |}).
  change (mem (with_pxlbuf st px (mem st))) with (mem st).
  rewrite Hlz4. cbn [draw_step]. rewrite Hzlib. cbn [draw_step].
  change (negb (0 =? 0)) with false. cbv iota.
  rewrite Hdlen.
  assert (Hrange : 0 <= e < 2 ^ 32).
  { unfold expected_size in Hexp. destruct (h =? 0); [discriminate|].
    injection Hexp as Hexp. unfold to_int in Hexp.
    set (v := wrap32 (wrap32 (Genode.min (INT_MAX / h) stride * h))) in Hexp.
    assert (Hv : 0 <= v < 2 ^ 32)
      by (unfold v, wrap32; apply Z.mod_pos_bound; lia).
    destruct (v <? 2 ^ 31) eqn:E;
      [apply Z.ltb_lt in E | apply Z.ltb_ge in E]; lia. }
  assert (Hwrap : wrap32 e = e) by (unfold wrap32; apply Z.mod_small; lia).
  rewrite Hwrap, Z.eqb_refl. cbn [negb].
  unfold draw_paint.
  change (mem (with_pxlbuf st px (mem st))) with (mem st).
  rewrite H32, H24. unfold apply_update24.
  change (_windows (with_pxlbuf st px (mem st))) with (_windows st).
  rewrite Hwin.
  replace (w =? 0) with false by (symmetry; apply Z.eqb_neq; exact Hw).
  rewrite Hstride. change (3 =? 3) with true. cbv iota.
  change (_pxlbuf (with_pxlbuf st px (mem st))) with px.
  change (mem (with_pxlbuf st px (mem st))) with (mem st).
  replace (e / 3) with (Z.of_nat n)
    by (apply Z.div_unique_exact; lia).
  destruct (extend_24_to_32_holds rgba Hrgba alloc_ok px (mem st) s n)
    as (b' & m' & Hext & _ & _ & _ & Hs'); try assumption; try lia.
  { unfold px. cbn [Strechy_Buffer._capacity]. lia. }
  rewrite Hext. cbn [draw_step]. unfold apply_update32.
  change (_windows (with_pxlbuf (with_pxlbuf st px (mem st)) b' m'))
    with (_windows st).
  rewrite Hwin.
  eexists. exists (Strechy_Buffer._buffer b').
  split; [reflexivity|].
  cbn [with_windows _windows mem with_pxlbuf].
  split; [apply find_window_painted; exact Hwin | exact Hs'].
Qed.

Lemma uncompressed_rgb24_paints_old_pixels_witness :
  let m := [[]; static_data;
            bytes_of_string "5:rgb243:abcd3:lz4i0e4:zlibi0eee";
            [10; 20; 30]] in
  let st := {| mem := m;
               _pktbuf := {| Strechy_Buffer._capacity := 64;
                             Strechy_Buffer._length := 32;
                             Strechy_Buffer._buffer := mkptr 2 0;
                             Strechy_Buffer._consecutive_small_requests := 0 |};
               _pxlbuf := {| Strechy_Buffer._capacity := 512;
                             Strechy_Buffer._length := 0;
                             Strechy_Buffer._buffer := mkptr 3 0;
                             Strechy_Buffer._consecutive_small_requests := 0 |};
               _waiting_chunk := None;
               _read_handler :=
                 Buffered_Read_Handler.respond_with 32 (mkptr 2 0);
               _windows := [mkwindow 1 []];
               emitted := [] |} in
  let format := {| Strview.start := mkptr 2 2; Strview.length := 5 |} in
  let blob := {| Strview.start := mkptr 2 9; Strview.length := 3 |} in
  exists (st' : Client) (src : ptr),
    draw_body always_ok failing_lz4 failing_uncompress rgba_bytes 8 32
      st 1 0 0 1 1 format blob 3
      (Some (bencode.dict_create m (mkptr 2 13) (mkptr 2 31)))
    = bencode.Done (st', None, bencode.Ok tt)
    /\ find_window (_windows st') 1
       = Some (mkwindow 1 [mkregion 0 0 1 1 4 src])
    /\ holds (mem st') src [30; 20; 10; 0].
Proof.
  intros m st format blob.
  apply (uncompressed_rgb24_paints_old_pixels always_ok failing_lz4
           failing_uncompress rgba_bytes 8 32 st 1 0 0 1 1 format blob blob 3
           (bencode.dict_create m (mkptr 2 13) (mkptr 2 31))
           [10; 20; 30] 1 (mkwindow 1 [])).
  - reflexivity.
  - reflexivity.
  - reflexivity.
  - simpl. lia.
  - simpl. lia.
  - intros i Hi. simpl in Hi.
    destruct i as [|[|[|i]]]; try reflexivity. lia.
  - reflexivity.
  - lia.
  - reflexivity.
  - reflexivity.
  - reflexivity.
  - vm_compute. reflexivity.
  - vm_compute. reflexivity.
  - vm_compute. reflexivity.
  - vm_compute. reflexivity.
  - reflexivity.
  - discriminate.
  - reflexivity.
Defined.

(** ** Root window: a change of the mode *)

(** X20.  The step of a dimension on a change of the mode.  Towards a larger
    mode the dimension grows by the largest multiple of the increment that
    stays within the mode.  Towards a smaller mode the difference has
    wrapped in [unsigned] before it is divided: the dimension becomes the
    mode less the remainder of [2^32 - (dim - mode)] by the increment, which
    is a whole number of increments below the old dimension only when the
    increment divides [2^32]. *)
Theorem mode_change_steps (dim mode limit : Z) :
  0 <= dim < 2 ^ 32 -> 0 <= mode < 2 ^ 31 -> 0 < limit < 2 ^ 32 ->
  (dim <= mode ->
   Root_window.resized dim mode limit = dim + (mode - dim) / limit * limit
   /\ dim <= Root_window.resized dim mode limit <= mode
   /\ mode - Root_window.resized dim mode limit < limit)
  /\ (mode < dim ->
      Root_window.resized dim mode limit
      = wrap32 (mode - (2 ^ 32 - (dim - mode)) mod limit)).
Proof.
  intros Hdim Hmode Hlimit. unfold Root_window.resized. split; intros Hcmp.
  - assert (H1 : wrap32 (mode - dim) = mode - dim)
      by (unfold wrap32; apply Z.mod_small; lia).
    rewrite H1.
    pose proof (Z.div_mod (mode - dim) limit ltac:(lia)) as Hdm.
    pose proof (Z.mod_pos_bound (mode - dim) limit ltac:(lia)) as Hr.
    assert (Hq : 0 <= (mode - dim) / limit) by (apply Z.div_pos; lia).
    assert (H2 : wrap32 ((mode - dim) / limit * limit)
                 = (mode - dim) / limit * limit)
      by (unfold wrap32; apply Z.mod_small; nia).
    rewrite H2.
    assert (H3 : wrap32 (dim + (mode - dim) / limit * limit)
                 = dim + (mode - dim) / limit * limit)
      by (unfold wrap32; apply Z.mod_small; nia).
    rewrite H3. split; [reflexivity|]. nia.
  - set (u := 2 ^ 32 - (dim - mode)).
    assert (H1 : wrap32 (mode - dim) = u).
    { unfold wrap32, u. symmetry.
      apply Z.mod_unique with (q := -1); lia. }
    rewrite H1.
    pose proof (Z.div_mod u limit ltac:(lia)) as Hdm.
    pose proof (Z.mod_pos_bound u limit ltac:(lia)) as Hr.
    assert (Hu : 0 < u < 2 ^ 32) by (unfold u; lia).
    assert (Hq : 0 <= u / limit) by (apply Z.div_pos; lia).
    assert (H2 : wrap32 (u / limit * limit) = u / limit * limit)
      by (unfold wrap32; apply Z.mod_small; nia).
    rewrite H2.
    replace (dim + u / limit * limit)
      with (mode - u mod limit + 1 * 2 ^ 32) by (unfold u in *; lia).
    unfold wrap32. apply Z.mod_add. lia.
Qed.

Lemma mode_change_steps_witness :
  Root_window.resized 100 130 7 = 128
  /\ Root_window.resized 100 90 7 = 89.
Proof.
  destruct (mode_change_steps 100 130 7) as (Hgrow & _); try lia.
  destruct (mode_change_steps 100 90 7) as (_ & Hshrink); try lia.
  split.
  - destruct Hgrow as (H & _); [lia|]. rewrite H. reflexivity.
  - rewrite Hshrink by lia. reflexivity.
Defined.

(** X21.  A root window with exactly one increment of 0 registers its mode
    handler, and the handler divides by zero on every change of the mode. *)
Theorem mode_change_divides_by_zero (w h g_w g_h : Z) :
  (g_w = 0 /\ g_h <> 0) \/ (g_w <> 0 /\ g_h = 0) ->
  In Root_window.Npconn_mode_sigh
    (Root_window.calls (Root_window.make w h g_w g_h))
  /\ forall mode_width mode_height : Z,
       Root_window._get_mode mode_width mode_height
         (Root_window.handle_resize (Root_window.make w h g_w g_h))
       = bencode.Division_by_zero
       /\ Root_window._get_mode mode_width mode_height
            (Root_window.make w h g_w g_h)
          = bencode.Division_by_zero.
Proof.
  intros [(Hw & Hh)|(Hw & Hh)].
  - subst g_w. apply Z.eqb_neq in Hh.
    unfold Root_window.make, Root_window._get_mode.
    cbn [Root_window.calls Root_window._limits_x Root_window.handle_resize].
    rewrite Hh. split; [left; reflexivity|].
    intros mw mh. split; reflexivity.
  - subst g_h. apply Z.eqb_neq in Hw.
    unfold Root_window.make, Root_window._get_mode.
    cbn [Root_window.calls Root_window._limits_x Root_window._limits_y
         Root_window.handle_resize].
    rewrite Hw. split; [left; reflexivity|].
    intros mw mh. split; reflexivity.
Qed.

Lemma mode_change_divides_by_zero_witness :
  In Root_window.Npconn_mode_sigh
    (Root_window.calls (Root_window.make 640 480 8 0))
  /\ Root_window._get_mode 800 600 (Root_window.make 640 480 8 0)
     = bencode.Division_by_zero.
Proof.
  destruct (mode_change_divides_by_zero 640 480 8 0) as (Hreg & Hdiv).
  - right. split; [discriminate | reflexivity].
  - split; [exact Hreg | apply Hdiv].
Defined.

(** ** Writer *)

(** [reserve_addnl] leaves the other allocations as they are. *)
Lemma reserve_addnl_other_blocks (alloc_ok : Z -> bool)
    (b b' : Strechy_Buffer.t) (m m' : memory) (req : Z) (p : ptr) (k : nat) :
  Strechy_Buffer.reserve_addnl alloc_ok b m req
  = bencode.Done (bencode.Ok (p, b', m')) ->
  k <> blk (Strechy_Buffer._buffer b) -> (k < List.length m)%nat ->
  block_of m' k = block_of m k.
Proof.
  unfold Strechy_Buffer.reserve_addnl.
  destruct (Strechy_Buffer.calculate_reservation b _) as [[newcap b1]|] eqn:Ecalc;
    [|discriminate].
  assert (Hbuf : Strechy_Buffer._buffer b1 = Strechy_Buffer._buffer b).
  { unfold Strechy_Buffer.calculate_reservation in Ecalc.
    destruct (Strechy_Buffer._capacity b <? _).
    - destruct (Strechy_Buffer.double_until _ _ _); [|discriminate].
      injection Ecalc as _ <-. reflexivity.
    - destruct (8 <? _); injection Ecalc as _ <-; reflexivity. }
  unfold Strechy_Buffer._resize.
  destruct (newcap <=? Strechy_Buffer._capacity b1).
  - intros H Hk Hlen. injection H as _ _ <-. reflexivity.
  - destruct (alloc_ok newcap); [|discriminate].
    unfold alloc. intros H Hk Hlen. injection H as _ _ <-.
    unfold free, store. cbn [blk off]. rewrite Hbuf.
    rewrite block_of_set_block_other by congruence.
    rewrite block_of_set_block_other by lia.
    unfold block_of. apply app_nth1. exact Hlen.
Qed.

Lemma bytes_at_same_block (m m' : memory) (p : ptr) (n : Z) :
  block_of m' (blk p) = block_of m (blk p) ->
  bytes_at m' p n = bytes_at m p n.
Proof.
  intros H. unfold bytes_at. apply map_ext. intros i.
  unfold load, from, padd. cbn [blk off]. rewrite H. reflexivity.
Qed.

(** X22.  [out_string] appends to what the writer holds: after it the buffer
    holds what it held, followed by the [n] bytes at [str], and the length
    has grown by [n], whether or not the buffer was moved to make room. *)
Theorem out_string_appends (alloc_ok : Z -> bool) (b : Strechy_Buffer.t)
    (m : memory) (s : list Z) (str : ptr) (n : Z) :
  (forall size, alloc_ok size = true) ->
  off (Strechy_Buffer._buffer b) = 0 ->
  (blk (Strechy_Buffer._buffer b) < List.length m)%nat ->
  Strechy_Buffer._length b = Z.of_nat (List.length s) ->
  1 <= Strechy_Buffer._capacity b <= 2 ^ 40 ->
  holds m (Strechy_Buffer._buffer b) s ->
  0 <= n -> n + Z.of_nat (List.length s) <= 2 ^ 36 ->
  blk str <> blk (Strechy_Buffer._buffer b) ->
  (blk str < List.length m)%nat ->
  exists (b' : Strechy_Buffer.t) (m' : memory),
    Writer.out_string alloc_ok b m str n = bencode.Done (bencode.Ok (b', m'))
    /\ Strechy_Buffer._length b' = Z.of_nat (List.length s) + n
    /\ holds m' (Strechy_Buffer._buffer b') (s ++ bytes_at m str n).
Proof.
  intros Halloc Hoff Hblk Hlen Hcap Hs Hn Hsum Hstr Hstrlen.
  destruct (reserve_addnl_keeps alloc_ok b m n s)
    as (pk' & m1 & Hres & Hoff' & Hblk' & Hlen' & Hcap' & Hs');
    try assumption.
  unfold Writer.out_string, Writer.reserve. rewrite Hres.
  cbn [bencode.and_then].
  exists (Strechy_Buffer.extend_length pk' n). eexists.
  split; [reflexivity|].
  cbn [Strechy_Buffer.extend_length Strechy_Buffer._length
       Strechy_Buffer._buffer].
  split; [rewrite Hlen'; apply wrap64_small; lia|].
  rewrite (bytes_at_same_block m m1 str n)
    by (apply (reserve_addnl_other_blocks alloc_ok b pk' m m1 n _ _ Hres);
        assumption).
  apply holds_store; assumption.
Qed.

Lemma out_string_appends_witness :
  let b := {| Strechy_Buffer._capacity := 4;
              Strechy_Buffer._length := 3;
              Strechy_Buffer._buffer := mkptr 2 0;
              Strechy_Buffer._consecutive_small_requests := 0 |} in
  let m := [[]; static_data; [1; 2; 3]] in
  exists (b' : Strechy_Buffer.t) (m' : memory),
    Writer.out_string always_ok b m (Strview.start lit_ping) 4
    = bencode.Done (bencode.Ok (b', m'))
    /\ Strechy_Buffer._length b' = 7
    /\ holds m' (Strechy_Buffer._buffer b')
         ([1; 2; 3] ++ bytes_of_string "ping").
Proof.
  intros b m.
  apply (out_string_appends always_ok b m [1; 2; 3] (Strview.start lit_ping) 4).
  - reflexivity.
  - reflexivity.
  - simpl. lia.
  - reflexivity.
  - simpl. lia.
  - intros i Hi. simpl in Hi.
    destruct i as [|[|[|i]]]; try reflexivity. lia.
  - lia.
  - simpl. lia.
  - simpl. lia.
  - simpl. lia.
Defined.

Lemma map_seq_from (A : Type) (f : nat -> A) (a n : nat) :
  map f (seq a n) = map (fun i => f (a + i)%nat) (seq 0 n).
Proof.
  revert a. induction n as [|n IH]; intros a; [reflexivity|].
  cbn [seq map]. f_equal; [f_equal; lia|].
  rewrite (IH (S a)), <- seq_shift, map_map.
  apply map_ext. intros i. f_equal. lia.
Qed.

Lemma bytes_at_app (m : memory) (p : ptr) (a b : Z) :
  0 <= a -> 0 <= b ->
  bytes_at m p a ++ bytes_at m (padd p a) b = bytes_at m p (a + b).
Proof.
  intros Ha Hb. unfold bytes_at.
  replace (Z.to_nat (a + b)) with (Z.to_nat a + Z.to_nat b)%nat by lia.
  rewrite seq_app, map_app. f_equal.
  cbn [Nat.add]. rewrite (map_seq_from _ _ (Z.to_nat a)).
  apply map_ext. intros i.
  rewrite padd_padd. do 2 f_equal. lia.
Qed.

Section flush.

Variables EAGAIN EWOULDBLOCK EINTR : Z.
Variable write : nat -> Z -> Z -> Z * Z.

(** Every call of [::write] succeeds and leaves [errno] as it was. *)
Hypothesis write_succeeds :
  forall (i : nat) (n e : Z), 0 <= n ->
    exists ret : Z, write i n e = (ret, e) /\ 0 <= ret <= n.

Lemma flush_loop_stale (fuel : nat) (m : memory) :
  forall (src : ptr) (n : Z) (c : Writer.channel),
    0 <= n < 2 ^ 64 ->
    Writer.again EAGAIN EWOULDBLOCK EINTR (Writer.errno c) = true ->
    Writer.flush_loop EAGAIN EWOULDBLOCK EINTR write fuel m src n c = None.
Proof.
  induction fuel as [|fuel IH]; intros src n c Hn He; [reflexivity|].
  cbn [Writer.flush_loop].
  destruct (write_succeeds (Writer.calls c) n (Writer.errno c))
    as (ret & Hw & Hret); [lia|].
  rewrite Hw.
  replace (ret =? -1) with false by (symmetry; apply Z.eqb_neq; lia).
  cbn [negb]. rewrite He, orb_true_r.
  apply IH.
  - rewrite wrap64_small by lia. lia.
  - exact He.
Qed.

(** When a call with bytes to write accepts at least one of them. *)
Hypothesis write_progresses :
  forall (i : nat) (n e ret e' : Z),
    0 < n -> write i n e = (ret, e') -> 0 < ret.

Lemma flush_loop_delivers (fuel : nat) (m : memory) :
  forall (src : ptr) (n : Z) (c : Writer.channel),
    0 <= n < 2 ^ 64 -> (Z.to_nat n < fuel)%nat ->
    Writer.again EAGAIN EWOULDBLOCK EINTR (Writer.errno c) = false ->
    exists k : nat,
      Writer.flush_loop EAGAIN EWOULDBLOCK EINTR write fuel m src n c
      = Some {| Writer.errno := Writer.errno c;
                Writer.written := Writer.written c ++ bytes_at m src n;
                Writer.calls := (Writer.calls c + S k)%nat |}.
Proof.
  induction fuel as [|fuel IH]; intros src n c Hn Hfuel He; [lia|].
  cbn [Writer.flush_loop].
  destruct (write_succeeds (Writer.calls c) n (Writer.errno c))
    as (ret & Hw & Hret); [lia|].
  rewrite Hw.
  replace (ret =? -1) with false by (symmetry; apply Z.eqb_neq; lia).
  cbn [negb]. rewrite He, orb_false_r.
  rewrite wrap64_small by lia.
  destruct (Z.eqb_spec (n - ret) 0) as [Hz|Hnz]; cbn [negb].
  - exists 0%nat. replace ret with n by lia.
    f_equal. f_equal. lia.
  - assert (Hpos : 0 < ret).
    { apply (write_progresses (Writer.calls c) n (Writer.errno c) ret
               (Writer.errno c)); [lia | exact Hw]. }
    destruct (IH (padd src ret) (n - ret)
                {| Writer.errno := Writer.errno c;
                   Writer.written := Writer.written c ++ bytes_at m src ret;
                   Writer.calls := S (Writer.calls c) |})
      as (k & Hk); try lia; [exact He|].
    exists (S k). rewrite Hk.
    cbn [Writer.errno Writer.written Writer.calls].
    rewrite <- app_assoc, bytes_at_app by lia.
    replace (ret + (n - ret)) with n by lia.
    f_equal. f_equal. lia.
Qed.

End flush.

(** X23.  [flush] writes the bytes that the buffer holds, in their order and
    each once, also when [::write] accepts them in parts, and resets the
    buffer: this when [errno] is none of [EAGAIN], [EWOULDBLOCK] and [EINTR]
    at the call, every [::write] succeeds and leaves [errno] as it was, and
    a [::write] with bytes to write accepts at least one. *)
Theorem flush_delivers_buffer (EAGAIN EWOULDBLOCK EINTR : Z)
    (write : nat -> Z -> Z -> Z * Z) (fuel : nat) (b : Strechy_Buffer.t)
    (m : memory) (c : Writer.channel) :
  (forall (i : nat) (n e : Z), 0 <= n ->
     exists ret : Z, write i n e = (ret, e) /\ 0 <= ret <= n) ->
  (forall (i : nat) (n e ret e' : Z),
     0 < n -> write i n e = (ret, e') -> 0 < ret) ->
  0 <= Strechy_Buffer._length b < 2 ^ 64 ->
  (Z.to_nat (Strechy_Buffer._length b) < fuel)%nat ->
  Writer.again EAGAIN EWOULDBLOCK EINTR (Writer.errno c) = false ->
  exists c' : Writer.channel,
    Writer.flush EAGAIN EWOULDBLOCK EINTR write fuel b m c
    = bencode.Done (Strechy_Buffer.reset b, c')
    /\ Writer.written c'
       = Writer.written c
         ++ bytes_at m (Strechy_Buffer._buffer b) (Strechy_Buffer._length b)
    /\ Writer.errno c' = Writer.errno c.
Proof.
  intros Hsucc Hprog Hlen Hfuel He.
  destruct (flush_loop_delivers EAGAIN EWOULDBLOCK EINTR write Hsucc Hprog
              fuel m (Strechy_Buffer._buffer b) (Strechy_Buffer._length b) c
              Hlen Hfuel He) as (k & Hk).
  unfold Writer.flush. rewrite Hk. eexists.
  split; [reflexivity|]. split; reflexivity.
Qed.

Lemma flush_delivers_buffer_witness :
  let write := fun (i : nat) (n e : Z) => (Z.min n 2, e) in
  let b := {| Strechy_Buffer._capacity := 8;
              Strechy_Buffer._length := 5;
              Strechy_Buffer._buffer := mkptr 1 0;
              Strechy_Buffer._consecutive_small_requests := 0 |} in
  let m := [[]; [10; 20; 30; 40; 50; 60]] in
  exists c' : Writer.channel,
    Writer.flush 11 11 4 write 6 b m (Writer.mkchannel 0 [] 0)
    = bencode.Done (Strechy_Buffer.reset b, c')
    /\ Writer.written c' = [] ++ [10; 20; 30; 40; 50]
    /\ Writer.errno c' = 0.
Proof.
  intros write b m.
  apply (flush_delivers_buffer 11 11 4 write 6 b m (Writer.mkchannel 0 [] 0)).
  - intros i n e Hn. exists (Z.min n 2). split; [reflexivity | lia].
  - intros i n e ret e' Hn H. injection H as <- _. lia.
  - simpl. lia.
  - simpl. lia.
  - reflexivity.
Defined.

(** X24.  [flush] tests [errno] after a [::write] that succeeded.  When
    [errno] is [EAGAIN], [EWOULDBLOCK] or [EINTR] at the call, left there by
    an earlier failure, and every [::write] succeeds and leaves [errno] as
    it was, the loop never ends: once the bytes are written it goes on
    calling [::write] for 0 bytes. *)
Theorem flush_never_ends_on_stale_errno (EAGAIN EWOULDBLOCK EINTR : Z)
    (write : nat -> Z -> Z -> Z * Z) (b : Strechy_Buffer.t) (m : memory)
    (c : Writer.channel) :
  (forall (i : nat) (n e : Z), 0 <= n ->
     exists ret : Z, write i n e = (ret, e) /\ 0 <= ret <= n) ->
  0 <= Strechy_Buffer._length b < 2 ^ 64 ->
  Writer.again EAGAIN EWOULDBLOCK EINTR (Writer.errno c) = true ->
  forall fuel : nat,
    Writer.flush EAGAIN EWOULDBLOCK EINTR write fuel b m c
    = bencode.Out_of_fuel.
Proof.
  intros Hsucc Hlen He fuel. unfold Writer.flush.
  rewrite (flush_loop_stale EAGAIN EWOULDBLOCK EINTR write Hsucc fuel m
             (Strechy_Buffer._buffer b) (Strechy_Buffer._length b) c Hlen He).
  reflexivity.
Qed.

Lemma flush_never_ends_on_stale_errno_witness :
  let write := fun (i : nat) (n e : Z) => (n, e) in
  let b := {| Strechy_Buffer._capacity := 8;
              Strechy_Buffer._length := 5;
              Strechy_Buffer._buffer := mkptr 1 0;
              Strechy_Buffer._consecutive_small_requests := 0 |} in
  let m := [[]; [10; 20; 30; 40; 50; 60]] in
  Writer.flush 11 11 4 write 1000 b m (Writer.mkchannel 11 [] 0)
  = bencode.Out_of_fuel.
Proof.
  intros write b m.
  apply (flush_never_ends_on_stale_errno 11 11 4 write b m
           (Writer.mkchannel 11 [] 0)).
  - intros i n e Hn. exists n. split; [reflexivity | lia].
  - simpl. lia.
  - reflexivity.
Defined.

(** ** Encoder and decoder *)

Import bencode_encode Encoded.

Lemma digits_value_app (acc : Z) (ds : list Z) (c : Z) :
  digits_value acc (ds ++ [c]) = digits_value acc ds * 10 + (c - 48).
Proof. unfold digits_value. rewrite fold_left_app. reflexivity. Qed.

Lemma ascii_digit (d : Z) : 0 <= d <= 9 -> Output.ascii d = d + 48.
Proof.
  intros H. unfold Output.ascii.
  replace (0 <=? d) with true by (symmetry; apply Z.leb_le; lia).
  replace (d <=? 9) with true by (symmetry; apply Z.leb_le; lia).
  reflexivity.
Qed.

(** The digit loop of the printer writes the decimal digits of a number
    that fits the buffer. *)
Lemma fill_digits (size : nat) (value : Z) :
  0 <= value < 10 ^ Z.of_nat size ->
  Forall is_decimal (rev (Output.fill size value))
  /\ digits_value 0 (rev (Output.fill size value)) = value
  /\ (0 < value -> rev (Output.fill size value) <> []).
Proof.
  revert value. induction size as [|size IH]; intros value Hv.
  - simpl in *. repeat split; [constructor | lia | lia].
  - cbn [Output.fill]. destruct (0 <? value) eqn:E.
    + apply Z.ltb_lt in E.
      assert (Hq : 0 <= value / 10 < 10 ^ Z.of_nat size).
      { replace (Z.of_nat (S size)) with (Z.of_nat size + 1) in Hv by lia.
        rewrite Z.pow_add_r in Hv by lia.
        split; [apply Z.div_pos; lia|].
        apply Z.div_lt_upper_bound; lia. }
      destruct (IH _ Hq) as (Hdec & Hval & _).
      assert (Hr : 0 <= value mod 10 <= 9)
        by (pose proof (Z.mod_pos_bound value 10); lia).
      cbn [rev]. rewrite ascii_digit by exact Hr.
      repeat split.
      * apply Forall_app. split; [exact Hdec|].
        constructor; [unfold is_decimal; lia | constructor].
      * rewrite digits_value_app, Hval.
        pose proof (Z.div_mod value 10). lia.
      * intros _ H. apply app_eq_nil in H as [_ H]. discriminate.
    + apply Z.ltb_ge in E. simpl. repeat split; [constructor | lia | lia].
Qed.

Lemma out_unsigned_digits (value : Z) :
  0 <= value < 2 ^ 64 ->
  Forall is_decimal (Output.out_unsigned value)
  /\ digits_value 0 (Output.out_unsigned value) = value
  /\ Output.out_unsigned value <> [].
Proof.
  intros Hv. unfold Output.out_unsigned.
  destruct (value =? 0) eqn:E.
  - apply Z.eqb_eq in E. subst. simpl.
    split; [|split; [reflexivity | discriminate]].
    constructor; [unfold is_decimal, Output.ascii; simpl; lia | constructor].
  - apply Z.eqb_neq in E.
    destruct (fill_digits Output.buf_size value) as (H1 & H2 & H3).
    { unfold Output.buf_size. change (10 ^ Z.of_nat 24) with 1000000000000000000000000.
      change (2 ^ 64) with 18446744073709551616 in Hv. lia. }
    repeat split; [exact H1 | exact H2 | apply H3; lia].
Qed.

Lemma to_long_small (x : Z) : - 2 ^ 63 <= x < 2 ^ 63 -> to_long x = x.
Proof.
  intros H. unfold to_long, wrap64.
  destruct (Z.ltb_spec x 0).
  - assert (Hm : x mod 2 ^ 64 = x + 2 ^ 64)
      by (symmetry; apply Z.mod_unique with (q := -1); lia).
    rewrite Hm.
    replace (x + 2 ^ 64 <? 2 ^ 63) with false by (symmetry; apply Z.ltb_ge; lia).
    lia.
  - rewrite Z.mod_small by lia.
    replace (x <? 2 ^ 63) with true by (symmetry; apply Z.ltb_lt; lia).
    reflexivity.
Qed.

(** What the printer writes for a [long] other than the least one: a sign
    for a negative number, and the digits of its absolute value. *)
Lemma out_signed_digits (value : Z) :
  - 2 ^ 63 < value < 2 ^ 63 ->
  exists ds : list Z,
    Output.out_signed value = (if value <? 0 then [45] else []) ++ ds
    /\ Forall is_decimal ds /\ ds <> []
    /\ digits_value 0 ds = Z.abs value.
Proof.
  intros Hv. unfold Output.out_signed.
  assert (Habs : to_long (if value <? 0 then - value else value) = Z.abs value).
  { rewrite to_long_small by (destruct (value <? 0) eqn:E; lia).
    destruct (Z.ltb_spec value 0); lia. }
  rewrite Habs, rev_app_distr.
  destruct (out_unsigned_digits (Z.abs value)) as (H1 & H2 & H3); [lia|].
  unfold Output.out_unsigned in *.
  exists (rev (if Z.abs value =? 0 then [Output.ascii 0]
               else Output.fill Output.buf_size (Z.abs value))).
  split; [|auto].
  destruct (value <? 0); reflexivity.
Qed.

(** [ascii_to] reads back what the printer wrote for a [long]. *)
Lemma ascii_to_long_out_signed (value : Z) (rest : list Z) (r : Z) :
  - 2 ^ 63 < value < 2 ^ 63 ->
  Genode.digit (hd 0 rest) false < 0 ->
  hd 0 rest <> 120 -> hd 0 rest <> 88 ->
  Genode.ascii_to_long (Output.out_signed value ++ rest) r
  = (Z.of_nat (List.length (Output.out_signed value)), value).
Proof.
  intros Hv Hrest Hx HX.
  destruct (out_signed_digits value Hv) as (ds & -> & Hdec & Hne & Hval).
  assert (Hfit : digits_value 0 ds < 2 ^ 64) by lia.
  pose proof (ascii_to_unsigned_decimal ds rest 0 Hne Hdec Hrest Hx HX Hfit) as Hscan.
  assert (Hlen : 0 < Z.of_nat (List.length ds)).
  { destruct ds; [congruence|]. simpl List.length. lia. }
  unfold Genode.ascii_to_long.
  destruct (Z.ltb_spec value 0) as [Hneg|Hpos].
  - simpl app. cbn [hd tl]. change (45 =? 45) with true. cbn [orb].
    cbv iota. rewrite Hscan.
    replace (Z.of_nat (List.length ds) =? 0) with false
      by (symmetry; apply Z.eqb_neq; lia).
    apply (f_equal2 pair); [simpl List.length; lia|].
    rewrite Hval.
    replace (-1 * Z.abs value) with value by lia.
    unfold to_long, wrap64. rewrite Z.mod_mod by lia.
    fold (wrap64 value). fold (to_long value). apply to_long_small. lia.
  - simpl app.
    destruct ds as [|c ds']; [congruence|].
    inversion Hdec as [|? ? Hc _]; subst.
    cbn [app hd].
    replace (c =? 45) with false
      by (symmetry; apply Z.eqb_neq; unfold is_decimal in Hc; lia).
    replace (c =? 43) with false
      by (symmetry; apply Z.eqb_neq; unfold is_decimal in Hc; lia).
    cbn [orb]. cbv iota.
    change (c :: ds' ++ rest) with ((c :: ds') ++ rest). rewrite Hscan.
    replace (Z.of_nat (List.length (c :: ds')) =? 0) with false
      by (symmetry; apply Z.eqb_neq; lia).
    apply (f_equal2 pair); [simpl List.length; lia|].
    rewrite Hval.
    replace (1 * Z.abs value) with value by lia.
    unfold to_long, wrap64. rewrite Z.mod_mod by lia.
    fold (wrap64 value). fold (to_long value). apply to_long_small. lia.
Qed.

Lemma zlen_app (a b : list Z) :
  Z.of_nat (List.length (a ++ b))
  = Z.of_nat (List.length a) + Z.of_nat (List.length b).
Proof. rewrite length_app. lia. Qed.

Lemma content_length (m : memory) (a : strview) :
  0 <= Strview.length a ->
  Z.of_nat (List.length (Strview.content m a)) = Strview.length a.
Proof.
  intros H. unfold Strview.content, bytes_at.
  rewrite length_map, length_seq. lia.
Qed.

Lemma print_string_length (m : memory) (a : strview) :
  0 <= Strview.length a ->
  Z.of_nat (List.length (print_string m a))
  = Z.of_nat (List.length (Output.out_unsigned (Strview.length a)))
    + 1 + Strview.length a.
Proof.
  intros H. unfold print_string. rewrite !zlen_app, content_length by exact H.
  simpl List.length. lia.
Qed.

Lemma elem_printer_items (m : memory) (e : elem) :
  elem_printer m e = print_all m (elems e).
Proof.
  induction e as [|v e IH] using elem_ind; [reflexivity|].
  cbn [elem_printer elems]. unfold print_all in *. cbn [map concat].
  rewrite IH. reflexivity.
Qed.

Lemma print_all_app (m : memory) (xs ys : list variant) :
  print_all m (xs ++ ys) = print_all m xs ++ print_all m ys.
Proof. unfold print_all. rewrite map_app, concat_app. reflexivity. Qed.

Lemma assoc_printer_items (m : memory) (a : assoc) :
  assoc_printer m a = print_all m (flat_map entry_items (entries a)).
Proof.
  induction a as [|l IHl key value r IHr] using assoc_ind; [reflexivity|].
  cbn [assoc_printer entries]. rewrite flat_map_app. cbn [flat_map].
  rewrite print_all_app, IHl, IHr.
  unfold entry_items at 2. cbn [Datatypes.fst Datatypes.snd app].
  unfold print_all at 3. cbn [map concat print].
  unfold print_all. rewrite <- !app_assoc. reflexivity.
Qed.

Lemma entry_items_length (l : list (strview * variant)) :
  List.length (flat_map entry_items l) = (2 * List.length l)%nat.
Proof.
  induction l as [|y l IH]; [reflexivity|].
  cbn [flat_map entry_items app List.length]. rewrite IH. lia.
Qed.

(** What a list or a dict prints as: its opening, its values, its closing. *)
Lemma print_items (m : memory) (v : variant) :
  encodable v = true ->
  (exists e, v = List e) \/ (exists a, v = Dict a) ->
  exists k : Z,
    (k = bencode.LIST \/ k = bencode.DICT)
    /\ print m v = k :: print_all m (items v) ++ [bencode.REC_END].
Proof.
  intros Henc [[e ->]|[a ->]].
  - exists bencode.LIST. split; [left; reflexivity|].
    destruct e as [|x e]; [discriminate|].
    cbn [print items]. rewrite elem_printer_items. reflexivity.
  - exists bencode.DICT. split; [right; reflexivity|].
    destruct a as [|l key value r]; [discriminate|].
    cbn [print items]. rewrite assoc_printer_items. reflexivity.
Qed.

(** The constructor on the printed length of a string. *)
Lemma object_at_print_string (m : memory) (q lst : ptr) (a : strview)
    (rest : list Z) :
  from m q = print_string m a ++ rest ->
  string_ok a = true ->
  off q + Z.of_nat (List.length (print_string m a)) <= off lst < off q + 2 ^ 64 ->
  let n := Z.of_nat (List.length (Output.out_unsigned (Strview.length a))) in
  bencode.object_at m q lst
  = {| bencode._len := if Strview.length a =? 0 then 0
                       else Strview.length a + 1;
       bencode._pos := padd q n;
       bencode._last := lst |}
  /\ load m (padd q n) = bencode.STRING.
Proof.
  intros Hmem Hok Hlim n.
  unfold string_ok in Hok. apply andb_true_iff in Hok as [H0 H1].
  apply Z.leb_le in H0. apply Z.ltb_lt in H1.
  destruct (out_unsigned_digits (Strview.length a)) as (Hdec & Hval & Hne); [lia|].
  rewrite print_string_length in Hlim by exact H0. fold n in Hlim.
  unfold print_string in Hmem. rewrite <- app_assoc in Hmem.
  split.
  - unfold bencode.object_at. rewrite Hmem.
    rewrite ascii_to_unsigned_decimal; try assumption;
      try (cbn; unfold bencode.STRING; lia);
      try (cbn; unfold bencode.STRING, Genode.digit; simpl; lia);
      try (rewrite Hval; lia).
    rewrite Hval. fold n.
    rewrite (wrap64_small (Strview.length a + 1)) by lia.
    f_equal. f_equal. unfold Genode.min, pdiff.
    rewrite wrap64_small by lia.
    destruct (Z.ltb_spec n (off lst - off q - 1)); [reflexivity | lia].
  - apply from_app in Hmem. fold n in Hmem. cbn [app] in Hmem.
    apply from_cons in Hmem as (Hld & _). exact Hld.
Qed.

(** The tag at the start of a printed value is none of the digits. *)
Lemma print_tag (m : memory) (v : variant) :
  encodable v = true ->
  (forall a, v <> String a) ->
  exists (k : Z) (s : list Z),
    print m v = k :: s
    /\ (k = bencode.INTEGER \/ k = bencode.LIST \/ k = bencode.DICT).
Proof.
  intros Henc Hns. destruct v as [a|a|e|a|a].
  - eexists. eexists. split; [reflexivity | left; reflexivity].
  - destruct a; [discriminate|].
    eexists. eexists. split; [reflexivity | right; right; reflexivity].
  - destruct e; [discriminate|].
    eexists. eexists. split; [reflexivity | right; left; reflexivity].
  - exfalso. apply (Hns a). reflexivity.
  - discriminate.
Qed.

Section skipping.

Context {T : Type} {node_T : bencode.Node T}.
Variable m : memory.
Variable lst : ptr.

(** One activation of [next]. *)
Lemma next_S (stack fuel : nat) (this : T) :
  bencode.next m (S stack) fuel this
  = let o := bencode.base this in
    if bencode._len o =? 0 then
      let k := bencode.type m o in
      if k =? bencode.END then bencode.Done (bencode.Throw bencode.invalid_buffer)
      else if k =? bencode.REC_END
      then bencode.Done (bencode.Throw bencode.reached_end)
      else if k =? bencode.INTEGER then
        match bencode.object_integer m o with
        | bencode.Ok (_, o') =>
            bencode.Done
              (bencode.Ok
                 (bencode.construct m (bencode.object_end o') (bencode._last o)))
        | bencode.Throw e => bencode.Done (bencode.Throw e)
        end
      else if (k =? bencode.LIST) || (k =? bencode.DICT) then
        bencode.and_then
          (bencode.skipall m stack fuel
             (bencode.construct m (padd (bencode._pos o) 1) (bencode._last o)))
          (fun e =>
             let len := wrap64 (pdiff e (bencode._pos o)) in
             bencode.Done
               (bencode.Ok
                  (bencode.construct m (padd (bencode._pos o) len)
                     (bencode._last o))))
      else if k =? bencode.STRING then
        bencode.Done
          (bencode.Ok
             (bencode.construct m (padd (bencode._pos o) 1) (bencode._last o)))
      else bencode.Done (bencode.Throw bencode.invalid_buffer)
    else
      bencode.Done
        (bencode.Ok (bencode.construct m (bencode.object_end o) (bencode._last o))).
Proof. reflexivity. Qed.

Lemma skipall_S' (stack fuel : nat) (this : T) :
  bencode.skipall m (S stack) fuel this
  = bencode.skipall_loop m (bencode.next m stack fuel) fuel this.
Proof. reflexivity. Qed.

Lemma skips_string (stack fuel : nat) (a : strview) :
  string_ok a = true -> @skips T node_T m lst (S stack) fuel (String a).
Proof.
  intros Hok t q rest Hbase Hmem Hlim. cbn [print] in *.
  destruct (object_at_print_string m q lst a rest Hmem Hok Hlim) as (Hobj & Hld).
  unfold string_ok in Hok. apply andb_true_iff in Hok as [H0 H1].
  apply Z.leb_le in H0. apply Z.ltb_lt in H1.
  rewrite next_S, Hbase, Hobj. cbv zeta.
  cbn [bencode._len bencode._pos bencode._last].
  rewrite print_string_length by exact H0.
  unfold bencode.type. cbn [bencode._pos]. rewrite Hld.
  destruct (Strview.length a =? 0) eqn:E.
  - apply Z.eqb_eq in E.
    change (0 =? 0) with true. cbv iota.
    change (bencode.STRING =? bencode.END) with false.
    change (bencode.STRING =? bencode.REC_END) with false.
    change (bencode.STRING =? bencode.INTEGER) with false.
    change (bencode.STRING =? bencode.LIST) with false.
    change (bencode.STRING =? bencode.DICT) with false.
    change (bencode.STRING =? bencode.STRING) with true.
    cbn [orb]. cbv iota. rewrite padd_padd.
    do 3 f_equal. f_equal. lia.
  - apply Z.eqb_neq in E.
    replace (Strview.length a + 1 =? 0) with false
      by (symmetry; apply Z.eqb_neq; lia).
    unfold bencode.object_end. cbn [bencode._pos bencode._len].
    rewrite padd_padd. do 3 f_equal. f_equal. lia.
Qed.

Lemma out_signed_length (a : Z) :
  - 2 ^ 63 < a < 2 ^ 63 ->
  Z.of_nat (List.length (Output.out_signed a)) + 2 < 2 ^ 64.
Proof.
  intros Ha. unfold Output.out_signed.
  rewrite length_rev, length_app.
  assert (Hfill : forall n v, (List.length (Output.fill n v) <= n)%nat).
  { induction n as [|n IH]; intros v; cbn [Output.fill]; [simpl; lia|].
    destruct (0 <? v); simpl; [specialize (IH (v / 10)); lia | lia]. }
  set (v := to_long _).
  assert (Hl : (List.length (if (v =? 0)%Z then [Output.ascii 0]
                             else Output.fill Output.buf_size v) <= 24)%nat).
  { destruct (v =? 0); [simpl; lia | apply Hfill]. }
  assert (Hs : (List.length (if (a <? 0)%Z then [45%Z] else []) <= 1)%nat)
    by (destruct (a <? 0); simpl; lia).
  change (2 ^ 64) with 18446744073709551616. lia.
Qed.

Lemma skips_integer (stack fuel : nat) (a : Z) :
  - 2 ^ 63 < a < 2 ^ 63 -> @skips T node_T m lst (S stack) fuel (Integer a).
Proof.
  intros Ha t q rest Hbase Hmem Hlim. cbn [print] in *.
  cbn [app] in Hmem. rewrite <- app_assoc in Hmem. cbn [app] in Hmem.
  pose proof Hmem as Hq. apply from_cons in Hq as (Hld & Hq & _).
  rewrite next_S, Hbase.
  rewrite (object_at_tag m q lst)
    by (rewrite Hld; unfold is_decimal, bencode.INTEGER; lia).
  cbv zeta. cbn [bencode._len bencode._pos bencode._last].
  unfold bencode.type at 1 2 3. cbn [bencode._pos]. rewrite Hld.
  change (0 =? 0) with true. cbv iota.
  change (bencode.INTEGER =? bencode.END) with false.
  change (bencode.INTEGER =? bencode.REC_END) with false.
  change (bencode.INTEGER =? bencode.INTEGER) with true. cbv iota.
  unfold bencode.object_integer, bencode.validate_type, bencode.type.
  cbn [bencode._pos bencode._last]. rewrite Hld, Z.eqb_refl.
  cbn [bencode.bind]. rewrite Hq.
  rewrite ascii_to_long_out_signed;
    try exact Ha; try (cbn; unfold bencode.REC_END; lia);
    try (cbn; unfold bencode.REC_END, Genode.digit; simpl; lia).
  unfold bencode.object_end. cbn [bencode._pos bencode._len].
  pose proof (out_signed_length a Ha).
  rewrite wrap64_small by lia.
  do 3 f_equal. f_equal. rewrite !zlen_app. simpl List.length. lia.
Qed.

Hypothesis loop : @loop_skips T node_T m lst.

Lemma skips_items (stack fuel : nat) (v : variant) :
  encodable v = true ->
  (exists e, v = List e) \/ (exists a, v = Dict a) ->
  Forall (fun x => encodable x = true /\ @skips T node_T m lst stack fuel x) (items v) ->
  (List.length (items v) < fuel)%nat ->
  @skips T node_T m lst (S (S stack)) fuel v.
Proof.
  intros Henc Hkind Hitems Hfuel t q rest Hbase Hmem Hlim.
  destruct (print_items m v Henc Hkind) as (k & Hk & Hprint).
  rewrite Hprint in *. cbn [app] in Hmem. rewrite <- app_assoc in Hmem.
  cbn [app] in Hmem.
  pose proof Hmem as Hq. apply from_cons in Hq as (Hld & Hq & _).
  rewrite next_S, Hbase.
  rewrite (object_at_tag m q lst)
    by (rewrite Hld; destruct Hk; subst k;
        unfold is_decimal, bencode.LIST, bencode.DICT; lia).
  cbv zeta. cbn [bencode._len bencode._pos bencode._last].
  unfold bencode.type. cbn [bencode._pos]. rewrite Hld.
  change (0 =? 0) with true. cbv iota.
  assert (Hsel : (k =? bencode.END) = false /\ (k =? bencode.REC_END) = false
                 /\ (k =? bencode.INTEGER) = false
                 /\ ((k =? bencode.LIST) || (k =? bencode.DICT)) = true).
  { destruct Hk; subst k; repeat split; reflexivity. }
  destruct Hsel as (-> & -> & -> & ->).
  rewrite skipall_S'.
  assert (Hlen : Z.of_nat (List.length
                   (k :: print_all m (items v) ++ [bencode.REC_END]))
                 = Z.of_nat (List.length (print_all m (items v))) + 2).
  { cbn [List.length]. rewrite length_app. simpl List.length. lia. }
  rewrite Hlen in *.
  rewrite (loop stack fuel fuel (items v) (padd q 1) rest Hitems Hq)
    by (cbn [padd off]; lia).
  cbn [bencode.and_then]. unfold pdiff. cbn [padd off].
  rewrite wrap64_small by lia.
  do 3 f_equal. f_equal. lia.
Qed.

(** [next] skips every value that the encoder prints, given a call stack
    for twice its depth and a loop budget for its widest list. *)
Lemma next_skips_encoded (v : variant) :
  forall stack fuel : nat,
    encodable v = true ->
    (2 * depth v < stack)%nat ->
    (width v < fuel)%nat ->
    @skips T node_T m lst stack fuel v.
Proof.
  induction v as [a|a IHa|e IHe|a|a| |x IHx e IHe| |l IHl key value IHv r IHr]
    using variant_mut
    with (P0 := fun e => forall stack fuel : nat,
                  elem_encodable e = true ->
                  (2 * elem_depth e < stack)%nat ->
                  (elem_width e < fuel)%nat ->
                  Forall (fun x => encodable x = true /\ @skips T node_T m lst stack fuel x)
                    (elems e))
         (P1 := fun a => forall stack fuel : nat,
                  assoc_encodable a = true ->
                  (2 * assoc_depth a < stack)%nat ->
                  (assoc_width a < fuel)%nat ->
                  Forall (fun x => encodable x = true /\ @skips T node_T m lst stack fuel x)
                    (flat_map entry_items (entries a))).
  - (* Integer *)
    intros stack fuel Henc Hstack _. destruct stack as [|stack]; [lia|].
    cbn [encodable] in Henc. apply andb_true_iff in Henc as [H1 H2].
    apply Z.ltb_lt in H1. apply Z.ltb_lt in H2.
    apply skips_integer. lia.
  - (* Dict *)
    intros stack fuel Henc Hstack Hfuel. cbn [depth width] in *.
    destruct stack as [|[|stack]]; try lia.
    apply skips_items; [exact Henc | right; eexists; reflexivity | |].
    + cbn [items]. apply IHa; [destruct a; [discriminate | exact Henc] | lia | lia].
    + cbn [items]. rewrite entry_items_length. lia.
  - (* List *)
    intros stack fuel Henc Hstack Hfuel. cbn [depth width] in *.
    destruct stack as [|[|stack]]; try lia.
    apply skips_items; [exact Henc | left; eexists; reflexivity | |].
    + cbn [items]. apply IHe; [destruct e; [discriminate | exact Henc] | lia | lia].
    + cbn [items]. lia.
  - (* String *)
    intros stack fuel Henc Hstack _. destruct stack as [|stack]; [lia|].
    apply skips_string. exact Henc.
  - (* Raw *)
    intros stack fuel Henc. discriminate.
  - (* elem_null *)
    intros. constructor.
  - (* elem_at *)
    intros stack fuel Henc Hstack Hfuel. cbn [elem_encodable elem_depth elem_width elems] in *.
    apply andb_true_iff in Henc as [H1 H2].
    constructor.
    + split; [exact H1|]. apply IHx; [exact H1 | lia | lia].
    + apply IHe; [exact H2 | lia | lia].
  - (* assoc_null *)
    intros. constructor.
  - (* assoc_at *)
    intros stack fuel Henc Hstack Hfuel.
    cbn [assoc_encodable assoc_depth assoc_width entries] in *.
    apply andb_true_iff in Henc as [Henc H4].
    apply andb_true_iff in Henc as [Henc H3].
    apply andb_true_iff in Henc as [H1 H2].
    rewrite flat_map_app. apply Forall_app. split.
    + apply IHl; [exact H1 | lia | lia].
    + cbn [flat_map entry_items Datatypes.fst Datatypes.snd app].
      constructor; [|constructor].
      * split; [exact H2|]. destruct stack as [|stack]; [lia|].
        apply skips_string. exact H2.
      * split; [exact H3|]. apply IHv; [exact H3 | lia | lia].
      * apply IHr; [exact H4 | lia | lia].
Qed.

End skipping.

Lemma print_all_cons (m : memory) (x : variant) (xs : list variant) :
  print_all m (x :: xs) = print m x ++ print_all m xs.
Proof. reflexivity. Qed.

(** The object constructed on the closing of a list. *)
Lemma object_at_rec_end (m : memory) (q lst : ptr) (rest : list Z) :
  from m q = bencode.REC_END :: rest ->
  bencode.object_at m q lst
  = {| bencode._len := 0; bencode._pos := q; bencode._last := lst |}
  /\ bencode.type m (bencode.object_at m q lst) = bencode.REC_END.
Proof.
  intros Hmem. apply from_cons in Hmem as (Hld & _ & _).
  assert (Hobj := object_at_tag m q lst).
  rewrite Hobj by (rewrite Hld; unfold is_decimal, bencode.REC_END; lia).
  split; [reflexivity | exact Hld].
Qed.

(** The object constructed where a printed value begins: it does not sit on
    the closing of a list; unless the value is a string with characters, it
    has no length yet, and constructing again at its end gives the same
    object. *)
Lemma object_at_value (m : memory) (q lst : ptr) (x : variant)
    (rest : list Z) :
  encodable x = true ->
  from m q = print m x ++ rest ->
  off q + Z.of_nat (List.length (print m x)) <= off lst < off q + 2 ^ 64 ->
  (bencode.type m (bencode.object_at m q lst) =? bencode.REC_END) = false
  /\ ((exists a, x = String a /\ Strview.length a <> 0
                 /\ bencode.object_end (bencode.object_at m q lst)
                    = padd q (Z.of_nat (List.length (print m x))))
      \/ bencode.object_at m (bencode.object_end (bencode.object_at m q lst)) lst
         = bencode.object_at m q lst).
Proof.
  intros Henc Hmem Hlim.
  assert (Hstr : forall a, x = String a ->
            (bencode.type m (bencode.object_at m q lst) =? bencode.REC_END) = false
            /\ ((exists a, x = String a /\ Strview.length a <> 0
                   /\ bencode.object_end (bencode.object_at m q lst)
                      = padd q (Z.of_nat (List.length (print m x))))
                \/ bencode.object_at m
                     (bencode.object_end (bencode.object_at m q lst)) lst
                   = bencode.object_at m q lst)).
  { intros a ->. cbn [print encodable] in *.
    destruct (object_at_print_string m q lst a rest Hmem Henc Hlim) as (Hobj & Hld).
    unfold string_ok in Henc. apply andb_true_iff in Henc as [H0 H1].
    apply Z.leb_le in H0. apply Z.ltb_lt in H1.
    rewrite Hobj. unfold bencode.type. cbn [bencode._pos]. rewrite Hld.
    split; [reflexivity|].
    unfold bencode.object_end. cbn [bencode._pos bencode._len].
    destruct (Strview.length a =? 0) eqn:E.
    - right. rewrite padd_0.
      rewrite (object_at_tag m _ lst)
        by (rewrite Hld; unfold is_decimal, bencode.STRING; lia).
      reflexivity.
    - left. exists a. apply Z.eqb_neq in E.
      split; [reflexivity | split; [exact E|]].
      rewrite padd_padd, print_string_length by exact H0. f_equal. lia. }
  destruct x as [a|a|e|a|a]; try (apply (Hstr _ eq_refl)); try discriminate.
  all: destruct (print_tag m _ Henc ltac:(discriminate)) as (k & s & Hp & Hk);
    rewrite Hp in Hmem; cbn [app] in Hmem;
    apply from_cons in Hmem as (Hld & _ & _);
    rewrite (object_at_tag m q lst)
      by (rewrite Hld; destruct Hk as [->|[->| ->]];
          unfold is_decimal, bencode.INTEGER, bencode.LIST, bencode.DICT; lia);
    unfold bencode.type, bencode.object_end; cbn [bencode._pos bencode._len];
    rewrite Hld, padd_0;
    (split; [destruct Hk as [->|[->| ->]]; reflexivity|]);
    right;
    rewrite (object_at_tag m q lst)
      by (rewrite Hld; destruct Hk as [->|[->| ->]];
          unfold is_decimal, bencode.INTEGER, bencode.LIST, bencode.DICT; lia);
    reflexivity.
Qed.

(** The loop of [skipall] on a list: one value for each iteration. *)
Lemma loop_skips_list (m : memory) (lst : ptr) :
  @loop_skips bencode.object bencode.Node_list m lst.
Proof.
  intros stack fuel n xs. revert n.
  induction xs as [|x xs IH]; intros n q rest Hxs Hmem Hlim Hn.
  - destruct n as [|n]; [simpl in Hn; lia|].
    cbn [print_all map List.concat app] in Hmem.
    destruct (object_at_rec_end m q lst rest Hmem) as (_ & Hty).
    rewrite skipall_loop_S. cbn [bencode.construct bencode.Node_list].
    rewrite Hty, Z.eqb_refl.
    rewrite (proj1 (object_at_rec_end m q lst rest Hmem)).
    reflexivity.
  - destruct n as [|n]; [simpl in Hn; lia|].
    inversion Hxs as [|? ? [Henc Hskip] Hxs']; subst.
    rewrite print_all_cons in *. rewrite <- app_assoc in Hmem.
    rewrite zlen_app in Hlim.
    assert (Hx : off q + Z.of_nat (List.length (print m x)) <= off lst
                 < off q + 2 ^ 64) by lia.
    destruct (object_at_value m q lst x _ Henc Hmem Hx) as (Hty & _).
    rewrite skipall_loop_S. cbn [bencode.construct bencode.Node_list].
    rewrite Hty.
    rewrite (Hskip (bencode.object_at m q lst) q _ eq_refl Hmem Hx).
    cbn [bencode.and_then bencode.construct bencode.Node_list].
    apply from_app in Hmem.
    pose proof (IH n (padd q (Z.of_nat (List.length (print m x)))) rest Hxs' Hmem)
      as Hrec.
    cbn [bencode.construct bencode.Node_list] in Hrec.
    rewrite Hrec by (cbn [padd off]; simpl in Hn; lia).
    rewrite padd_padd, zlen_app. do 3 f_equal. lia.
Qed.

Lemma skipall_loop_dict_S (m : memory)
    (nxt : bencode.bdict -> bencode.outcome (bencode.result bencode.bdict))
    (n : nat) (d : bencode.bdict) :
  bencode.skipall_loop m nxt (S n) d
  = if bencode.type m (bencode.dict_object d) =? bencode.REC_END
    then bencode.Done (bencode.Ok (padd (bencode._pos (bencode.dict_object d)) 1))
    else bencode.and_then (nxt d)
           (fun d' => bencode.skipall_loop m nxt n d').
Proof. reflexivity. Qed.

(** The loop of [skipall] on the values of a list or dict that is nested
    in a dict: the nodes are constructed as entries, so that a string with
    characters is taken for a key and the value after it for the node. *)
Lemma loop_skips_dict (m : memory) (lst : ptr) :
  @loop_skips bencode.bdict bencode.Node_dict m lst.
Proof.
  intros stack fuel n xs.
  pose (k := List.length xs).
  assert (Hle : (List.length xs <= k)%nat) by (unfold k; lia).
  clearbody k. revert n xs Hle.
  induction k as [|k IH]; intros n xs Hle q rest Hxs Hmem Hlim Hn.
  - destruct xs; [|simpl in Hle; lia].
    destruct n as [|n]; [simpl in Hn; lia|].
    cbn [print_all map List.concat app] in Hmem.
    destruct (object_at_rec_end m q lst rest Hmem) as (Hobj & Hty).
    rewrite skipall_loop_dict_S.
    cbn [bencode.construct bencode.Node_dict].
    unfold bencode.dict_create. cbn [bencode.dict_object].
    assert (Hend : bencode.object_end (bencode.object_at m q lst) = q).
    { rewrite Hobj. unfold bencode.object_end. cbn [bencode._pos bencode._len].
      apply padd_0. }
    rewrite Hend, Hty, Z.eqb_refl, Hobj. reflexivity.
  - destruct xs as [|x xs].
    { apply (IH n [] ltac:(simpl; lia) q rest Hxs Hmem Hlim Hn). }
    destruct n as [|n]; [simpl in Hn; lia|].
    inversion Hxs as [|? ? [Henc Hskip] Hxs']; subst.
    rewrite print_all_cons in *. rewrite <- app_assoc in Hmem.
    rewrite zlen_app in Hlim.
    assert (Hx : off q + Z.of_nat (List.length (print m x)) <= off lst
                 < off q + 2 ^ 64) by lia.
    destruct (object_at_value m q lst x _ Henc Hmem Hx) as (Hty & Hend).
    rewrite skipall_loop_dict_S.
    set (q1 := padd q (Z.of_nat (List.length (print m x)))).
    assert (Hq1 : from m q1 = print_all m xs ++ bencode.REC_END :: rest)
      by (apply from_app in Hmem; exact Hmem).
    destruct Hend as [(a & -> & Hlen & Hend)|Hsame].
    + (* a key: the node is the value after it *)
      cbn [bencode.construct bencode.Node_dict].
      unfold bencode.dict_create at 1 2. cbn [bencode.dict_object].
      rewrite Hend. fold q1.
      destruct xs as [|y xs].
      * cbn [print_all map List.concat app] in Hq1.
        destruct (object_at_rec_end m q1 lst rest Hq1) as (Hobj & Hty1).
        rewrite Hty1, Z.eqb_refl, Hobj. cbn [bencode._pos].
        unfold q1. rewrite padd_padd. cbn [print_all map List.concat].
        rewrite app_nil_r. reflexivity.
      * inversion Hxs' as [|? ? [Hency Hskipy] Hxs'']; subst.
        rewrite print_all_cons in *. rewrite <- app_assoc in Hq1.
        rewrite zlen_app in Hlim.
        assert (Hy : off q1 + Z.of_nat (List.length (print m y)) <= off lst
                     < off q1 + 2 ^ 64) by (unfold q1; cbn [padd off]; lia).
        destruct (object_at_value m q1 lst y _ Hency Hq1 Hy) as (Hty1 & _).
        rewrite Hty1.
        rewrite (Hskipy (bencode.dict_create m q lst) q1
                   (print_all m xs ++ bencode.REC_END :: rest)).
        -- cbn [bencode.and_then].
           apply from_app in Hq1.
           rewrite (IH n xs ltac:(simpl in Hle; lia) _ rest Hxs'' Hq1)
             by (unfold q1; cbn [padd off]; simpl in Hn; lia).
           unfold q1. rewrite !padd_padd, !zlen_app. do 3 f_equal. lia.
        -- cbn [bencode.base bencode.Node_dict].
           unfold bencode.dict_create. cbn [bencode.dict_object].
           rewrite Hend. reflexivity.
        -- exact Hq1.
        -- exact Hy.
    + (* no key: the node is the value itself *)
      assert (Hbase : bencode.dict_object (bencode.dict_create m q lst)
                      = bencode.object_at m q lst).
      { unfold bencode.dict_create. cbn [bencode.dict_object]. exact Hsame. }
      cbn [bencode.construct bencode.Node_dict].
      rewrite Hbase, Hty.
      rewrite (Hskip (bencode.dict_create m q lst) q _ Hbase Hmem Hx).
      cbn [bencode.and_then]. fold q1.
      rewrite (IH n xs ltac:(simpl in Hle; lia) q1 rest Hxs' Hq1)
        by (unfold q1; cbn [padd off]; simpl in Hn; lia).
      unfold q1. rewrite padd_padd, zlen_app. do 3 f_equal. lia.
Qed.

Lemma bytes_at_S (m : memory) (p : ptr) (n : nat) :
  bytes_at m p (Z.of_nat (S n))
  = load m p :: bytes_at m (padd p 1) (Z.of_nat n).
Proof.
  unfold bytes_at. rewrite !Nat2Z.id. cbn [seq map].
  rewrite padd_0. f_equal.
  rewrite <- seq_shift, map_map. apply map_ext. intros i.
  rewrite padd_padd. f_equal. f_equal. lia.
Qed.

(** The bytes at a pointer are those that the allocation holds from it. *)
Lemma from_bytes_at (m : memory) (p : ptr) (s rest : list Z) :
  from m p = s ++ rest -> bytes_at m p (Z.of_nat (List.length s)) = s.
Proof.
  revert p. induction s as [|c s IH]; intros p H; [reflexivity|].
  cbn [List.length]. rewrite bytes_at_S.
  cbn [app] in H. apply from_cons in H as (Hld & H & _).
  rewrite Hld, (IH _ H). reflexivity.
Qed.

(** X1.  An integer that the encoder prints is read back by [integer()],
    which caches the length of what was printed. *)
Theorem integer_round_trip (m : memory) (q lst : ptr) (a : Z)
    (rest : list Z) :
  - 2 ^ 63 < a < 2 ^ 63 ->
  from m q = print m (Integer a) ++ rest ->
  bencode.object_integer m (bencode.object_at m q lst)
  = bencode.Ok
      (a, {| bencode._len := Z.of_nat (List.length (print m (Integer a)));
             bencode._pos := q; bencode._last := lst |}).
Proof.
  intros Ha Hmem. cbn [print] in *.
  cbn [app] in Hmem. rewrite <- app_assoc in Hmem. cbn [app] in Hmem.
  pose proof Hmem as Hq. apply from_cons in Hq as (Hld & Hq & _).
  rewrite (object_at_tag m q lst)
    by (rewrite Hld; unfold is_decimal, bencode.INTEGER; lia).
  unfold bencode.object_integer, bencode.validate_type, bencode.type.
  cbn [bencode._pos bencode._last]. rewrite Hld, Z.eqb_refl.
  cbn [bencode.bind]. rewrite Hq.
  rewrite ascii_to_long_out_signed;
    try exact Ha; try (cbn; unfold bencode.REC_END; lia);
    try (cbn; unfold bencode.REC_END, Genode.digit; simpl; lia).
  pose proof (out_signed_length a Ha).
  rewrite wrap64_small by lia.
  do 3 f_equal. rewrite !zlen_app. simpl List.length. lia.
Qed.

Lemma integer_round_trip_witness :
  let m := [bytes_of_string "i-1234567890e"] in
  bencode.object_integer m (bencode.object_at m (mkptr 0 0) (mkptr 0 13))
  = bencode.Ok
      (-1234567890,
       {| bencode._len := 13; bencode._pos := mkptr 0 0;
          bencode._last := mkptr 0 13 |}).
Proof.
  intros m.
  apply (integer_round_trip m (mkptr 0 0) (mkptr 0 13) (-1234567890) []).
  - lia.
  - reflexivity.
Defined.

(** [string()] on a string that the encoder printed. *)
Lemma print_string_decodes (m : memory) (q lst : ptr) (a : strview)
    (rest : list Z) :
  string_ok a = true ->
  from m q = print m (String a) ++ rest ->
  off q + Z.of_nat (List.length (print m (String a))) <= off lst
    < off q + 2 ^ 64 ->
  let s :=
    {| Strview.start :=
         padd q (Z.of_nat (List.length
                             (Output.out_unsigned (Strview.length a))) + 1);
       Strview.length := Strview.length a |} in
  bencode.object_string m (bencode.object_at m q lst) = bencode.Ok s
  /\ Strview.content m s = Strview.content m a.
Proof.
  intros Hok Hmem Hlim s. cbn [print] in *.
  destruct (object_at_print_string m q lst a rest Hmem Hok Hlim) as (Hobj & Hld).
  unfold string_ok in Hok. apply andb_true_iff in Hok as [H0 H1].
  apply Z.leb_le in H0. apply Z.ltb_lt in H1.
  rewrite print_string_length in Hlim by exact H0.
  set (n := Z.of_nat (List.length (Output.out_unsigned (Strview.length a)))) in *.
  rewrite Hobj.
  unfold bencode.object_string, bencode.validate_type, bencode.type.
  cbn [bencode._pos bencode._len]. rewrite Hld, Z.eqb_refl.
  cbn [bencode.bind]. unfold bencode.validate_len, bencode.rem, pdiff.
  cbn [bencode._pos bencode._last bencode._len padd off].
  rewrite wrap64_small by lia.
  assert (Hfit : (off lst - (off q + n)
                  <? (if Strview.length a =? 0 then 0 else Strview.length a + 1))
                 = false).
  { apply Z.ltb_ge. destruct (Strview.length a =? 0); lia. }
  rewrite Hfit. cbn [bencode.bind].
  assert (Hlen : (if (if Strview.length a =? 0 then 0 else Strview.length a + 1)
                      =? 0
                  then 0
                  else (if Strview.length a =? 0 then 0
                        else Strview.length a + 1) - 1)
                 = Strview.length a).
  { destruct (Strview.length a =? 0) eqn:E.
    - apply Z.eqb_eq in E. rewrite E. reflexivity.
    - replace (Strview.length a + 1 =? 0) with false
        by (symmetry; apply Z.eqb_neq; lia).
      lia. }
  rewrite Hlen, padd_padd.
  split; [reflexivity|].
  unfold s, Strview.content at 1. cbn [Strview.length Strview.start].
  unfold print_string in Hmem. rewrite <- app_assoc in Hmem.
  apply from_app in Hmem. fold n in Hmem. cbn [app] in Hmem.
  apply from_cons in Hmem as (_ & Hmem & _). rewrite padd_padd in Hmem.
  rewrite <- (content_length m a H0) at 1.
  apply (from_bytes_at m _ _ rest). exact Hmem.
Qed.

(** X2.  A string that the encoder prints is read back by [string()] as a
    view of as many bytes with the same content, which begins after the
    colon. *)
Theorem string_round_trip (m : memory) (q lst : ptr) (a : strview)
    (rest : list Z) :
  string_ok a = true ->
  from m q = print m (String a) ++ rest ->
  off q + Z.of_nat (List.length (print m (String a))) <= off lst
    < off q + 2 ^ 64 ->
  let s :=
    {| Strview.start :=
         padd q (Z.of_nat (List.length
                             (Output.out_unsigned (Strview.length a))) + 1);
       Strview.length := Strview.length a |} in
  bencode.object_string m (bencode.object_at m q lst) = bencode.Ok s
  /\ Strview.content m s = Strview.content m a.
Proof. exact (print_string_decodes m q lst a rest). Qed.

Lemma string_round_trip_witness :
  let m := [bytes_of_string "5:rgb32e"; bytes_of_string "rgb32"] in
  let a := {| Strview.start := mkptr 1 0; Strview.length := 5 |} in
  let s := {| Strview.start := mkptr 0 2; Strview.length := 5 |} in
  bencode.object_string m (bencode.object_at m (mkptr 0 0) (mkptr 0 7))
  = bencode.Ok s
  /\ Strview.content m s = bytes_of_string "rgb32".
Proof.
  intros m a s.
  apply (string_round_trip m (mkptr 0 0) (mkptr 0 7) a [101]).
  - reflexivity.
  - reflexivity.
  - vm_compute. split; [discriminate | reflexivity].
Defined.

(** [next()] on a list node and on a dict node at a value that the encoder
    printed. *)
Lemma printed_value_skipped (m : memory) (q lst : ptr) (v : variant)
    (rest : list Z) (stack fuel : nat) :
  encodable v = true ->
  from m q = print m v ++ rest ->
  off q + Z.of_nat (List.length (print m v)) <= off lst < off q + 2 ^ 64 ->
  (2 * depth v < stack)%nat ->
  (width v < fuel)%nat ->
  let q' := padd q (Z.of_nat (List.length (print m v))) in
  bencode.next m stack fuel (bencode.object_at m q lst)
  = bencode.Done (bencode.Ok (bencode.object_at m q' lst))
  /\ forall d : bencode.bdict,
       bencode.dict_object d = bencode.object_at m q lst ->
       bencode.next m stack fuel d
       = bencode.Done (bencode.Ok (bencode.dict_create m q' lst)).
Proof.
  intros Henc Hmem Hlim Hstack Hfuel q'. split.
  - apply (next_skips_encoded m lst (loop_skips_list m lst) v stack fuel
             Henc Hstack Hfuel (bencode.object_at m q lst) q rest eq_refl
             Hmem Hlim).
  - intros d Hd.
    apply (next_skips_encoded m lst (loop_skips_dict m lst) v stack fuel
             Henc Hstack Hfuel d q rest Hd Hmem Hlim).
Qed.

(** X3.  [next()] moves a node from the start of a value that the encoder
    printed to the first byte after it, a list node as well as a dict node,
    when the call stack admits one activation more than twice the depth of
    the value and the loop of [skipall] one iteration more than the number
    of values in its widest list or dict. *)
Theorem next_skips_printed_value (m : memory) (q lst : ptr) (v : variant)
    (rest : list Z) (stack fuel : nat) :
  encodable v = true ->
  from m q = print m v ++ rest ->
  off q + Z.of_nat (List.length (print m v)) <= off lst < off q + 2 ^ 64 ->
  (2 * depth v < stack)%nat ->
  (width v < fuel)%nat ->
  let q' := padd q (Z.of_nat (List.length (print m v))) in
  bencode.next m stack fuel (bencode.object_at m q lst)
  = bencode.Done (bencode.Ok (bencode.object_at m q' lst))
  /\ forall d : bencode.bdict,
       bencode.dict_object d = bencode.object_at m q lst ->
       bencode.next m stack fuel d
       = bencode.Done (bencode.Ok (bencode.dict_create m q' lst)).
Proof. exact (printed_value_skipped m q lst v rest stack fuel). Qed.

Lemma next_skips_printed_value_witness :
  let m := [bytes_of_string "ld1:ali7e3:abcee2:xyi-5eee"] in
  let abc := {| Strview.start := mkptr 0 11; Strview.length := 3 |} in
  let a := {| Strview.start := mkptr 0 4; Strview.length := 1 |} in
  let xy := {| Strview.start := mkptr 0 18; Strview.length := 2 |} in
  let v := List (cons [Dict (assoc_at assoc_null a
                               (List (cons [Integer 7; String abc]))
                               assoc_null);
                       String xy; Integer (-5)]) in
  print m v = bytes_of_string "ld1:ali7e3:abcee2:xyi-5ee"
  /\ bencode.next m 7 4 (bencode.object_at m (mkptr 0 0) (mkptr 0 26))
     = bencode.Done
         (bencode.Ok (bencode.object_at m (mkptr 0 25) (mkptr 0 26))).
Proof.
  intros m abc a xy v. split; [reflexivity|].
  apply (next_skips_printed_value m (mkptr 0 0) (mkptr 0 26) v [101] 7 4).
  - reflexivity.
  - reflexivity.
  - vm_compute. split; [discriminate | reflexivity].
  - vm_compute. lia.
  - vm_compute. lia.
Defined.

Lemma Forall_encodable_skips (m : memory) (lst : ptr) (stack fuel : nat)
    (vs : list variant) :
  Forall (fun x => encodable x = true /\ (2 * depth x < stack)%nat
                   /\ (width x < fuel)%nat) vs ->
  Forall (fun x => encodable x = true
                   /\ @skips bencode.object bencode.Node_list m lst stack fuel x)
    vs.
Proof.
  intros H. eapply Forall_impl; [|exact H].
  intros x (Henc & Hd & Hw). split; [exact Henc|].
  apply (next_skips_encoded m lst (loop_skips_list m lst)); assumption.
Qed.

(** X4.  In a printed list, [next(n)] moves the head from the first value to
    the value after the first [n + 1], or to the closing of the list when
    there are no more. *)
Theorem next_n_on_printed_list (m : memory) (q lst : ptr)
    (vs : list variant) (rest : list Z) (stack fuel n : nat) :
  Forall (fun x => encodable x = true /\ (2 * depth x < stack)%nat
                   /\ (width x < fuel)%nat) vs ->
  from m q = print_all m vs ++ bencode.REC_END :: rest ->
  off q + Z.of_nat (List.length (print_all m vs)) <= off lst < off q + 2 ^ 64 ->
  (n < List.length vs)%nat ->
  bencode.next_n m stack fuel n (bencode.object_at m q lst)
  = bencode.Done
      (bencode.Ok
         (bencode.object_at m
            (padd q (Z.of_nat (List.length (print_all m (firstn (S n) vs)))))
            lst)).
Proof.
  revert q vs. induction n as [|n IH]; intros q vs Hvs Hmem Hlim Hn.
  - destruct vs as [|x vs]; [simpl in Hn; lia|].
    inversion Hvs as [|? ? (Henc & Hd & Hw) Hvs']; subst.
    rewrite print_all_cons in *. rewrite <- app_assoc in Hmem.
    rewrite zlen_app in Hlim.
    cbn [bencode.next_n firstn].
    destruct (printed_value_skipped m q lst x _ stack fuel Henc Hmem
                ltac:(lia) Hd Hw) as (Hnext & _).
    rewrite Hnext. cbn [bencode.and_then].
    unfold print_all. cbn [map List.concat]. rewrite app_nil_r. reflexivity.
  - destruct vs as [|x vs]; [simpl in Hn; lia|].
    inversion Hvs as [|? ? (Henc & Hd & Hw) Hvs']; subst.
    rewrite print_all_cons in *. rewrite <- app_assoc in Hmem.
    rewrite zlen_app in Hlim.
    cbn [bencode.next_n].
    destruct (printed_value_skipped m q lst x _ stack fuel Henc Hmem
                ltac:(lia) Hd Hw) as (Hnext & _).
    rewrite Hnext. cbn [bencode.and_then].
    apply from_app in Hmem.
    rewrite (IH _ vs Hvs' Hmem) by (cbn [padd off]; simpl in Hn; lia).
    rewrite padd_padd.
    change (firstn (S (S n)) (x :: vs)) with (x :: firstn (S n) vs).
    rewrite print_all_cons, zlen_app. reflexivity.
Qed.

Lemma next_n_on_printed_list_witness :
  let m := [bytes_of_string "l4:drawi1ei0ei0ei2ei2e5:rgb320:i5ei8ee"] in
  let draw := {| Strview.start := mkptr 0 3; Strview.length := 4 |} in
  let rgb32 := {| Strview.start := mkptr 0 24; Strview.length := 5 |} in
  let empty := {| Strview.start := mkptr 0 31; Strview.length := 0 |} in
  let vs := [String draw; Integer 1; Integer 0; Integer 0; Integer 2;
             Integer 2; String rgb32; String empty; Integer 5; Integer 8] in
  print m (List (cons vs)) = nth 0 m []
  /\ bencode.next_n m 1 1 5 (bencode.object_at m (mkptr 0 1) (mkptr 0 37))
     = bencode.Done
         (bencode.Ok (bencode.object_at m (mkptr 0 22) (mkptr 0 37))).
Proof.
  intros m draw rgb32 empty vs. split; [reflexivity|].
  apply (next_n_on_printed_list m (mkptr 0 1) (mkptr 0 37) vs [] 1 1 5).
  - repeat constructor.
  - reflexivity.
  - vm_compute. split; [discriminate | reflexivity].
  - simpl. lia.
Defined.

(** ** Comparison of views and lookup in a dict *)

(** [memcmp] is 0 exactly on ranges that hold the same bytes. *)
Lemma memcmp_loop_zero (m : memory) (n : nat) (p q : ptr) :
  Genode.memcmp_loop m p q n = 0
  <-> (forall i : nat, (i < n)%nat ->
         load m (padd p (Z.of_nat i)) = load m (padd q (Z.of_nat i))).
Proof.
  split; [|apply memcmp_loop_equal].
  revert p q. induction n as [|n IH]; intros p q H i Hi; [lia|].
  cbn [Genode.memcmp_loop] in H.
  destruct (load m p =? load m q) eqn:E.
  - apply Z.eqb_eq in E. destruct i as [|i].
    + simpl. rewrite !padd_0. exact E.
    + specialize (IH _ _ H i ltac:(lia)). rewrite !padd_padd in IH.
      replace (Z.of_nat (S i)) with (1 + Z.of_nat i) by lia. exact IH.
  - apply Z.eqb_neq in E. lia.
Qed.

Lemma ptr_eqb_eq (p q : ptr) : ptr_eqb p q = true -> p = q.
Proof.
  destruct p as [b o], q as [b' o']. unfold ptr_eqb. cbn [blk off].
  intros H. apply andb_true_iff in H as [H1 H2].
  apply Nat.eqb_eq in H1. apply Z.eqb_eq in H2. subst. reflexivity.
Qed.

(** [operator==] compares the bytes up to the shorter length. *)
Lemma strview_eq_iff (m : memory) (a b : strview) :
  Strview.eq m a b = true
  <-> (forall i : nat,
         Z.of_nat i < Genode.min (Strview.length a) (Strview.length b) ->
         load m (padd (Strview.start a) (Z.of_nat i))
         = load m (padd (Strview.start b) (Z.of_nat i))).
Proof.
  unfold Strview.eq, Strview.ne, Strview.cmp, Genode.memcmp.
  set (n := Genode.min (Strview.length a) (Strview.length b)).
  destruct (ptr_eqb (Strview.start b) (Strview.start a)) eqn:E.
  - apply ptr_eqb_eq in E. rewrite E. cbn [negb andb].
    split; [intros _ i _; reflexivity | reflexivity].
  - cbn [negb andb]. rewrite negb_involutive, Z.eqb_eq, memcmp_loop_zero.
    split; intros H i Hi; apply H; lia.
Qed.

(** X8.  [operator==] holds exactly when the two views agree on the first
    [min(length, rhs.length)] bytes; the lengths themselves are not
    compared. *)
Theorem strview_eq_shorter_length (m : memory) (a b : strview) :
  Strview.eq m a b = true
  <-> (forall i : nat,
         Z.of_nat i < Genode.min (Strview.length a) (Strview.length b) ->
         load m (padd (Strview.start a) (Z.of_nat i))
         = load m (padd (Strview.start b) (Z.of_nat i))).
Proof. exact (strview_eq_iff m a b). Qed.

(** Equality looks at the length and the bytes of a view only. *)
Lemma strview_eq_content (m : memory) (a a' b : strview) :
  Strview.length a = Strview.length a' ->
  Strview.content m a = Strview.content m a' ->
  Strview.eq m a b = Strview.eq m a' b.
Proof.
  intros Hlen Hc.
  assert (Hload : forall i : nat, Z.of_nat i < Strview.length a ->
            load m (padd (Strview.start a) (Z.of_nat i))
            = load m (padd (Strview.start a') (Z.of_nat i))).
  { intros i Hi. unfold Strview.content in Hc.
    rewrite <- (nth_bytes_at m (Strview.start a) (Strview.length a) i) by lia.
    rewrite <- (nth_bytes_at m (Strview.start a') (Strview.length a') i) by lia.
    rewrite Hc. reflexivity. }
  assert (Hmin : forall i : nat,
            Z.of_nat i < Genode.min (Strview.length a) (Strview.length b) ->
            Z.of_nat i < Strview.length a).
  { intros i. unfold Genode.min.
    destruct (Z.ltb_spec (Strview.length a) (Strview.length b)); lia. }
  destruct (Strview.eq m a b) eqn:E1; destruct (Strview.eq m a' b) eqn:E2;
    try reflexivity; exfalso.
  - rewrite strview_eq_iff in E1.
    assert (E : Strview.eq m a' b = true).
    { apply strview_eq_iff. intros i Hi. rewrite <- Hlen in Hi.
      rewrite <- Hload by (apply Hmin; exact Hi). apply E1. exact Hi. }
    congruence.
  - rewrite strview_eq_iff in E2.
    assert (E : Strview.eq m a b = true).
    { apply strview_eq_iff. intros i Hi.
      rewrite Hload by (apply Hmin; exact Hi). apply E2.
      rewrite <- Hlen. exact Hi. }
    congruence.
Qed.

Lemma strview_eq_shorter_length_witness :
  let m := [bytes_of_string "ping_echo"; bytes_of_string "ping"] in
  Strview.eq m {| Strview.start := mkptr 0 0; Strview.length := 9 |}
    {| Strview.start := mkptr 1 0; Strview.length := 4 |} = true.
Proof.
  intros m. apply strview_eq_shorter_length.
  intros i Hi. cbn in Hi.
  destruct i as [|[|[|[|i]]]]; try reflexivity; lia.
Defined.

Lemma entries_ok (a : assoc) (stack fuel : nat) :
  assoc_encodable a = true ->
  (2 * assoc_depth a < stack)%nat ->
  (assoc_width a < fuel)%nat ->
  Forall (entry_ok stack fuel) (entries a).
Proof.
  induction a as [|l IHl key value r IHr] using assoc_ind;
    intros Henc Hd Hw; [constructor|].
  cbn [assoc_encodable assoc_depth assoc_width entries] in *.
  apply andb_true_iff in Henc as [Henc H4].
  apply andb_true_iff in Henc as [Henc H3].
  apply andb_true_iff in Henc as [H1 H2].
  apply Forall_app. split; [apply IHl; [exact H1 | lia | lia]|].
  constructor; [|apply IHr; [exact H4 | lia | lia]].
  unfold entry_ok. cbn [Datatypes.fst Datatypes.snd].
  repeat split; try assumption; lia.
Qed.

Lemma flat_map_entry_cons (kv : strview * variant)
    (es : list (strview * variant)) :
  flat_map entry_items (kv :: es)
  = String (Datatypes.fst kv) :: Datatypes.snd kv :: flat_map entry_items es.
Proof. reflexivity. Qed.

(** The end of the object constructed on a printed string with
    characters is the end of what was printed. *)
Lemma object_end_print_string (m : memory) (q lst : ptr) (k : strview)
    (rest : list Z) :
  string_ok k = true -> Strview.length k <> 0 ->
  from m q = print_string m k ++ rest ->
  off q + Z.of_nat (List.length (print_string m k)) <= off lst < off q + 2 ^ 64 ->
  bencode.object_end (bencode.object_at m q lst)
  = padd q (Z.of_nat (List.length (print_string m k))).
Proof.
  intros Hok Hne Hmem Hlim.
  destruct (object_at_print_string m q lst k rest Hmem Hok Hlim) as (Hobj & _).
  unfold string_ok in Hok. apply andb_true_iff in Hok as [H0 _].
  apply Z.leb_le in H0.
  rewrite Hobj. unfold bencode.object_end. cbn [bencode._pos bencode._len].
  replace (Strview.length k =? 0) with false
    by (symmetry; apply Z.eqb_neq; exact Hne).
  rewrite padd_padd, print_string_length by exact H0. f_equal. lia.
Qed.

(** The node that [dict::create] makes on a printed entry whose key has
    characters: the key is read back, and the node sits on the value. *)
Lemma dict_create_entry (m : memory) (q lst : ptr) (k : strview)
    (v : variant) (rest : list Z) :
  string_ok k = true -> Strview.length k <> 0 -> encodable v = true ->
  from m q = print m (String k) ++ print m v ++ rest ->
  off q + Z.of_nat (List.length (print m (String k)))
    + Z.of_nat (List.length (print m v)) <= off lst < off q + 2 ^ 64 ->
  let qv := padd q (Z.of_nat (List.length (print m (String k)))) in
  bencode.dict_object (bencode.dict_create m q lst) = bencode.object_at m qv lst
  /\ from m qv = print m v ++ rest
  /\ (bencode.type m (bencode.object_at m qv lst) =? bencode.REC_END) = false
  /\ exists s : strview,
       bencode.dict_key m (bencode.dict_create m q lst) = bencode.Ok s
       /\ Strview.length s = Strview.length k
       /\ Strview.content m s = Strview.content m k.
Proof.
  intros Hok Hne Henc Hmem Hlim qv.
  assert (Hk : off q + Z.of_nat (List.length (print m (String k))) <= off lst
               < off q + 2 ^ 64) by lia.
  pose proof (object_end_print_string m q lst k _ Hok Hne Hmem Hk) as Hend.
  assert (Hqv : from m qv = print m v ++ rest)
    by (apply from_app in Hmem; exact Hmem).
  assert (Hv : off qv + Z.of_nat (List.length (print m v)) <= off lst
               < off qv + 2 ^ 64) by (unfold qv; cbn [padd off]; lia).
  destruct (object_at_value m qv lst v _ Henc Hqv Hv) as (Hty & _).
  unfold bencode.dict_create, bencode.dict_key.
  cbn [bencode.dict_object bencode._key]. rewrite Hend.
  repeat split; try assumption.
  destruct (print_string_decodes m q lst k _ Hok Hmem Hk) as (Hstr & Hc).
  eexists. split; [exact Hstr|]. split; [reflexivity | exact Hc].
Qed.

Lemma print_all_entries_cons (m : memory) (kv : strview * variant)
    (es : list (strview * variant)) :
  print_all m (flat_map entry_items (kv :: es))
  = print m (String (Datatypes.fst kv)) ++ print m (Datatypes.snd kv)
    ++ print_all m (flat_map entry_items es).
Proof. reflexivity. Qed.

Section lookup.

Variable m : memory.
Variables lst : ptr.
Variables stack fuel : nat.
Variable key : strview.

(** The loop of [lookup] over printed entries: it stops on the first entry
    whose key equals the key looked for. *)
Lemma lookup_loop_found (pre : list (strview * variant)) :
  forall (n : nat) (q : ptr) (k : strview) (v : variant)
         (post : list (strview * variant)) (rest : list Z),
    Forall (entry_ok stack fuel) (pre ++ (k, v) :: post) ->
    Forall (fun kv => Strview.length (Datatypes.fst kv) <> 0)
      (pre ++ (k, v) :: post) ->
    Forall (fun kv => Strview.eq m (Datatypes.fst kv) key = false) pre ->
    Strview.eq m k key = true ->
    from m q = print_all m (flat_map entry_items (pre ++ (k, v) :: post))
               ++ bencode.REC_END :: rest ->
    off q + Z.of_nat (List.length
              (print_all m (flat_map entry_items (pre ++ (k, v) :: post))))
      <= off lst < off q + 2 ^ 64 ->
    (List.length pre < n)%nat ->
    bencode.lookup_loop m stack fuel n (bencode.dict_create m q lst) key
    = bencode.Done
        (bencode.Ok
           (bencode.dict_create m
              (padd q (Z.of_nat (List.length
                         (print_all m (flat_map entry_items pre))))) lst)).
Proof.
  induction pre as [|[k1 v1] pre IH];
    intros n q k v post rest Hok Hne Hpre Hk Hmem Hlim Hn.
  - destruct n as [|n]; [simpl in Hn; lia|].
    cbn [app] in *. rewrite print_all_entries_cons in *.
    cbn [Datatypes.fst Datatypes.snd] in *.
    rewrite <- !app_assoc in Hmem. rewrite !zlen_app in Hlim.
    inversion Hok as [|? ? (H1 & H2 & H3 & H4) _]; subst.
    inversion Hne as [|? ? H5 _]; subst.
    cbn [Datatypes.fst Datatypes.snd] in *.
    destruct (dict_create_entry m q lst k v _ H1 H5 H2 Hmem ltac:(lia))
      as (Hobj & _ & Hty & s & Hkey & Hlen & Hc).
    cbn [bencode.lookup_loop]. rewrite Hobj, Hty, Hkey.
    rewrite (strview_eq_content m s k key Hlen Hc), Hk.
    cbn [flat_map print_all map List.concat List.length]. rewrite padd_0.
    reflexivity.
  - destruct n as [|n]; [simpl in Hn; lia|].
    cbn [app] in *. rewrite print_all_entries_cons in *.
    cbn [Datatypes.fst Datatypes.snd] in *.
    rewrite <- !app_assoc in Hmem. rewrite !zlen_app in Hlim.
    inversion Hok as [|? ? (H1 & H2 & H3 & H4) Hok']; subst.
    inversion Hne as [|? ? H5 Hne']; subst.
    inversion Hpre as [|? ? H6 Hpre']; subst.
    cbn [Datatypes.fst Datatypes.snd] in *.
    destruct (dict_create_entry m q lst k1 v1 _ H1 H5 H2 Hmem ltac:(lia))
      as (Hobj & Hqv & Hty & s & Hkey & Hlen & Hc).
    cbn [bencode.lookup_loop]. rewrite Hobj, Hty, Hkey.
    rewrite (strview_eq_content m s k1 key Hlen Hc), H6.
    set (qv := padd q (Z.of_nat (List.length (print m (String k1))))) in *.
    destruct (printed_value_skipped m qv lst v1 _ stack fuel H2 Hqv
                ltac:(unfold qv; cbn [padd off]; lia) H3 H4) as (_ & Hnext).
    rewrite (Hnext _ Hobj). cbn [bencode.and_then].
    apply from_app in Hqv.
    assert (Hn' : (List.length pre < n)%nat) by (simpl in Hn; lia).
    rewrite (IH n _ k v post rest Hok' Hne' Hpre' Hk Hqv
               ltac:(unfold qv; cbn [padd off]; lia) Hn').
    unfold qv. rewrite !padd_padd, !zlen_app. repeat f_equal; lia.
Qed.

(** With no entry of that key the loop ends on the closing of the dict. *)
Lemma lookup_loop_missing (es : list (strview * variant)) :
  forall (n : nat) (q : ptr) (rest : list Z),
    Forall (entry_ok stack fuel) es ->
    Forall (fun kv => Strview.length (Datatypes.fst kv) <> 0) es ->
    Forall (fun kv => Strview.eq m (Datatypes.fst kv) key = false) es ->
    from m q = print_all m (flat_map entry_items es)
               ++ bencode.REC_END :: rest ->
    off q + Z.of_nat (List.length (print_all m (flat_map entry_items es)))
      <= off lst < off q + 2 ^ 64 ->
    (List.length es < n)%nat ->
    let q' := padd q (Z.of_nat (List.length
                        (print_all m (flat_map entry_items es)))) in
    bencode.lookup_loop m stack fuel n (bencode.dict_create m q lst) key
    = bencode.Done (bencode.Ok (bencode.dict_create m q' lst))
    /\ bencode.dict_object (bencode.dict_create m q' lst)
       = {| bencode._len := 0; bencode._pos := q'; bencode._last := lst |}.
Proof.
  induction es as [|[k1 v1] es IH]; intros n q rest Hok Hne Hes Hmem Hlim Hn q'.
  - destruct n as [|n]; [simpl in Hn; lia|].
    cbn [flat_map print_all map List.concat app List.length] in *.
    unfold q'. rewrite padd_0.
    destruct (object_at_rec_end m q lst rest Hmem) as (Hobj & Hty).
    assert (Hd : bencode.dict_object (bencode.dict_create m q lst)
                 = bencode.object_at m q lst).
    { unfold bencode.dict_create. cbn [bencode.dict_object].
      rewrite Hobj at 1. unfold bencode.object_end.
      cbn [bencode._pos bencode._len]. rewrite padd_0. reflexivity. }
    cbn [bencode.lookup_loop]. rewrite Hd, Hty, Z.eqb_refl.
    split; [reflexivity | exact Hobj].
  - destruct n as [|n]; [simpl in Hn; lia|].
    unfold q'. rewrite print_all_entries_cons in *.
    cbn [Datatypes.fst Datatypes.snd] in *.
    rewrite <- !app_assoc in Hmem. rewrite !zlen_app in Hlim.
    inversion Hok as [|? ? (H1 & H2 & H3 & H4) Hok']; subst.
    inversion Hne as [|? ? H5 Hne']; subst.
    inversion Hes as [|? ? H6 Hes']; subst.
    cbn [Datatypes.fst Datatypes.snd] in *.
    destruct (dict_create_entry m q lst k1 v1 _ H1 H5 H2 Hmem ltac:(lia))
      as (Hobj & Hqv & Hty & s & Hkey & Hlen & Hc).
    cbn [bencode.lookup_loop]. rewrite Hobj, Hty, Hkey.
    rewrite (strview_eq_content m s k1 key Hlen Hc), H6.
    set (qv := padd q (Z.of_nat (List.length (print m (String k1))))) in *.
    destruct (printed_value_skipped m qv lst v1 _ stack fuel H2 Hqv
                ltac:(unfold qv; cbn [padd off]; lia) H3 H4) as (_ & Hnext).
    rewrite (Hnext _ Hobj). cbn [bencode.and_then].
    apply from_app in Hqv.
    destruct (IH n _ rest Hok' Hne' Hes' Hqv
                ltac:(unfold qv; cbn [padd off]; lia)
                ltac:(simpl in Hn; lia)) as (Hloop & Hend).
    rewrite Hloop. unfold qv in *. rewrite !padd_padd in *.
    rewrite !zlen_app. rewrite !Z.add_assoc in *.
    split; [reflexivity | exact Hend].
Qed.

End lookup.

(** [dict()] on a printed dict: the node on its first entry. *)
Lemma object_dict_printed (m : memory) (p lst : ptr) (a : assoc)
    (rest : list Z) :
  encodable (Dict a) = true ->
  from m p = print m (Dict a) ++ rest ->
  bencode.object_dict m (bencode.object_at m p lst)
  = bencode.Ok (bencode.dict_create m (padd p 1) lst)
  /\ from m (padd p 1)
     = print_all m (flat_map entry_items (entries a))
       ++ bencode.REC_END :: rest
  /\ Z.of_nat (List.length (print m (Dict a)))
     = Z.of_nat (List.length (print_all m (flat_map entry_items (entries a))))
       + 2.
Proof.
  intros Henc Hmem.
  destruct (print_items m (Dict a) Henc ltac:(right; eexists; reflexivity))
    as (k & Hk & Hp).
  assert (Hd : k = bencode.DICT).
  { destruct a; [discriminate|]. cbn [print] in Hp. injection Hp as <-.
    reflexivity. }
  subst k. rewrite Hp in *. cbn [items] in *.
  cbn [app] in Hmem. rewrite <- app_assoc in Hmem. cbn [app] in Hmem.
  apply from_cons in Hmem as (Hld & Hmem & _).
  rewrite (object_at_tag m p lst)
    by (rewrite Hld; unfold is_decimal, bencode.DICT; lia).
  unfold bencode.object_dict, bencode.validate_type, bencode.type.
  cbn [bencode._pos bencode._last]. rewrite Hld, Z.eqb_refl.
  split; [reflexivity|]. split; [exact Hmem|].
  cbn [List.length]. rewrite length_app. simpl List.length. lia.
Qed.

(** X5.  [lookup] on a printed dict whose keys have characters stops on the
    first entry whose key equals the key looked for: the node returned has
    that key and sits on the characters of its value. *)
Theorem dict_lookup_finds_entry (m : memory) (p lst : ptr) (a : assoc)
    (key k : strview) (v : variant) (pre post : list (strview * variant))
    (rest : list Z) (stack fuel : nat) :
  encodable (Dict a) = true ->
  Forall (fun kv => Strview.length (Datatypes.fst kv) <> 0) (entries a) ->
  entries a = pre ++ (k, v) :: post ->
  Forall (fun kv => Strview.eq m (Datatypes.fst kv) key = false) pre ->
  Strview.eq m k key = true ->
  from m p = print m (Dict a) ++ rest ->
  off p + Z.of_nat (List.length (print m (Dict a))) <= off lst
    < off p + 2 ^ 64 ->
  (2 * depth (Dict a) < stack)%nat ->
  (width (Dict a) < fuel)%nat ->
  exists (d0 d : bencode.bdict) (s : strview) (qv : ptr) (tail : list Z),
    bencode.object_dict m (bencode.object_at m p lst) = bencode.Ok d0
    /\ bencode.dict_lookup m stack fuel d0 key = bencode.Done (bencode.Ok d)
    /\ bencode.dict_key m d = bencode.Ok s
    /\ Strview.length s = Strview.length k
    /\ Strview.content m s = Strview.content m k
    /\ bencode.dict_object d = bencode.object_at m qv lst
    /\ from m qv = print m v ++ tail.
Proof.
  intros Henc Hne Hes Hpre Hk Hmem Hlim Hstack Hfuel.
  destruct (object_dict_printed m p lst a rest Henc Hmem) as (Hd & Hq & Hlen).
  rewrite Hlen in Hlim.
  assert (Hok : Forall (entry_ok stack fuel) (entries a)).
  { cbn [depth width] in *.
    apply entries_ok; [destruct a; [discriminate | exact Henc] | lia | lia]. }
  assert (Hn : (List.length pre < fuel)%nat).
  { cbn [width] in Hfuel. rewrite Hes, length_app in Hfuel.
    simpl List.length in Hfuel. lia. }
  rewrite Hes in *.
  pose proof (lookup_loop_found m lst stack fuel key pre fuel (padd p 1) k v
                post rest Hok Hne Hpre Hk Hq
                ltac:(cbn [padd off]; lia) Hn) as Hloop.
  set (q := padd (padd p 1)
              (Z.of_nat (List.length (print_all m (flat_map entry_items pre)))))
    in *.
  assert (Hqmem : from m q
                  = print m (String k) ++ print m v
                    ++ print_all m (flat_map entry_items post)
                    ++ bencode.REC_END :: rest).
  { rewrite flat_map_app, print_all_app, <- app_assoc in Hq.
    apply from_app in Hq. fold q in Hq.
    rewrite print_all_entries_cons in Hq.
    cbn [Datatypes.fst Datatypes.snd] in Hq.
    rewrite <- !app_assoc in Hq. exact Hq. }
  apply Forall_app in Hok as (_ & Hok). apply Forall_app in Hne as (_ & Hne).
  inversion Hok as [|? ? (H1 & H2 & _) _]; subst.
  inversion Hne as [|? ? H5 _]; subst.
  cbn [Datatypes.fst Datatypes.snd] in *.
  rewrite flat_map_app, print_all_app, zlen_app, print_all_entries_cons,
    !zlen_app in Hlim.
  cbn [Datatypes.fst Datatypes.snd] in Hlim.
  destruct (dict_create_entry m q lst k v _ H1 H5 H2 Hqmem
              ltac:(unfold q; cbn [padd off]; lia))
    as (Hobj & Hqv & _ & s & Hkey & Hslen & Hc).
  exists (bencode.dict_create m (padd p 1) lst), (bencode.dict_create m q lst),
    s, (padd q (Z.of_nat (List.length (print m (String k))))).
  eexists.
  split; [exact Hd|]. split; [exact Hloop|].
  split; [exact Hkey|]. split; [exact Hslen|]. split; [exact Hc|].
  split; [exact Hobj | exact Hqv].
Qed.

Lemma dict_lookup_finds_entry_witness :
  let m := [bytes_of_string "d3:lz4i1e4:zlibi0ee"; bytes_of_string "zlib"] in
  let lz4 := {| Strview.start := mkptr 0 3; Strview.length := 3 |} in
  let zlib := {| Strview.start := mkptr 0 11; Strview.length := 4 |} in
  let key := {| Strview.start := mkptr 1 0; Strview.length := 4 |} in
  let a := assoc_at assoc_null lz4 (Integer 1)
             (assoc_at assoc_null zlib (Integer 0) assoc_null) in
  exists (d0 d : bencode.bdict) (s : strview) (qv : ptr) (tail : list Z),
    bencode.object_dict m (bencode.object_at m (mkptr 0 0) (mkptr 0 19))
    = bencode.Ok d0
    /\ bencode.dict_lookup m 3 5 d0 key = bencode.Done (bencode.Ok d)
    /\ bencode.dict_key m d = bencode.Ok s
    /\ Strview.length s = 4
    /\ Strview.content m s = Strview.content m zlib
    /\ bencode.dict_object d = bencode.object_at m qv (mkptr 0 19)
    /\ from m qv = print m (Integer 0) ++ tail.
Proof.
  intros m lz4 zlib key a.
  apply (dict_lookup_finds_entry m (mkptr 0 0) (mkptr 0 19) a key zlib
           (Integer 0) [(lz4, Integer 1)] [] [] 3 5).
  - reflexivity.
  - constructor; [discriminate|]. constructor; [discriminate | constructor].
  - reflexivity.
  - constructor; [reflexivity | constructor].
  - reflexivity.
  - reflexivity.
  - vm_compute. split; [discriminate | reflexivity].
  - vm_compute. lia.
  - vm_compute. lia.
Defined.

(** X6.  [lookup] on a printed dict whose keys have characters and of which
    none equals the key looked for returns the node on the closing of the
    dict, and the form of [lookup] with a default returns the default. *)
Theorem dict_lookup_missing_key (m : memory) (p lst : ptr) (a : assoc)
    (key : strview) (rest : list Z) (stack fuel : nat) :
  encodable (Dict a) = true ->
  Forall (fun kv => Strview.length (Datatypes.fst kv) <> 0) (entries a) ->
  Forall (fun kv => Strview.eq m (Datatypes.fst kv) key = false) (entries a) ->
  from m p = print m (Dict a) ++ rest ->
  off p + Z.of_nat (List.length (print m (Dict a))) <= off lst
    < off p + 2 ^ 64 ->
  (2 * depth (Dict a) < stack)%nat ->
  (width (Dict a) < fuel)%nat ->
  exists d0 d : bencode.bdict,
    bencode.object_dict m (bencode.object_at m p lst) = bencode.Ok d0
    /\ bencode.dict_lookup m stack fuel d0 key = bencode.Done (bencode.Ok d)
    /\ bencode.type m (bencode.dict_object d) = bencode.REC_END
    /\ bencode._pos (bencode.dict_object d)
       = padd p (Z.of_nat (List.length (print m (Dict a))) - 1)
    /\ forall (lit : ptr) (len : Z),
         bencode.dict_lookup_default m stack fuel d0 key lit len
         = bencode.Done
             (bencode.Ok (bencode.dict_create m lit (padd lit len))).
Proof.
  intros Henc Hne Hes Hmem Hlim Hstack Hfuel.
  destruct (object_dict_printed m p lst a rest Henc Hmem) as (Hd & Hq & Hlen).
  rewrite Hlen in *.
  assert (Hok : Forall (entry_ok stack fuel) (entries a)).
  { cbn [depth width] in *.
    apply entries_ok; [destruct a; [discriminate | exact Henc] | lia | lia]. }
  assert (Hn : (List.length (entries a) < fuel)%nat).
  { cbn [width] in Hfuel. lia. }
  destruct (lookup_loop_missing m lst stack fuel key (entries a) fuel
              (padd p 1) rest Hok Hne Hes Hq
              ltac:(cbn [padd off]; lia) Hn) as (Hloop & Hobj).
  set (q' := padd (padd p 1)
               (Z.of_nat (List.length
                  (print_all m (flat_map entry_items (entries a)))))) in *.
  assert (Hty : bencode.type m (bencode.dict_object (bencode.dict_create m q' lst))
                = bencode.REC_END).
  { rewrite Hobj. unfold bencode.type. cbn [bencode._pos].
    apply from_app in Hq. fold q' in Hq.
    apply from_cons in Hq as (Hld & _). exact Hld. }
  exists (bencode.dict_create m (padd p 1) lst), (bencode.dict_create m q' lst).
  split; [exact Hd|]. split; [exact Hloop|]. split; [exact Hty|].
  split.
  - rewrite Hobj. cbn [bencode._pos]. unfold q'. rewrite padd_padd.
    f_equal. lia.
  - intros lit len. unfold bencode.dict_lookup_default.
    unfold bencode.dict_lookup in Hloop. unfold bencode.dict_lookup.
    rewrite Hloop. cbn [bencode.and_then]. rewrite Hty, Z.eqb_refl.
    reflexivity.
Qed.

Lemma dict_lookup_missing_key_witness :
  let m := [bytes_of_string "d3:lz4i1ee"; bytes_of_string "zlib";
            bytes_of_string "i0e"] in
  let lz4 := {| Strview.start := mkptr 0 3; Strview.length := 3 |} in
  let key := {| Strview.start := mkptr 1 0; Strview.length := 4 |} in
  let a := assoc_at assoc_null lz4 (Integer 1) assoc_null in
  exists d0 d : bencode.bdict,
    bencode.object_dict m (bencode.object_at m (mkptr 0 0) (mkptr 0 10))
    = bencode.Ok d0
    /\ bencode.dict_lookup m 3 3 d0 key = bencode.Done (bencode.Ok d)
    /\ bencode.type m (bencode.dict_object d) = bencode.REC_END
    /\ bencode.dict_lookup_default m 3 3 d0 key (mkptr 2 0) 3
       = bencode.Done
           (bencode.Ok (bencode.dict_create m (mkptr 2 0) (mkptr 2 3))).
Proof.
  intros m lz4 key a.
  destruct (dict_lookup_missing_key m (mkptr 0 0) (mkptr 0 10) a key [] 3 3)
    as (d0 & d & H1 & H2 & H3 & _ & H4).
  - reflexivity.
  - constructor; [discriminate | constructor].
  - constructor; [reflexivity | constructor].
  - reflexivity.
  - vm_compute. split; [discriminate | reflexivity].
  - vm_compute. lia.
  - vm_compute. lia.
  - exists d0, d. repeat split; try assumption. apply (H4 (mkptr 2 0) 3).
Defined.

(** X7.  On an entry whose key is the empty string, [dict::create] leaves
    the node on the colon of the key: whatever the value of the entry is, it
    reads as an empty string. *)
Theorem dict_entry_with_empty_key (m : memory) (q lst : ptr) (k : strview)
    (rest : list Z) :
  Strview.length k = 0 ->
  from m q = print m (String k) ++ rest ->
  off q + 2 <= off lst < off q + 2 ^ 64 ->
  let d := bencode.dict_create m q lst in
  bencode.dict_object d
  = {| bencode._len := 0; bencode._pos := padd q 1; bencode._last := lst |}
  /\ bencode.type m (bencode.dict_object d) = bencode.STRING
  /\ bencode.object_string m (bencode.dict_object d)
     = bencode.Ok {| Strview.start := padd q 2; Strview.length := 0 |}.
Proof.
  intros Hlen Hmem Hlim d.
  assert (Hok : string_ok k = true) by (unfold string_ok; rewrite Hlen; reflexivity).
  assert (Hp : Z.of_nat (List.length (print m (String k))) = 2).
  { cbn [print]. rewrite print_string_length by lia. rewrite Hlen. reflexivity. }
  cbn [print] in *.
  destruct (object_at_print_string m q lst k rest Hmem Hok ltac:(lia))
    as (Hobj & Hld).
  rewrite Hlen in Hobj, Hld. change (0 =? 0) with true in Hobj. cbv iota in Hobj.
  change (Z.of_nat (List.length (Output.out_unsigned 0))) with 1 in *.
  assert (Hd : bencode.dict_object d
               = {| bencode._len := 0; bencode._pos := padd q 1;
                    bencode._last := lst |}).
  { unfold d, bencode.dict_create. cbn [bencode.dict_object].
    rewrite Hobj. unfold bencode.object_end. cbn [bencode._pos bencode._len].
    rewrite padd_0.
    apply object_at_tag. rewrite Hld. unfold is_decimal, bencode.STRING. lia. }
  rewrite Hd. split; [reflexivity|]. split; [exact Hld|].
  unfold bencode.object_string, bencode.validate_type, bencode.type.
  cbn [bencode._pos bencode._len]. rewrite Hld, Z.eqb_refl.
  cbn [bencode.bind]. unfold bencode.validate_len, bencode.rem.
  cbn [bencode._pos bencode._last bencode._len].
  pose proof (wrap64_nonneg (pdiff lst (padd q 1))).
  replace (wrap64 (pdiff lst (padd q 1)) <? 0) with false
    by (symmetry; apply Z.ltb_ge; lia).
  cbn [bencode.bind]. rewrite padd_padd. reflexivity.
Qed.

Lemma dict_entry_with_empty_key_witness :
  let m := [bytes_of_string "d0:i5ee"] in
  bencode.object_string m
    (bencode.dict_object (bencode.dict_create m (mkptr 0 1) (mkptr 0 6)))
  = bencode.Ok {| Strview.start := mkptr 0 3; Strview.length := 0 |}.
Proof.
  intros m.
  apply (dict_entry_with_empty_key m (mkptr 0 1) (mkptr 0 6)
           {| Strview.start := mkptr 0 3; Strview.length := 0 |}
           (bytes_of_string "i5ee")).
  - reflexivity.
  - reflexivity.
  - vm_compute. split; [discriminate | reflexivity].
Defined.

(** ** Dispatcher: messages that the encoder prints *)

(** X9.  [search] returns an entry of the tree whose key equals the key
    searched for, and nothing when no key of the tree equals it. *)
Theorem search_returns_equal_key (Stored : Type) (m : memory)
    (t : Mapping.tree Stored) (search_key : strview) :
  (forall (key : strview) (value : Stored),
     Mapping.search m t search_key = Some (key, value) ->
     In (key, value) (tree_entries t)
     /\ Strview.eq m key search_key = true)
  /\ ((forall (key : strview) (value : Stored),
         In (key, value) (tree_entries t) ->
         Strview.eq m key search_key = false) ->
      Mapping.search m t search_key = None).
Proof.
  induction t as [|l IHl key value r IHr].
  - split; [discriminate | reflexivity].
  - destruct IHl as (IHl1 & IHl2). destruct IHr as (IHr1 & IHr2).
    cbn [Mapping.search tree_entries]. split.
    + intros k v H. destruct (Strview.ne m key search_key) eqn:E.
      * destruct (Mapping.higher m key search_key).
        -- destruct (IHr1 k v H) as (Hin & Heq). split; [|exact Heq].
           apply in_or_app. right. right. exact Hin.
        -- destruct (IHl1 k v H) as (Hin & Heq). split; [|exact Heq].
           apply in_or_app. left. exact Hin.
      * injection H as <- <-. split.
        -- apply in_or_app. right. left. reflexivity.
        -- unfold Strview.eq. rewrite E. reflexivity.
    + intros Hall.
      assert (Hk : Strview.ne m key search_key = true).
      { specialize (Hall key value ltac:(apply in_or_app; right; left; reflexivity)).
        unfold Strview.eq in Hall. apply negb_false_iff in Hall. exact Hall. }
      rewrite Hk. destruct (Mapping.higher m key search_key).
      * apply IHr2. intros k v Hin. apply (Hall k v).
        apply in_or_app. right. right. exact Hin.
      * apply IHl2. intros k v Hin. apply (Hall k v).
        apply in_or_app. left. exact Hin.
Qed.

Lemma search_returns_equal_key_witness :
  Mapping.search [[]; static_data] (ping_table 7) lit_draw = None.
Proof.
  apply (search_returns_equal_key Z [[]; static_data] (ping_table 7) lit_draw).
  intros key value [H|[]]. injection H as <- <-. reflexivity.
Defined.



(** The two orders of evaluation of [lst.string()] and [lst.next()] give the
    same result unless [string()] throws and [next()] does not return: with
    [string()] first the exception ends the call before [next()] runs. *)
Lemma dispatch_orders_agree (T St : Type)
    (call : Proto_Map.invocation T -> St
            -> bencode.outcome (St * bencode.result unit))
    (m : memory) (stack fuel : nat) (_str_tab : Mapping.tree T)
    (raw_string : strview) (st : St) :
  (forall lst,
     bencode.object_list m
       (bencode.object_of m (Strview.start raw_string)
          (Strview.length raw_string - 1)) = bencode.Ok lst ->
     (exists name, bencode.object_string m lst = bencode.Ok name)
     \/ (exists r, bencode.next m stack fuel lst = bencode.Done r)) ->
  Proto_Map.dispatch_next_first T St call m stack fuel _str_tab raw_string st
  = Proto_Map.dispatch T St call m stack fuel _str_tab raw_string st.
Proof.
  intros H. unfold Proto_Map.dispatch_next_first, Proto_Map.dispatch.
  destruct (Strview.length raw_string =? 0); [reflexivity|].
  destruct (bencode.object_list m _) as [lst|e]; [|reflexivity].
  destruct (H lst eq_refl) as [(name & Hs)|(r & Hn)].
  - rewrite Hs.
    destruct (bencode.next m stack fuel lst) as [[ent|e]| | |]; reflexivity.
  - rewrite Hn. destruct r as [ent|e]; [|destruct (bencode.object_string m lst)];
      reflexivity.
Qed.

(** X11.  A malformed payload is rejected without a call of any callback:
    an empty payload, a payload whose first byte is neither a decimal digit
    nor the opening of a list, and a list whose first byte is neither a
    decimal digit nor a colon.  With [lst.string()] evaluated first,
    [dispatch] returns false.  With [lst.next()] evaluated first, the first
    two cases return false as well; in the third [next()] runs on the list
    before [string()] throws, and [dispatch] returns false when [next()]
    returns or throws, while a first element nested more deeply than the
    stack allows ends the call in [next()]. *)
Theorem dispatch_rejects_malformed (T St : Type)
    (call : Proto_Map.invocation T -> St
            -> bencode.outcome (St * bencode.result unit))
    (m : memory) (stack fuel : nat) (_str_tab : Mapping.tree T)
    (raw_string : strview) (st : St) :
  let c0 := load m (Strview.start raw_string) in
  let c1 := load m (padd (Strview.start raw_string) 1) in
  let lst := bencode.object_at m (padd (Strview.start raw_string) 1)
               (padd (Strview.start raw_string)
                  (Strview.length raw_string - 1)) in
  Strview.length raw_string = 0
  \/ (~ is_decimal c0 /\ c0 <> bencode.LIST)
  \/ (c0 = bencode.LIST /\ ~ is_decimal c1 /\ c1 <> bencode.STRING) ->
  Proto_Map.dispatch T St call m stack fuel _str_tab raw_string st
  = bencode.Done (false, st)
  /\ Proto_Map.dispatch_next_first T St call m stack fuel _str_tab
       raw_string st
     = if (Strview.length raw_string =? 0) || negb (c0 =? bencode.LIST)
       then bencode.Done (false, st)
       else match bencode.next m stack fuel lst with
            | bencode.Done _ => bencode.Done (false, st)
            | bencode.Stack_exhausted => bencode.Stack_exhausted
            | bencode.Out_of_fuel => bencode.Out_of_fuel
            | bencode.Division_by_zero => bencode.Division_by_zero
            end.
Proof.
  intros c0 c1 lst H.
  unfold Proto_Map.dispatch, Proto_Map.dispatch_next_first.
  destruct (Strview.length raw_string =? 0) eqn:E; [split; reflexivity|].
  destruct H as [H|[(Hd & Hl)|(Hl & Hd & Hs)]].
  - rewrite H in E. discriminate.
  - unfold bencode.object_of.
    rewrite object_at_tag by exact Hd.
    unfold bencode.object_list, bencode.validate_type, bencode.type.
    cbn [bencode._pos]. fold c0.
    replace (c0 =? bencode.LIST) with false
      by (symmetry; apply Z.eqb_neq; exact Hl).
    destruct (bencode.valid_kind c0); split; reflexivity.
  - unfold bencode.object_of.
    rewrite object_at_tag
      by (fold c0; rewrite Hl; unfold is_decimal, bencode.LIST; lia).
    unfold bencode.object_list, bencode.validate_type, bencode.type.
    cbn [bencode._pos bencode._last]. fold c0. rewrite Hl, Z.eqb_refl.
    cbn [bencode.bind orb negb]. fold lst.
    assert (Hstr : exists e, bencode.object_string m lst = bencode.Throw e).
    { unfold lst. rewrite object_at_tag by exact Hd.
      unfold bencode.object_string, bencode.validate_type, bencode.type.
      cbn [bencode._pos]. fold c1.
      replace (c1 =? bencode.STRING) with false
        by (symmetry; apply Z.eqb_neq; exact Hs).
      destruct (bencode.valid_kind c1); eexists; reflexivity. }
    destruct Hstr as (e & Hstr). rewrite Hstr. split; [reflexivity|].
    destruct (bencode.next m stack fuel lst) as [[ent|e']| | |]; reflexivity.
Qed.

Lemma dispatch_rejects_malformed_witness :
  let m := [[]; static_data; bytes_of_string "i7e"; bytes_of_string "li7ee";
            bytes_of_string "llleee"] in
  let call := fun (i : Proto_Map.invocation nat) (st : list Z) =>
                bencode.Done (1 :: st, bencode.Ok tt) in
  let integer := {| Strview.start := mkptr 2 0; Strview.length := 3 |} in
  let flat := {| Strview.start := mkptr 3 0; Strview.length := 5 |} in
  let nested := {| Strview.start := mkptr 4 0; Strview.length := 6 |} in
  (Proto_Map.dispatch nat (list Z) call m 2 2 (ping_table 5%nat) integer []
   = bencode.Done (false, [])
   /\ Proto_Map.dispatch_next_first nat (list Z) call m 2 2 (ping_table 5%nat)
        integer []
      = bencode.Done (false, []))
  /\ (Proto_Map.dispatch nat (list Z) call m 2 2 (ping_table 5%nat) flat []
      = bencode.Done (false, [])
      /\ Proto_Map.dispatch_next_first nat (list Z) call m 2 2
           (ping_table 5%nat) flat []
         = bencode.Done (false, []))
  /\ (Proto_Map.dispatch nat (list Z) call m 2 2 (ping_table 5%nat) nested []
      = bencode.Done (false, [])
      /\ Proto_Map.dispatch_next_first nat (list Z) call m 2 2
           (ping_table 5%nat) nested []
         = bencode.Stack_exhausted)
  /\ (Proto_Map.dispatch nat (list Z) call m 4 2 (ping_table 5%nat) nested []
      = bencode.Done (false, [])
      /\ Proto_Map.dispatch_next_first nat (list Z) call m 4 2
           (ping_table 5%nat) nested []
         = bencode.Done (false, [])).
Proof.
  intros m call integer flat nested.
  split; [|split; [|split]].
  - apply (dispatch_rejects_malformed nat (list Z) call m 2 2
             (ping_table 5%nat) integer []).
    right. left.
    split; [intros [_ H]; vm_compute in H; exact (H eq_refl) | discriminate].
  - apply (dispatch_rejects_malformed nat (list Z) call m 2 2
             (ping_table 5%nat) flat []).
    right. right. split; [reflexivity|].
    split; [intros [_ H]; vm_compute in H; exact (H eq_refl) | discriminate].
  - apply (dispatch_rejects_malformed nat (list Z) call m 2 2
             (ping_table 5%nat) nested []).
    right. right. split; [reflexivity|].
    split; [intros [_ H]; vm_compute in H; exact (H eq_refl) | discriminate].
  - apply (dispatch_rejects_malformed nat (list Z) call m 4 2
             (ping_table 5%nat) nested []).
    right. right. split; [reflexivity|].
    split; [intros [_ H]; vm_compute in H; exact (H eq_refl) | discriminate].
Defined.

(** X12.  Decimal digits before the opening of the list are taken for the
    length of a string and skipped: a payload that begins with them is
    dispatched as the list that follows them. *)
Theorem dispatch_ignores_leading_digits (T St : Type)
    (call : Proto_Map.invocation T -> St
            -> bencode.outcome (St * bencode.result unit))
    (m : memory) (stack fuel : nat) (_str_tab : Mapping.tree T)
    (p : ptr) (len : Z) (ds tail : list Z) (st : St) :
  from m p = ds ++ bencode.LIST :: tail ->
  ds <> [] ->
  Forall is_decimal ds ->
  digits_value 0 ds < 2 ^ 64 - 1 ->
  Z.of_nat (List.length ds) + 2 <= len < 2 ^ 64 ->
  Proto_Map.dispatch T St call m stack fuel _str_tab
    {| Strview.start := p; Strview.length := len |} st
  = Proto_Map.dispatch T St call m stack fuel _str_tab
      {| Strview.start := padd p (Z.of_nat (List.length ds));
         Strview.length := len - Z.of_nat (List.length ds) |} st.
Proof.
  intros Hmem Hne Hds Hv Hlen.
  set (n := Z.of_nat (List.length ds)) in *.
  unfold Proto_Map.dispatch. cbn [Strview.length Strview.start].
  replace (len =? 0) with false by (symmetry; apply Z.eqb_neq; lia).
  replace (len - n =? 0) with false by (symmetry; apply Z.eqb_neq; lia).
  unfold bencode.object_of. rewrite padd_padd.
  replace (n + (len - n - 1)) with (len - 1) by lia.
  set (lst := padd p (len - 1)).
  pose proof Hmem as Hq. apply from_app in Hq. fold n in Hq.
  pose proof Hq as Hld. apply from_cons in Hld as (Hld & _ & _).
  assert (Hobj : bencode.object_list m (bencode.object_at m p lst)
                 = bencode.Ok (bencode.object_at m (padd (padd p n) 1) lst)).
  { unfold bencode.object_at at 1. rewrite Hmem.
    rewrite ascii_to_unsigned_decimal; try assumption;
      try (cbn; unfold bencode.LIST; lia);
      try (cbn; unfold bencode.LIST, Genode.digit; simpl; lia);
      try lia.
    fold n.
    assert (Hmin : Genode.min n (wrap64 (pdiff lst p - 1)) = n).
    { unfold Genode.min, pdiff, lst. cbn [padd off].
      rewrite wrap64_small by lia.
      destruct (Z.ltb_spec n (off p + (len - 1) - off p - 1)); [reflexivity | lia]. }
    rewrite Hmin.
    unfold bencode.object_list, bencode.validate_type, bencode.type.
    cbn [bencode._pos bencode._last]. rewrite Hld, Z.eqb_refl. reflexivity. }
  rewrite Hobj.
  rewrite (object_at_tag m (padd p n) lst)
    by (rewrite Hld; unfold is_decimal, bencode.LIST; lia).
  unfold bencode.object_list at 1, bencode.validate_type, bencode.type.
  cbn [bencode._pos bencode._last]. rewrite Hld, Z.eqb_refl.
  reflexivity.
Qed.

Lemma dispatch_ignores_leading_digits_witness :
  let m := [[]; static_data; bytes_of_string "123l4:pingi7ee"] in
  let call := fun (i : Proto_Map.invocation nat) (st : list Z) =>
                match i with
                | Proto_Map.To_target t _ => bencode.Done (Z.of_nat t :: st, bencode.Ok tt)
                | Proto_Map.To_default _ _ => bencode.Done (st, bencode.Ok tt)
                end in
  Proto_Map.dispatch nat (list Z) call m 1 0 (ping_table 5%nat)
    {| Strview.start := mkptr 2 0; Strview.length := 14 |} []
  = Proto_Map.dispatch nat (list Z) call m 1 0 (ping_table 5%nat)
      {| Strview.start := mkptr 2 3; Strview.length := 11 |} []
  /\ Proto_Map.dispatch nat (list Z) call m 1 0 (ping_table 5%nat)
       {| Strview.start := mkptr 2 3; Strview.length := 11 |} []
     = bencode.Done (true, [5]).
Proof.
  intros m call. split; [|reflexivity].
  apply (dispatch_ignores_leading_digits nat (list Z) call m 1 0
           (ping_table 5%nat) (mkptr 2 0) 14 [49; 50; 51]
           (bytes_of_string "4:pingi7ee") []).
  - reflexivity.
  - discriminate.
  - repeat constructor; unfold is_decimal; lia.
  - vm_compute. reflexivity.
  - simpl. lia.
Defined.
